(** * HYAB data cleaner: parsing, normalisation and analytics

    A shallow embedding of the logic of [hyab_data_cleaner_v2.py] and
    [hyab_data_cleaner_v3.py]: the locale-aware number parsers, the sheet
    resolver, the order-book extractor and the analytics (aging,
    concentration, cohorts, revenue bridge).

    Modelling conventions.
    - A Python [str] is a [string] whose characters are the code points
      0..255 (Latin-1 text); U+00A0 is the single character [nbsp].
    - A Python [float] is an IEEE 754 binary64 number.  A finite one is
      modelled by the rational it denotes ([Q]); [float(text)], the
      product with an exchange rate and [round(x, 2)] round to the
      nearest float as the interpreter does and overflow to [inf]
      (module [Binary64]).  The sign of zero is not kept.
    - The sums of the analytics are exact sums of these rationals.  The
      rounding of a float sum depends on the order of the terms and on
      the interpreter ([sum] is compensated from Python 3.12 on), so the
      properties stated of the analytics are those that do not depend on
      it: comparisons, orderings, membership and counts.
    - A [datetime] is a count of microseconds ([Z]); subtracting two of
      them and taking [.days] is a floor division. *)

From Stdlib Require Import Ascii String QArith Qround Qabs Qpower Lqa Sorted.
From stdpp Require Import gmap strings list.

Local Open Scope string_scope.
Local Open Scope bool_scope.

(** ** Characters *)

Module Char.

Definition code (c : ascii) : N := N_of_ascii c.

Definition nbsp : ascii := ascii_of_N 160.
Definition nel : ascii := ascii_of_N 133.
Definition line_feed : ascii := ascii_of_N 10.

Definition in_range (lo hi : N) (c : ascii) : bool :=
  ((lo <=? code c) && (code c <=? hi))%N.

(** [\d] on Latin-1 text: the ASCII digits. *)
Definition is_digit (c : ascii) : bool := in_range 48 57 c.

(** [str.isspace], also the class [\s] of the [re] module:
    TAB..CR, FS..US, SPACE, NEL and NBSP. *)
Definition is_space (c : ascii) : bool :=
  in_range 9 13 c || in_range 28 32 c || (code c =? 133)%N || (code c =? 160)%N.

(** The C locale's [isspace] that [float()] strips with. *)
Definition is_c_space (c : ascii) : bool :=
  in_range 9 13 c || (code c =? 32)%N.

Definition digit_value (c : ascii) : N := (code c - 48)%N.

(** [str.lower] on one Latin-1 character. *)
Definition lower (c : ascii) : ascii :=
  if in_range 65 90 c || ((in_range 192 222 c) && negb (code c =? 215)%N)
  then ascii_of_N (code c + 32) else c.

(** [str.upper] on an ASCII letter; other characters are left alone
    (it is only applied to a matched currency code). *)
Definition upper (c : ascii) : ascii :=
  if in_range 97 122 c then ascii_of_N (code c - 32) else c.

End Char.

(** ** String operations used by the cleaners *)

Module Str.

Fixpoint map (f : ascii -> ascii) (s : string) : string :=
  match s with
  | EmptyString => EmptyString
  | String c r => String (f c) (map f r)
  end.

Definition lower : string -> string := map Char.lower.
Definition upper : string -> string := map Char.upper.

(** [s.replace(c, '')] for a one-character [c]. *)
Fixpoint remove (c : ascii) (s : string) : string :=
  match s with
  | EmptyString => EmptyString
  | String x r => if Ascii.eqb x c then remove c r else String x (remove c r)
  end.

(** [s.replace(c, d)] for one-character [c] and [d]. *)
Definition replace (c d : ascii) : string -> string :=
  map (fun x => if Ascii.eqb x c then d else x).

Fixpoint lstrip (s : string) : string :=
  match s with
  | String c r => if Char.is_space c then lstrip r else s
  | EmptyString => EmptyString
  end.

Fixpoint rstrip (s : string) : string :=
  match s with
  | EmptyString => EmptyString
  | String c r =>
      match rstrip r with
      | EmptyString => if Char.is_space c then EmptyString else String c EmptyString
      | r' => String c r'
      end
  end.

(** [s.strip()] *)
Definition strip (s : string) : string := rstrip (lstrip s).

Fixpoint last (s : string) : option ascii :=
  match s with
  | EmptyString => None
  | String c EmptyString => Some c
  | String _ r => last r
  end.

(** [s.endswith(c)] for a one-character [c]. *)
Definition endswith (c : ascii) (s : string) : bool :=
  match last s with Some x => Ascii.eqb x c | None => false end.

Fixpoint forallb (p : ascii -> bool) (s : string) : bool :=
  match s with
  | EmptyString => true
  | String c r => p c && forallb p r
  end.

(** The longest prefix whose characters satisfy [p], and the rest. *)
Fixpoint span (p : ascii -> bool) (s : string) : string * string :=
  match s with
  | String c r =>
      if p c then let '(a, b) := span p r in (String c a, b) else (EmptyString, s)
  | EmptyString => (EmptyString, EmptyString)
  end.

Definition is_empty (s : string) : bool :=
  match s with EmptyString => true | _ => false end.

End Str.

(** ** Floats

    A [float] is a finite binary64 number, given by the rational it
    denotes, an infinity or [nan]. *)

Inductive pyfloat : Type :=
| Finite (q : Q)
| Infinite (negative : bool)
| NaN.

Definition Qgtb (x y : Q) : bool := negb (Qle_bool x y).
Definition Qltb (x y : Q) : bool := negb (Qle_bool y x).

(** Nearest integer, ties to the even one. *)
Definition round_half_even (q : Q) : Z :=
  let f := Qfloor q in
  let r := (q - inject_Z f)%Q in
  if Qltb r (1 # 2) then f
  else if Qltb (1 # 2) r then (f + 1)%Z
  else if Z.even f then f else (f + 1)%Z.

Module Binary64.

(** [2^e] *)
Definition pow2 (e : Z) : Q := (2 ^ e)%Q.

(** The binary exponent of a rational other than zero: the [e] with
    [2^e <= |q| < 2^(e+1)]. *)
Definition ilog2 (q : Q) : Z :=
  let e := (Z.log2 (Z.abs (Qnum q)) - Z.log2 (Zpos (Qden q)))%Z in
  if Qle_bool (pow2 e) (Qabs q) then e else (e - 1)%Z.

(** The exponent of the last bit of the significand of the float next
    to [q]: a significand has 53 bits, and no float has a bit below
    [2^-1074]. *)
Definition ulp_exponent (q : Q) : Z := Z.max (ilog2 q - 52) (-1074).

(** The float nearest to [q], ties to the one with the even significand;
    from [2^1024] on the rounded value is an infinity.  A rational that
    is a float already is returned as it is written. *)
Definition round (q : Q) : pyfloat :=
  if Qeq_bool q 0 then Finite q
  else
    let e := ulp_exponent q in
    let v := (inject_Z (round_half_even (q / pow2 e)) * pow2 e)%Q in
    if Qle_bool (pow2 1024) (Qabs v) then Infinite (Qltb q 0)
    else if Qeq_bool v q then Finite q else Finite v.

Definition is_zero (x : pyfloat) : bool :=
  match x with Finite q => Qeq_bool q 0 | _ => false end.

Definition is_negative (x : pyfloat) : bool :=
  match x with Finite q => Qltb q 0 | Infinite negative => negative | NaN => false end.

(** [x * y]: an infinity times zero is [nan]. *)
Definition mul (x y : pyfloat) : pyfloat :=
  match x, y with
  | NaN, _ | _, NaN => NaN
  | Finite a, Finite b => round (a * b)
  | _, _ =>
      if is_zero x || is_zero y then NaN
      else Infinite (xorb (is_negative x) (is_negative y))
  end.

(** The value of a float literal of the source. *)
Definition literal (q : Q) : Q :=
  match round q with Finite v => v | _ => q end.

End Binary64.

(** ** Python's [float(str)]

    The decimal the text spells, rounded to the nearest float;
    [Infinite] and [NaN] also stand for the spellings [inf], [infinity]
    and [nan]. *)

Module Float.

(** Non-ASCII white space is turned into a space before parsing. *)
Definition to_ascii_space (c : ascii) : ascii :=
  if (Char.code c =? 133)%N || (Char.code c =? 160)%N then " "%char else c.

(** Underscores may only stand between two digits; they are dropped.
    [prev] is the previous character of the input. *)
Fixpoint drop_underscores (prev : ascii) (s : string) : option string :=
  match s with
  | EmptyString => if Ascii.eqb prev "_" then None else Some EmptyString
  | String c r =>
      if Ascii.eqb c "_" then
        if Char.is_digit prev then drop_underscores c r else None
      else if Ascii.eqb prev "_" && negb (Char.is_digit c) then None
      else option_map (String c) (drop_underscores c r)
  end.

Fixpoint c_lstrip (s : string) : string :=
  match s with
  | String c r => if Char.is_c_space c then c_lstrip r else s
  | EmptyString => EmptyString
  end.

Fixpoint c_rstrip (s : string) : string :=
  match s with
  | EmptyString => EmptyString
  | String c r =>
      match c_rstrip r with
      | EmptyString => if Char.is_c_space c then EmptyString else String c EmptyString
      | r' => String c r'
      end
  end.

Definition c_strip (s : string) : string := c_rstrip (c_lstrip s).

Fixpoint digits_value (acc : N) (s : string) : N :=
  match s with
  | EmptyString => acc
  | String c r => digits_value (acc * 10 + Char.digit_value c) r
  end.

Definition take_sign (s : string) : bool * string :=
  match s with
  | String "-" r => (true, r)
  | String "+" r => (false, r)
  | _ => (false, s)
  end.

(** [m * 10^e], negated when [neg]. *)
Definition decimal (neg : bool) (m : N) (e : Z) : Q :=
  let q := if (0 <=? e)%Z
           then inject_Z (Z.of_N m * 10 ^ e)
           else Qmake (Z.of_N m) (Z.to_pos (10 ^ (- e))) in
  if neg then Qopp q else q.

(** The exponent part: empty, or [e]/[E], an optional sign and at least
    one digit, up to the end of the text. *)
Definition exponent (s : string) : option Z :=
  match s with
  | EmptyString => Some 0%Z
  | String c r =>
      if Ascii.eqb c "e" || Ascii.eqb c "E" then
        let '(neg, r1) := take_sign r in
        let '(ds, rest) := Str.span Char.is_digit r1 in
        if Str.is_empty ds || negb (Str.is_empty rest) then None
        else let e := Z.of_N (digits_value 0 ds) in
             Some (if neg then (- e)%Z else e)
      else None
  end.

(** A decimal literal: sign, digits, optional point and digits (at
    least one digit in all), optional exponent. *)
Definition parse_decimal (s : string) : option Q :=
  let '(neg, r0) := take_sign s in
  let '(ip, r1) := Str.span Char.is_digit r0 in
  let '(fp, r2) :=
    match r1 with
    | String "." r => Str.span Char.is_digit r
    | _ => (EmptyString, r1)
    end in
  if Str.is_empty ip && Str.is_empty fp then None
  else
    match exponent r2 with
    | Some e =>
        Some (decimal neg (digits_value 0 (ip ++ fp))
                      (e - Z.of_nat (String.length fp)))
    | None => None
    end.

(** [inf], [infinity] and [nan] in any case, with an optional sign. *)
Definition parse_inf_or_nan (s : string) : option pyfloat :=
  let '(neg, r) := take_sign s in
  let w := Str.lower r in
  if String.eqb w "inf" || String.eqb w "infinity" then Some (Infinite neg)
  else if String.eqb w "nan" then Some NaN
  else None.

(** [float(s)]; [None] is [ValueError]. *)
Definition py_float (s : string) : option pyfloat :=
  match drop_underscores "000" (Str.map to_ascii_space s) with
  | None => None
  | Some t =>
      let u := c_strip t in
      match parse_decimal u with
      | Some q => Some (Binary64.round q)
      | None => parse_inf_or_nan u
      end
  end.

End Float.


(** ** Cell values and [str()] *)

(** What the workbook reader hands out for a cell: nothing, a number, a
    text or a date. *)
Inductive cell : Type :=
| CNone
| CNum (q : Q)
| CText (s : string)
| CDate (t : Z).

(** Python truthiness, as used by [x or ''] and [if not x]. *)
Definition truthy (v : cell) : bool :=
  match v with
  | CNone => false
  | CNum q => negb (Qeq_bool q 0)
  | CText s => negb (Str.is_empty s)
  | CDate _ => true
  end.

Definition py_or (v d : cell) : cell := if truthy v then v else d.

(** ** The regular expressions of the cleaners *)

Module Regex.

(** The class [[\d\s\xa0\.,]]. *)
Definition amount_char (c : ascii) : bool :=
  Char.is_digit c || Char.is_space c || Ascii.eqb c Char.nbsp
  || Ascii.eqb c "." || Ascii.eqb c ",".

Definition is_currency_code (s : string) : bool :=
  String.eqb s "SEK" || String.eqb s "EUR" || String.eqb s "USD" || String.eqb s "GBP".

(** [(SEK|EUR|USD|GBP)?] with [re.IGNORECASE], at the start of [s]:
    the text the group matched, if any. *)
Definition currency_group (s : string) : option string :=
  let t := String.substring 0 3 s in
  if is_currency_code (Str.upper t) then Some t else None.

(** [re.match(r'([\d\s\xa0\.,]+)\s*(SEK|EUR|USD|GBP)?', s, re.IGNORECASE)]:
    groups 1 and 2 of the match, [None] when there is none.  Group 1 is
    greedy and nothing after it can fail, so it is the longest prefix
    in the class. *)
Definition match_amount (s : string) : option (string * option string) :=
  let '(g1, rest) := Str.span amount_char s in
  if Str.is_empty g1 then None
  else
    let '(_, rest1) := Str.span Char.is_space rest in
    Some (g1, currency_group rest1).

(** [$]: the end of the text, or just before one final line feed. *)
Definition at_end (s : string) : bool :=
  match s with
  | EmptyString => true
  | String c EmptyString => Ascii.eqb c Char.line_feed
  | _ => false
  end.

(** [re.search(r',\d{2}$', s)] as a truth value. *)
Fixpoint search_comma_2digits_end (s : string) : bool :=
  match s with
  | EmptyString => false
  | String c r =>
      (Ascii.eqb c "," &&
       match r with
       | String d1 (String d2 tl) => Char.is_digit d1 && Char.is_digit d2 && at_end tl
       | _ => false
       end)
      || search_comma_2digits_end r
  end.

End Regex.

(** ** The numeric cleaners (v2) *)

(** Result of [clean_number]: [None], a float, or a text handed back. *)
Inductive parsed_number : Type :=
| Absent
| Number (x : pyfloat)
| Literal (s : string).

Section Cleaners.

(** [str()] of a numeric and of a datetime cell. *)
Variable str_of_number : Q -> string.
Variable str_of_datetime : Z -> string.

Definition py_str (v : cell) : string :=
  match v with
  | CNone => "None"
  | CNum q => str_of_number q
  | CText s => s
  | CDate t => str_of_datetime t
  end.

Definition is_none (v : cell) : bool :=
  match v with CNone => true | _ => false end.

(** [clean_amount_with_currency]; [None] is the pair [(None, None)]. *)
Definition clean_amount_with_currency (raw_value : cell) : option (pyfloat * string) :=
  if is_none raw_value then None
  else
    let raw := Str.strip (py_str raw_value) in
    match Regex.match_amount raw with
    | None => None
    | Some (group1, group2) =>
        let amount_str := Str.remove " " (Str.remove Char.nbsp group1) in
        let currency := match group2 with Some g => Str.upper g | None => "SEK" end in
        let amount_str :=
          if Regex.search_comma_2digits_end amount_str
          then Str.replace "," "." (Str.remove "." amount_str)
          else Str.remove "," amount_str in
        match Float.py_float amount_str with
        | Some amount => Some (amount, currency)
        | None => None
        end
    end.

(** [raw in ['', 'n/a', 'None', '-']] *)
Definition is_sentinel (raw : string) : bool :=
  String.eqb raw EmptyString || String.eqb raw "n/a"
  || String.eqb raw "None" || String.eqb raw "-".

(** [clean_number] *)
Definition clean_number (raw_value : cell) : parsed_number :=
  if is_none raw_value then Absent
  else
    let raw := Str.strip (py_str raw_value) in
    if Str.endswith "%" raw then Literal raw
    else if is_sentinel raw then Absent
    else
      let cleaned := Str.remove " " (Str.remove Char.nbsp raw) in
      let cleaned :=
        if Regex.search_comma_2digits_end cleaned
        then Str.replace "," "." (Str.remove "." cleaned)
        else Str.remove "," cleaned in
      match Float.py_float cleaned with
      | Some x => Number x
      | None => Literal raw
      end.

End Cleaners.

(** ** The cleaners of v3 *)

Module V3.

(** Result of [clean_num]: [None], a float, or the raw cell itself. *)
Inductive cleaned : Type :=
| CleanNone
| CleanFloat (x : pyfloat)
| CleanRaw (raw : cell).

Section Cleaners.

Variable str_of_number : Q -> string.
Variable str_of_datetime : Z -> string.

Definition clean_amount (raw : cell) : option (pyfloat * string) :=
  if is_none raw then None
  else
    match Regex.match_amount (Str.strip (py_str str_of_number str_of_datetime raw)) with
    | None => None
    | Some (g1, g2) =>
        let s := Str.remove " " (Str.remove Char.nbsp g1) in
        let cur := match g2 with Some g => Str.upper g | None => "SEK" end in
        let s := if Regex.search_comma_2digits_end s
                 then Str.replace "," "." (Str.remove "." s)
                 else Str.remove "," s in
        match Float.py_float s with
        | Some x => Some (x, cur)
        | None => None
        end
    end.

Definition clean_num (raw : cell) : cleaned :=
  if is_none raw then CleanNone
  else
    let s := Str.strip (py_str str_of_number str_of_datetime raw) in
    if is_sentinel s then CleanNone
    else
      let s := Str.remove " " (Str.remove Char.nbsp s) in
      let s := if Regex.search_comma_2digits_end s
               then Str.replace "," "." (Str.remove "." s)
               else Str.remove "," s in
      match Float.py_float s with
      | Some x => CleanFloat x
      | None => CleanRaw raw
      end.

End Cleaners.

End V3.

(** ** Exceptions *)

Inductive exn : Type :=
| KeyError | ZeroDivisionError | ValueError | TypeError | IllegalCharacterError.

Inductive result (A : Type) : Type :=
| Ok (a : A)
| Raise (e : exn).
Arguments Ok {A} a.
Arguments Raise {A} e.

Definition bind {A B : Type} (r : result A) (k : A -> result B) : result B :=
  match r with
  | Ok a => k a
  | Raise e => Raise e
  end.

Notation "'let*' x ':=' r 'in' k" := (bind r (fun x => k))
  (at level 10, x pattern, r at level 100, k at level 200).

Fixpoint mapM {A B : Type} (f : A -> result B) (l : list A) : result (list B) :=
  match l with
  | [] => Ok []
  | x :: r => let* y := f x in let* ys := mapM f r in Ok (y :: ys)
  end.

(** ** Numbers *)

(** [sum(xs)] *)
Definition py_sum (xs : list Q) : Q := foldl Qplus 0%Q xs.

(** [x / y] *)
Definition py_div (x y : Q) : result Q :=
  if Qeq_bool y 0 then Raise ZeroDivisionError else Ok (x / y)%Q.

(** [round(x, 2)]: the decimal with two places nearest to the value of
    the float [x], ties to the even one, and of that decimal the nearest
    float; [inf] and [nan] are returned as they are. *)
Definition py_round2 (x : pyfloat) : pyfloat :=
  match x with
  | Finite q => Binary64.round (inject_Z (round_half_even (q * 100)) / 100)
  | _ => x
  end.

(** ** Sorting

    [sorted] and [list.sort] are stable, also with [reverse=True].
    [before y x] says that [y] has to come strictly before [x]. *)

Section Sorting.

Context {A : Type} (before : A -> A -> bool).

Fixpoint insert_sorted (x : A) (l : list A) : list A :=
  match l with
  | [] => [x]
  | y :: r => if before y x then y :: insert_sorted x r else x :: l
  end.

Definition py_sorted (l : list A) : list A := foldr insert_sorted [] l.

End Sorting.

(** [sorted(l, key=key)] and [sorted(l, key=key, reverse=True)] *)
Definition sorted_asc_Q {A : Type} (key : A -> Q) : list A -> list A :=
  py_sorted (fun y x => Qltb (key y) (key x)).
Definition sorted_desc_Q {A : Type} (key : A -> Q) : list A -> list A :=
  py_sorted (fun y x => Qgtb (key y) (key x)).
Definition sorted_desc_Z {A : Type} (key : A -> Z) : list A -> list A :=
  py_sorted (fun y x => (key x <? key y)%Z).

(** ** Workbooks and the sheet resolver *)

Record worksheet : Type := {
  title : string;
  max_row : nat;
  cell_value : nat -> nat -> cell   (* [ws.cell(row, col).value] *)
}.

Definition sheetnames (wb : list worksheet) : list string := List.map title wb.

(** [wb[name]]: the first sheet with that title. *)
Definition getitem (wb : list worksheet) (name : string) : result worksheet :=
  match List.find (fun ws => String.eqb (title ws) name) wb with
  | Some ws => Ok ws
  | None => Raise KeyError
  end.

(** [{name.lower(): name for name in names}] *)
Definition lower_index (names : list string) : gmap string string :=
  foldl (fun m name => <[Str.lower name := name]> m) ∅ names.

(** [find_sheet] of v2. *)
Definition find_sheet (wb : list worksheet) (possible_names : list string)
  : result (option worksheet) :=
  let sheet_names_lower := lower_index (sheetnames wb) in
  let fix loop (names : list string) : result (option worksheet) :=
    match names with
    | name :: rest =>
        match sheet_names_lower !! Str.lower name with
        | Some actual => let* ws := getitem wb actual in Ok (Some ws)
        | None => loop rest
        end
    | [] =>
        match sheetnames wb with
        | [only] => let* ws := getitem wb only in Ok (Some ws)
        | _ => Ok None
        end
    end in
  loop possible_names.

Module V3Sheets.

(** [find_sheet] of v3. *)
Definition find_sheet (wb : list worksheet) (names : list string)
  : result (option worksheet) :=
  let lower := lower_index (sheetnames wb) in
  let fix loop (l : list string) : result (option worksheet) :=
    match l with
    | name :: rest =>
        match lower !! Str.lower name with
        | Some actual => let* ws := getitem wb actual in Ok (Some ws)
        | None => loop rest
        end
    | [] =>
        match sheetnames wb with
        | [only] => let* ws := getitem wb only in Ok (Some ws)
        | _ => Ok None
        end
    end in
  loop names.

End V3Sheets.

(** ** Order book extraction (v2) *)

Record order : Type := {
  ordernr : cell;
  orderdatum : option Z;
  kundnamn : cell;
  status : cell;
  fakt_status : cell;
  belopp : Q;
  valuta : string;
  belopp_sek : Q
}.

(** [range(2, n + 1)] *)
Definition rows_from_2 (n : nat) : list nat := seq 2 (n - 1).

(** [fx_rates.get(valuta, 1.0)] *)
Definition fx_get (fx_rates : gmap string Q) (valuta : string) : Q :=
  default 1%Q (fx_rates !! valuta).

(** The table the application builds from its three inputs. *)
Definition app_fx_rates (eur_rate usd_rate gbp_rate : Q) : gmap string Q :=
  <["SEK" := 1%Q]> (<["EUR" := eur_rate]> (<["USD" := usd_rate]> (<["GBP" := gbp_rate]> ∅))).

Definition DEFAULT_FX_RATES : gmap string Q :=
  app_fx_rates (Binary64.literal 11.20) (Binary64.literal 10.50) (Binary64.literal 13.30).

(** What a row of the sheet yields: nothing, an order, or an order with
    an amount that is [inf] or [nan].  The program appends the latter
    like any other; the records of this model hold finite amounts only,
    so it is kept apart, with the amount, the currency and the amount in
    SEK the program computes. *)
Inductive row_outcome (A : Type) : Type :=
| Skipped
| Kept (o : A)
| KeptNonFinite (belopp : pyfloat) (valuta : string) (belopp_sek : pyfloat).
Arguments Skipped {A}.
Arguments Kept {A} o.
Arguments KeptNonFinite {A} belopp valuta belopp_sek.

Definition kept_order {A : Type} (r : row_outcome A) : option A :=
  match r with Kept o => Some o | _ => None end.

Definition is_non_finite {A : Type} (r : row_outcome A) : bool :=
  match r with KeptNonFinite _ _ _ => true | _ => false end.

(** The orders of the rows, in order; [None] when a row is kept with an
    amount that is not finite. *)
Definition collect_orders {A : Type} (rows : list (row_outcome A)) : option (list A) :=
  if existsb is_non_finite rows then None else Some (omap kept_order rows).

(** [round(amt * rate, 2)] *)
Definition to_sek (amt : pyfloat) (rate : Q) : pyfloat :=
  py_round2 (Binary64.mul amt (Finite rate)).

Section OrderBook.

Variable str_of_number : Q -> string.
Variable str_of_datetime : Z -> string.

(** One iteration of the loop of [parse_order_book]: the row is skipped
    when its amount does not parse, and kept otherwise, whatever the
    amount is. *)
Definition parse_order_row (ws_raw : worksheet) (fx_rates : gmap string Q) (row : nat)
  : row_outcome order :=
  match clean_amount_with_currency str_of_number str_of_datetime (cell_value ws_raw row 6) with
  | None => Skipped
  | Some (belopp, valuta) =>
      let orderdatum := cell_value ws_raw row 2 in
      let order_date := match orderdatum with CDate t => Some t | _ => None end in
      let rate := fx_get fx_rates valuta in
      let belopp_sek := to_sek belopp rate in
      match belopp, belopp_sek with
      | Finite amount, Finite amount_sek =>
          Kept {| ordernr := cell_value ws_raw row 1;
                  orderdatum := order_date;
                  kundnamn := cell_value ws_raw row 3;
                  status := cell_value ws_raw row 4;
                  fakt_status := py_or (cell_value ws_raw row 5) (CText EmptyString);
                  belopp := amount;
                  valuta := valuta;
                  belopp_sek := amount_sek |}
      | _, _ => KeptNonFinite belopp valuta belopp_sek
      end
  end.

(** [parse_order_book] *)
Definition parse_order_book (ws_raw : worksheet) (fx_rates : gmap string Q)
  : option (list order) :=
  collect_orders (List.map (parse_order_row ws_raw fx_rates) (rows_from_2 (max_row ws_raw))).

End OrderBook.

(** ** Order book analytics (v2) *)

Record aging_alert : Type := {
  alert_ordernr : cell;
  alert_kundnamn : cell;
  alert_orderdatum : Z;
  days_old : Z;
  months_old : Z;
  alert_belopp_sek : Q
}.

Definition microseconds_per_day : Z := 86400000000.

(** [(a - b).days] for two datetimes. *)
Definition timedelta_days (a b : Z) : Z := ((a - b) / microseconds_per_day)%Z.

(** The alert of one order, if it has a date and is older than 90 days. *)
Definition aging_alert_of (today : Z) (o : order) : option aging_alert :=
  match orderdatum o with
  | None => None
  | Some d =>
      let days := timedelta_days today d in
      if (90 <? days)%Z then
        Some {| alert_ordernr := ordernr o;
                alert_kundnamn := kundnamn o;
                alert_orderdatum := d;
                days_old := days;
                months_old := (days / 30)%Z;
                alert_belopp_sek := belopp_sek o |}
      else None
  end.

(** [analyze_order_aging]; [now] is what [datetime.now()] returns. *)
Definition analyze_order_aging (now : Z) (orders : list order) (today : option Z)
  : list aging_alert :=
  let today := default now today in
  let aging_alerts := omap (aging_alert_of today) orders in
  sorted_desc_Z days_old aging_alerts.

(** Equality of dictionary keys. *)
Definition cell_eqb (a b : cell) : bool :=
  match a, b with
  | CNone, CNone => true
  | CNum x, CNum y => Qeq_bool x y
  | CText s, CText t => String.eqb s t
  | CDate s, CDate t => (s =? t)%Z
  | _, _ => false
  end.

(** [d[k] += v] on a [defaultdict(float)], kept in insertion order. *)
Fixpoint dict_add (k : cell) (v : Q) (d : list (cell * Q)) : list (cell * Q) :=
  match d with
  | [] => [(k, 0 + v)%Q]
  | (k', w) :: r =>
      if cell_eqb k' k then (k', (w + v)%Q) :: r else (k', w) :: dict_add k v r
  end.

Definition customer_totals (orders : list order) : list (cell * Q) :=
  foldl (fun d o => dict_add (kundnamn o) (belopp_sek o) d) [] orders.

(** [analyze_customer_concentration] *)
Definition analyze_customer_concentration (orders : list order)
  : result (list (cell * Q * Q) * Q * Q) :=
  let totals := customer_totals orders in
  let total := py_sum (List.map snd totals) in
  if Qeq_bool total 0 then Ok ([], 0%Q, 0%Q)
  else
    let sorted_customers := sorted_desc_Q snd totals in
    let* top_5 := mapM (fun '(name, amt) =>
                          let* share := py_div amt total in Ok (name, amt, (share * 100)%Q))
                       (take 5 sorted_customers) in
    let* top_3_share := py_div (py_sum (List.map snd (take 3 sorted_customers))) total in
    let* top_1_pct :=
      match sorted_customers with
      | first :: _ => let* share := py_div (snd first) total in Ok (share * 100)%Q
      | [] => Ok 0%Q
      end in
    Ok (top_5, (top_3_share * 100)%Q, top_1_pct).

(** ** Cohorts and the revenue bridge (v3) *)

(** A customer of the master file, as [parse_master] builds it. *)
Record customer : Type := {
  kund : string;
  monthly : gmap string Q;
  fy : gmap string Q;
  ltm : gmap string Q;
  churned : bool
}.

(** An article of the master data. *)
Record master_article : Type := {
  art_artikelnr : string;
  art_artikelnamn : cell;
  art_ltm : gmap string Q
}.

(** The part of [parse_master]'s result the analytics read. *)
Record master_data : Type := {
  articles : list master_article;
  customers : list customer;
  monthly_totals : gmap string Q;
  ltm_trend : gmap string Q
}.

(** [d.get(k, 0)] *)
Definition get0 (d : gmap string Q) (k : string) : Q := default 0%Q (d !! k).

(** The LTM labels of all customers, [all_l] in [parse_master]. *)
Definition all_ltm_labels (cs : list customer) : gset string :=
  foldl (fun acc c => acc ∪ dom (ltm c)) ∅ cs.

(** The [ltm_trend] table [parse_master] derives from its customers:
    for every label, the sum over the customers. *)
Definition ltm_trend_of (cs : list customer) : gmap string Q :=
  set_to_map (fun l => (l, py_sum (List.map (fun c => get0 (ltm c) l) cs)))
             (all_ltm_labels cs).

Record churn_row : Type := {
  churn_kund : string;
  churn_previous : Q;
  churn_current : Q;
  churn_change : Q
}.

Record new_row : Type := {
  new_kund : string;
  new_current : Q
}.

Record move_row : Type := {
  move_kund : string;
  move_previous : Q;
  move_current : Q;
  move_change : Q;
  move_pct : Q
}.

Record cohorts : Type := {
  cohort_churned : list churn_row;
  cohort_declining : list move_row;
  cohort_growing : list move_row;
  cohort_new : list new_row
}.

(** The body of the loop of [analyze_cohorts]: the customer is appended
    to at most one of the four lists. *)
Definition cohort_step (curr prev : string) (acc : cohorts) (c : customer) : cohorts :=
  let cur_v := get0 (ltm c) curr in
  let pre_v := get0 (ltm c) prev in
  let chg := (cur_v - pre_v)%Q in
  let pct := if Qgtb pre_v 0 then (chg / pre_v * 100)%Q else 0%Q in
  if churned c || (Qgtb pre_v 0 && Qeq_bool cur_v 0) then
    {| cohort_churned := cohort_churned acc ++
         [{| churn_kund := kund c; churn_previous := pre_v;
             churn_current := cur_v; churn_change := chg |}];
       cohort_declining := cohort_declining acc;
       cohort_growing := cohort_growing acc;
       cohort_new := cohort_new acc |}
  else if Qeq_bool pre_v 0 && Qgtb cur_v 0 then
    {| cohort_churned := cohort_churned acc;
       cohort_declining := cohort_declining acc;
       cohort_growing := cohort_growing acc;
       cohort_new := cohort_new acc ++ [{| new_kund := kund c; new_current := cur_v |}] |}
  else if Qltb chg 0 then
    {| cohort_churned := cohort_churned acc;
       cohort_declining := cohort_declining acc ++
         [{| move_kund := kund c; move_previous := pre_v; move_current := cur_v;
             move_change := chg; move_pct := pct |}];
       cohort_growing := cohort_growing acc;
       cohort_new := cohort_new acc |}
  else if Qgtb chg 0 then
    {| cohort_churned := cohort_churned acc;
       cohort_declining := cohort_declining acc;
       cohort_growing := cohort_growing acc ++
         [{| move_kund := kund c; move_previous := pre_v; move_current := cur_v;
             move_change := chg; move_pct := pct |}];
       cohort_new := cohort_new acc |}
  else acc.

(** [analyze_cohorts] *)
Definition analyze_cohorts (data : master_data) (curr prev : string) : cohorts :=
  let empty := {| cohort_churned := []; cohort_declining := [];
                  cohort_growing := []; cohort_new := [] |} in
  let filled := foldl (cohort_step curr prev) empty (customers data) in
  {| cohort_churned := sorted_desc_Q churn_previous (cohort_churned filled);
     cohort_declining := sorted_asc_Q move_change (cohort_declining filled);
     cohort_growing := sorted_desc_Q move_change (cohort_growing filled);
     cohort_new := sorted_desc_Q new_current (cohort_new filled) |}.

(** The figures [generate_html] computes for the revenue bridge before it
    fills in its template. *)
Record bridge : Type := {
  total_ltm : Q;
  prev_ltm_val : Q;
  yoy_chg : Q;
  yoy_pct : Q;
  churn_loss : Q;
  decline_loss : Q;
  growth_gain : Q;
  new_gain : Q;
  active : nat
}.

(** The first lines of [generate_html]: the figures of the bridge. *)
Definition bridge_figures (data : master_data) (curr_ltm prev_ltm : string) : bridge :=
  let total_ltm := get0 (ltm_trend data) curr_ltm in
  let prev_ltm_val := get0 (ltm_trend data) prev_ltm in
  let yoy_chg := (total_ltm - prev_ltm_val)%Q in
  let yoy_pct := if Qgtb prev_ltm_val 0 then (yoy_chg / prev_ltm_val * 100)%Q else 0%Q in
  let cohorts := analyze_cohorts data curr_ltm prev_ltm in
  {| total_ltm := total_ltm;
     prev_ltm_val := prev_ltm_val;
     yoy_chg := yoy_chg;
     yoy_pct := yoy_pct;
     churn_loss := py_sum (List.map churn_previous (cohort_churned cohorts));
     decline_loss := Qabs (py_sum (List.map move_change (cohort_declining cohorts)));
     growth_gain := py_sum (List.map move_change (cohort_growing cohorts));
     new_gain := py_sum (List.map new_current (cohort_new cohorts));
     active := length (List.filter (fun c => Qgtb (get0 (ltm c) curr_ltm) 0) (customers data)) |}.

(** ** Sales intelligence with material-movement thresholds (v2) *)

Record sales_customer : Type := {
  sc_kund : string;
  ltm_now : Q;
  ltm_prev : Q;
  change : Q
}.

(** The record [parse_sales_master] appends for a customer row. *)
Definition sales_customer_of (name : string) (now prev : Q) : sales_customer :=
  {| sc_kund := name; ltm_now := now; ltm_prev := prev; change := (now - prev)%Q |}.

Record intelligence : Type := {
  total_now : Q;
  total_prev : Q;
  total_change : Q;
  pct_change : Q;
  intel_active : list sales_customer;
  intel_churned : list sales_customer;
  intel_declining : list sales_customer;
  intel_growing : list sales_customer;
  new_customers : list sales_customer;
  churn_revenue : Q;
  decline_revenue : Q;
  growth_revenue : Q;
  new_revenue : Q;
  top10_pct : Q;
  top20_pct : Q;
  top20 : list sales_customer
}.

(** [analyze_sales_intelligence] *)
Definition analyze_sales_intelligence (custs : list sales_customer) : intelligence :=
  let total_now := py_sum (List.map ltm_now custs) in
  let total_prev := py_sum (List.map ltm_prev custs) in
  let total_change := (total_now - total_prev)%Q in
  let pct_change := if Qgtb total_prev 0 then (total_change / total_prev * 100)%Q else 0%Q in
  let active := List.filter (fun c => Qgtb (ltm_now c) 0) custs in
  let churned := List.filter (fun c => Qgtb (ltm_prev c) 50000 && Qeq_bool (ltm_now c) 0) custs in
  let declining :=
    List.filter (fun c => Qgtb (ltm_prev c) (ltm_now c) && Qgtb (ltm_now c) 0
                          && Qltb (change c) (-20000)) custs in
  let growing := List.filter (fun c => Qgtb (change c) 20000) custs in
  let new_customers :=
    List.filter (fun c => Qeq_bool (ltm_prev c) 0 && Qgtb (ltm_now c) 10000) custs in
  let churn_revenue := py_sum (List.map ltm_prev churned) in
  let decline_revenue := py_sum (List.map (fun c => Qabs (change c)) declining) in
  let growth_revenue := py_sum (List.map change growing) in
  let new_revenue := py_sum (List.map ltm_now new_customers) in
  let sorted_cust := sorted_desc_Q ltm_now active in
  let top10_rev := py_sum (List.map ltm_now (take 10 sorted_cust)) in
  let top20_rev := py_sum (List.map ltm_now (take 20 sorted_cust)) in
  {| total_now := total_now;
     total_prev := total_prev;
     total_change := total_change;
     pct_change := pct_change;
     intel_active := active;
     intel_churned := sorted_desc_Q ltm_prev churned;
     intel_declining := sorted_asc_Q change declining;
     intel_growing := sorted_desc_Q change growing;
     new_customers := sorted_desc_Q ltm_now new_customers;
     churn_revenue := churn_revenue;
     decline_revenue := decline_revenue;
     growth_revenue := growth_revenue;
     new_revenue := new_revenue;
     top10_pct := if Qgtb total_now 0 then (top10_rev / total_now * 100)%Q else 0%Q;
     top20_pct := if Qgtb total_now 0 then (top20_rev / total_now * 100)%Q else 0%Q;
     top20 := take 20 sorted_cust |}.

(** ** Definitions used to state the properties *)

(** [x >= 0] on a float: [inf] is, [nan] is not. *)
Definition py_ge0 (x : pyfloat) : Prop :=
  match x with
  | Finite q => (0 <= q)%Q
  | Infinite negative => negative = false
  | NaN => False
  end.

(** The amount, the currency and the amount in SEK of a row that is
    kept. *)
Definition row_amounts (r : row_outcome order) : option (pyfloat * string * pyfloat) :=
  match r with
  | Skipped => None
  | Kept o => Some (Finite (belopp o), valuta o, Finite (belopp_sek o))
  | KeptNonFinite amt cur sek => Some (amt, cur, sek)
  end.

(** The separator rule in the words of the specification (section 4.1):
    when the text ends with a comma and exactly two digits (the pattern
    [,\d{2}$], whose [$] also stands before one final line feed) the dots
    are thousands separators and go, and the comma is the decimal point;
    otherwise the commas are thousands separators and go. *)
Definition drop_final_line_feed (l : list ascii) : list ascii :=
  match l with
  | c :: r => if Ascii.eqb c Char.line_feed then r else l
  | [] => []
  end.

Definition ends_with_comma_two_digits (s : string) : bool :=
  match drop_final_line_feed (rev (list_ascii_of_string s)) with
  | d2 :: d1 :: c :: _ => Ascii.eqb c "," && Char.is_digit d1 && Char.is_digit d2
  | _ => false
  end.

Definition separator_rule (s : string) : string :=
  if ends_with_comma_two_digits s
  then Str.replace "," "." (Str.remove "." s)
  else Str.remove "," s.

(** Removal of the spaces and non-breaking spaces between digit groups. *)
Definition despace (s : string) : string := Str.remove " " (Str.remove Char.nbsp s).

(** The text the amount parser hands to [float], if its pattern matches. *)
Definition amount_cleaned (raw : string) : option string :=
  match Regex.match_amount raw with
  | Some (g1, _) => Some (separator_rule (despace g1))
  | None => None
  end.

(** The text the plain-number parsers hand to [float]. *)
Definition number_cleaned (raw : string) : string := separator_rule (despace raw).

(** The currency the amount parser reports for a match. *)
Definition currency_of (group2 : option string) : string :=
  match group2 with Some g => Str.upper g | None => "SEK" end.

(** The characters left in an amount text when the separators are
    resolved: digits, dots and white space. *)
Definition plain_char (c : ascii) : bool :=
  Char.is_digit c || Ascii.eqb c "." || Char.is_space c.

(** Case-insensitive match of a candidate with a sheet name. *)
Definition matches_sheet (wb : list worksheet) (candidate : string) : Prop :=
  ∃ n, n ∈ sheetnames wb ∧ Str.lower n = Str.lower candidate.

(** The five cohorts, and the bucket the chain of tests in
    [analyze_cohorts] sends a customer to. *)
Inductive bucket : Type := Churned | Declining | Growing | New | Flat.

Global Instance bucket_eq_dec : EqDecision bucket.
Proof. solve_decision. Defined.

Definition bucket_of (curr prev : string) (c : customer) : bucket :=
  let cur_v := get0 (ltm c) curr in
  let pre_v := get0 (ltm c) prev in
  if churned c || (Qgtb pre_v 0 && Qeq_bool cur_v 0) then Churned
  else if Qeq_bool pre_v 0 && Qgtb cur_v 0 then New
  else if Qltb (cur_v - pre_v) 0 then Declining
  else if Qgtb (cur_v - pre_v) 0 then Growing
  else Flat.

(** The customers of a dataset that fall into a given bucket. *)
Definition in_bucket (b : bucket) (curr prev : string) (cs : list customer) : list customer :=
  List.filter (fun c => bool_decide (bucket_of curr prev c = b)) cs.

(** The customer names of the four lists [analyze_cohorts] returns. *)
Definition bucket_names (r : cohorts) (b : bucket) : list string :=
  match b with
  | Churned => List.map churn_kund (cohort_churned r)
  | Declining => List.map move_kund (cohort_declining r)
  | Growing => List.map move_kund (cohort_growing r)
  | New => List.map new_kund (cohort_new r)
  | Flat => []
  end.

(** The base classification of section 4.5 on a pair of period revenues
    (no churn marker in the v2 master data). *)
Definition base_bucket (prev curr : Q) : bucket :=
  if Qgtb prev 0 && Qeq_bool curr 0 then Churned
  else if Qeq_bool prev 0 && Qgtb curr 0 then New
  else if Qltb (curr - prev) 0 then Declining
  else if Qgtb (curr - prev) 0 then Growing
  else Flat.

(** What a match of [,\d{2}$] looks like, character by character. *)
Definition comma_2digits_suffix (l : list ascii) : Prop :=
  ∃ p d1 d2 tl,
    l = (p ++ ","%char :: d1 :: d2 :: tl)%list
    ∧ Char.is_digit d1 = true ∧ Char.is_digit d2 = true
    ∧ (tl = [] ∨ tl = [Char.line_feed]).

(** The rows [analyze_cohorts] appends for a customer. *)
Definition churn_row_of (curr prev : string) (c : customer) : churn_row :=
  {| churn_kund := kund c;
     churn_previous := get0 (ltm c) prev;
     churn_current := get0 (ltm c) curr;
     churn_change := (get0 (ltm c) curr - get0 (ltm c) prev)%Q |}.

Definition new_row_of (curr : string) (c : customer) : new_row :=
  {| new_kund := kund c; new_current := get0 (ltm c) curr |}.

Definition move_row_of (curr prev : string) (c : customer) : move_row :=
  {| move_kund := kund c;
     move_previous := get0 (ltm c) prev;
     move_current := get0 (ltm c) curr;
     move_change := (get0 (ltm c) curr - get0 (ltm c) prev)%Q;
     move_pct := if Qgtb (get0 (ltm c) prev) 0
                 then ((get0 (ltm c) curr - get0 (ltm c) prev) / get0 (ltm c) prev * 100)%Q
                 else 0%Q |}.

(** The bridge: prior total, less the two losses, plus the two gains. *)
Definition bridge_result (b : bridge) : Q :=
  (prev_ltm_val b - churn_loss b - decline_loss b + growth_gain b + new_gain b)%Q.

(** ** Sample data *)

Module Sample.

Definition str_of_number (_ : Q) : string := "0".
Definition str_of_datetime (_ : Z) : string := "2025-01-01 00:00:00".

Definition day : Z := microseconds_per_day.

Definition blank_sheet (name : string) : worksheet :=
  {| title := name; max_row := 1; cell_value := fun _ _ => CNone |}.

(** An order book with a header and two rows. *)
Definition order_sheet : worksheet :=
  {| title := "Order book";
     max_row := 3;
     cell_value := fun row col =>
       match row, col with
       | 2, 1 => CNum 1001 | 2, 2 => CDate 0 | 2, 3 => CText "Acme"
       | 2, 6 => CText "3.800,50 EUR"
       | 3, 1 => CNum 1002 | 3, 3 => CText "Bolt" | 3, 6 => CText "-120,00 SEK"
       | _, _ => CNone
       end%nat |}.

(** A row with an amount in USD. *)
Definition usd_sheet : worksheet :=
  {| title := "Order book";
     max_row := 2;
     cell_value := fun row col =>
       match row, col with
       | 2, 1 => CNum 1003 | 2, 3 => CText "Acme" | 2, 6 => CText "1000.15 USD"
       | _, _ => CNone
       end%nat |}.

Fixpoint zeros (n : nat) : string :=
  match n with
  | O => EmptyString
  | S k => String "0" (zeros k)
  end.

(** A row whose amount is 1 followed by 309 zeros, in EUR. *)
Definition huge_sheet : worksheet :=
  {| title := "Order book";
     max_row := 2;
     cell_value := fun row col =>
       match row, col with
       | 2, 1 => CNum 1004 | 2, 3 => CText "Acme"
       | 2, 6 => CText (String "1" (zeros 309) +:+ " EUR")
       | _, _ => CNone
       end%nat |}.

Definition an_order (name : string) (date : option Z) (amount : Q) : order :=
  {| ordernr := CNone; orderdatum := date; kundnamn := CText name; status := CNone;
     fakt_status := CText EmptyString; belopp := amount; valuta := "SEK"; belopp_sek := amount |}.

(** [parse_master] stores a period figure only when it is not zero. *)
Definition put (label : string) (v : Q) (m : gmap string Q) : gmap string Q :=
  if Qeq_bool v 0 then m else <[label := v]> m.

(** A customer with one figure per period; it has a fiscal-year or a
    monthly figure, as every customer [parse_master] keeps. *)
Definition a_customer (name : string) (marked : bool) (prev curr : Q) : customer :=
  {| kund := name;
     monthly := put "2025-01" curr ∅;
     fy := put "FY2024" prev ∅;
     ltm := put "LTM 2025" curr (put "LTM 2024" prev ∅);
     churned := marked |}.

Definition dataset (cs : list customer) : master_data :=
  {| articles := []; customers := cs; monthly_totals := ∅; ltm_trend := ltm_trend_of cs |}.

(** A customer lost since the previous period and one that grew. *)
Definition with_churn : master_data :=
  dataset [a_customer "A" false 100 0; a_customer "B" false 50 80].

(** A customer that carries the churn marker and still has revenue. *)
Definition marked_but_active : master_data :=
  dataset [a_customer "A" true 100 50].

Definition mixed : master_data :=
  dataset [a_customer "A" false 100 0; a_customer "B" false 0 70;
           a_customer "C" false 80 60; a_customer "D" false 10 40;
           a_customer "E" false 5 5; a_customer "F" true 30 0].

End Sample.

(** ** Further order book analytics (v2) *)

(** Membership in a set of order numbers. The sets of
    [analyze_week_over_week] are kept as lists of their elements; only
    membership is ever asked of them. *)
Definition id_in (x : cell) (ids : list cell) : bool := existsb (cell_eqb x) ids.

(** [a - b] and [a & b] on such sets. *)
Definition ids_difference (a b : list cell) : list cell :=
  List.filter (fun x => negb (id_in x b)) a.
Definition ids_intersection (a b : list cell) : list cell :=
  List.filter (fun x => id_in x b) a.

Record wow_part : Type := {
  wow_count : nat;
  wow_total : Q;
  wow_orders : list order
}.

Record week_over_week : Type := {
  wow_new : wow_part;
  wow_closed : wow_part;
  wow_unchanged : wow_part;
  net_count : Z;
  net_amount : Q
}.

(** [analyze_week_over_week] *)
Definition analyze_week_over_week (current_orders previous_orders : list order)
  : week_over_week :=
  let current_ids := List.map ordernr current_orders in
  let previous_ids := List.map ordernr previous_orders in
  let new_ids := ids_difference current_ids previous_ids in
  let new_orders := List.filter (fun o => id_in (ordernr o) new_ids) current_orders in
  let closed_ids := ids_difference previous_ids current_ids in
  let closed_orders := List.filter (fun o => id_in (ordernr o) closed_ids) previous_orders in
  let unchanged_ids := ids_intersection current_ids previous_ids in
  let unchanged_orders :=
    List.filter (fun o => id_in (ordernr o) unchanged_ids) current_orders in
  let new_total := py_sum (List.map belopp_sek new_orders) in
  let closed_total := py_sum (List.map belopp_sek closed_orders) in
  let unchanged_total := py_sum (List.map belopp_sek unchanged_orders) in
  {| wow_new := {| wow_count := length new_orders; wow_total := new_total;
                   wow_orders := new_orders |};
     wow_closed := {| wow_count := length closed_orders; wow_total := closed_total;
                      wow_orders := closed_orders |};
     wow_unchanged := {| wow_count := length unchanged_orders;
                         wow_total := unchanged_total;
                         wow_orders := unchanged_orders |};
     net_count := (Z.of_nat (length new_orders) - Z.of_nat (length closed_orders))%Z;
     net_amount := (new_total - closed_total)%Q |}.

(** The default of the [threshold] parameter. *)
Definition default_large_threshold : Q := 100000.

(** [analyze_large_orders] *)
Definition analyze_large_orders (orders : list order) (threshold : Q) : list order :=
  sorted_desc_Q belopp_sek
    (List.filter (fun o => Qgtb (belopp_sek o) threshold) orders).

(** ** The order book loop of v3

    v3 has no [parse_order_book]; its page runs this loop on the sheet
    [find_sheet] returns. *)

Record order_v3 : Type := {
  v3_ordernr : cell;
  v3_orderdatum : option Z;
  v3_kundnamn : cell;
  v3_belopp_sek : Q
}.

Section OrderBookV3.

Variable str_of_number : Q -> string.
Variable str_of_datetime : Z -> string.

(** One turn of the loop. *)
Definition order_row_v3 (ws : worksheet) (fx : gmap string Q) (r : nat)
  : row_outcome order_v3 :=
  match V3.clean_amount str_of_number str_of_datetime (cell_value ws r 6) with
  | None => Skipped
  | Some (amt, cur) =>
      let od := cell_value ws r 2 in
      match to_sek amt (fx_get fx cur) with
      | Finite amount_sek =>
          Kept {| v3_ordernr := cell_value ws r 1;
                  v3_orderdatum := match od with CDate t => Some t | _ => None end;
                  v3_kundnamn := cell_value ws r 3;
                  v3_belopp_sek := amount_sek |}
      | belopp_sek => KeptNonFinite amt cur belopp_sek
      end
  end.

Definition order_rows_v3 (ws : worksheet) (fx : gmap string Q) : option (list order_v3) :=
  collect_orders (List.map (order_row_v3 ws fx) (rows_from_2 (max_row ws))).

End OrderBookV3.

(** ** Sales parsing and the sales report (v2) *)

Record article : Type := {
  artikelnr : string;
  artikelnamn : cell;
  summa : parsed_number;
  antal_ut : parsed_number;
  tb : parsed_number;
  tg : cell
}.

Record customer_sale : Type := {
  sale_kundnr : cell;
  sale_kund : string;
  sale_summa : parsed_number
}.

Definition is_absent (v : parsed_number) : bool :=
  match v with Absent => true | _ => false end.

(** [v == 0] for a result of [clean_number]: only a number can equal 0. *)
Definition equals_zero (v : parsed_number) : bool :=
  match v with
  | Number (Finite q) => Qeq_bool q 0
  | _ => false
  end.

(** [v or 0] for a result of [clean_number]. *)
Definition or_zero (v : parsed_number) : parsed_number :=
  match v with
  | Absent => Number (Finite 0)
  | Number (Finite q) => if Qeq_bool q 0 then Number (Finite 0) else v
  | Number _ => v
  | Literal s => if Str.is_empty s then Number (Finite 0) else v
  end.

Section SalesParsing.

Variable str_of_number : Q -> string.
Variable str_of_datetime : Z -> string.

(** One turn of the loop of [parse_sales_articles]. *)
Definition parse_article_row (ws_raw : worksheet) (row : nat) : option article :=
  let artikelnr := cell_value ws_raw row 1 in
  if is_none artikelnr then None
  else
    let summa := clean_number str_of_number str_of_datetime (cell_value ws_raw row 3) in
    if is_absent summa || equals_zero summa then None
    else
      Some {| artikelnr := Str.strip (py_str str_of_number str_of_datetime artikelnr);
              artikelnamn := cell_value ws_raw row 2;
              summa := summa;
              antal_ut := or_zero (clean_number str_of_number str_of_datetime
                                     (cell_value ws_raw row 6));
              tb := clean_number str_of_number str_of_datetime (cell_value ws_raw row 7);
              tg := cell_value ws_raw row 8 |}.

(** [parse_sales_articles] *)
Definition parse_sales_articles (ws_raw : worksheet) : list article :=
  omap (parse_article_row ws_raw) (rows_from_2 (max_row ws_raw)).

(** One turn of the loop of [parse_sales_customers]. *)
Definition parse_customer_row (ws_raw : worksheet) (row : nat) : option customer_sale :=
  let kund := cell_value ws_raw row 2 in
  if is_none kund then None
  else
    let summa := clean_number str_of_number str_of_datetime (cell_value ws_raw row 4) in
    if is_absent summa || equals_zero summa then None
    else
      Some {| sale_kundnr := cell_value ws_raw row 1;
              sale_kund := Str.strip (py_str str_of_number str_of_datetime kund);
              sale_summa := summa |}.

(** [parse_sales_customers] *)
Definition parse_sales_customers (ws_raw : worksheet) : list customer_sale :=
  omap (parse_customer_row ws_raw) (rows_from_2 (max_row ws_raw)).

(** The sheet name ['Försäljning per artikel'] in Latin-1. *)
Definition article_sales_sheet : string :=
  String "F" (String (ascii_of_N 246) (String "r" (String "s" (String (ascii_of_N 228)
    "ljning per artikel")))).

(** The loop of [load_master_articles] over the rows of the sheet. *)
Definition master_article_ids (ws : worksheet) : gset string :=
  foldl (fun articles row =>
           let art := cell_value ws row 1 in
           if truthy art
           then articles ∪ {[Str.lower (Str.strip (py_str str_of_number str_of_datetime art))]}
           else articles)
        ∅ (rows_from_2 (max_row ws)).

(** [load_master_articles] *)
Definition load_master_articles (wb_master : list worksheet) : result (gset string) :=
  if existsb (String.eqb article_sales_sheet) (sheetnames wb_master)
  then let* ws := getitem wb_master article_sales_sheet in Ok (master_article_ids ws)
  else Ok ∅.

End SalesParsing.

(** Its outcome: the statistics, an exception, or [Unmodelled] when an
    amount is [inf] or [nan], whose arithmetic is outside this model. *)
Inductive outcome (A : Type) : Type :=
| Returned (a : A)
| Raised (e : exn)
| Unmodelled.
Arguments Returned {A} a.
Arguments Raised {A} e.
Arguments Unmodelled {A}.

Definition and_then {A B : Type} (r : outcome A) (k : A -> outcome B) : outcome B :=
  match r with
  | Returned a => k a
  | Raised e => Raised e
  | Unmodelled => Unmodelled
  end.

Notation "'do' x '<-' r ';' k" := (and_then r (fun x => k))
  (at level 10, x pattern, r at level 100, k at level 200).

(** Can the value be added to a number? *)
Definition is_number (v : parsed_number) : bool :=
  match v with Number _ => true | _ => false end.

Definition is_finite (v : parsed_number) : bool :=
  match v with Number (Finite _) => true | _ => false end.

(** The value as a rational, where it is a finite number. *)
Definition amount_key (v : parsed_number) : Q :=
  match v with Number (Finite q) => q | _ => 0%Q end.

(** [sum(...)] over results of [clean_number]: adding a text or [None]
    to a number raises [TypeError]. *)
Definition sum_values (vs : list parsed_number) : outcome Q :=
  if negb (forallb is_number vs) then Raised TypeError
  else if negb (forallb is_finite vs) then Unmodelled
  else Returned (py_sum (List.map amount_key vs)).

(** [x / y] *)
Definition divide (x y : Q) : outcome Q :=
  if Qeq_bool y 0 then Raised ZeroDivisionError else Returned (x / y)%Q.

Record sales_stats : Type := {
  stat_articles : nat;
  stat_customers : nat;
  stat_total : Q;
  top20_art_pct : Q;
  top20_cust_pct : Q;
  new_articles : list article;
  top20_articles : list article;
  top20_customers : list customer_sale
}.

(** openpyxl refuses a text that holds, among its first 32767
    characters, a control character other than tab, line feed and
    carriage return ([ILLEGAL_CHARACTERS_RE]); [ws.cell] then raises
    [IllegalCharacterError].  Numbers, dates and [None] are written as
    they are. *)
Definition illegal_character (c : ascii) : bool :=
  let n := nat_of_ascii c in
  (n <=? 8)%nat || (n =? 11)%nat || (n =? 12)%nat || ((14 <=? n)%nat && (n <=? 31)%nat).

Definition check_string (s : string) : bool :=
  negb (existsb illegal_character (take (N.to_nat 32767) (list_ascii_of_string s))).

Definition cell_writable (c : cell) : bool :=
  match c with CText s => check_string s | _ => true end.

Definition value_writable (v : parsed_number) : bool :=
  match v with Literal s => check_string s | _ => true end.

(** The cells of an article's row on the Articles sheet, and of a
    customer's row on the Customers sheet; the other sheets repeat some
    of them. *)
Definition article_writable (a : article) : bool :=
  check_string (artikelnr a) && cell_writable (artikelnamn a)
  && value_writable (summa a) && value_writable (antal_ut a)
  && value_writable (tb a) && cell_writable (tg a).

Definition customer_writable (c : customer_sale) : bool :=
  cell_writable (sale_kundnr c) && check_string (sale_kund c).

(** [create_sales_output_v2], the figures it computes, the divisions it
    performs and the cells it fills in, in the order of the source.  The
    divisions of the Summary sheet come before any row is written; the
    later ones divide by the same totals.  Writing a row raises nothing
    but [IllegalCharacterError], and every article and every customer is
    written, so it is not kept which row raises first. *)
Definition create_sales_output_v2 (articles : list article) (customers : list customer_sale)
    (master_articles : option (gset string)) : outcome sales_stats :=
  do total_articles <- sum_values (List.map summa articles);
  do total_customers <- sum_values (List.map sale_summa customers);
  let articles_sorted := sorted_desc_Q (fun a => amount_key (summa a)) articles in
  let customers_sorted := sorted_desc_Q (fun c => amount_key (sale_summa c)) customers in
  let top20_articles := take 20 articles_sorted in
  let top20_customers := take 20 customers_sorted in
  do top20_art_sum <- sum_values (List.map summa top20_articles);
  do top20_cust_sum <- sum_values (List.map sale_summa top20_customers);
  (* Summary sheet, 'Top 20 articles:' and 'Top 20 customers:' *)
  do _ <- divide top20_art_sum total_articles;
  do _ <- divide top20_cust_sum total_customers;
  let new_articles :=
    match master_articles with
    | Some master =>
        List.filter (fun a => negb (bool_decide (Str.lower (artikelnr a) ∈ master))) articles
    | None => []
    end in
  (* sheets 'Top 20 Articles' to 'New Articles' *)
  if negb (forallb article_writable articles_sorted
           && forallb customer_writable customers_sorted)
  then Raised IllegalCharacterError
  else
  Returned
    {| stat_articles := length articles;
       stat_customers := length customers;
       stat_total := total_articles;
       top20_art_pct := if Qgtb total_articles 0
                        then (top20_art_sum / total_articles * 100)%Q else 0%Q;
       top20_cust_pct := if Qgtb total_customers 0
                         then (top20_cust_sum / total_customers * 100)%Q else 0%Q;
       new_articles := new_articles;
       top20_articles := top20_articles;
       top20_customers := top20_customers |}.

(** ** Top 20 customers (v3) *)

Record top_customer : Type := {
  top_kund : string;
  top_current : Q;
  top_previous : Q;
  top_change : Q
}.

(** The row [get_top20_cust] appends for a customer with revenue. *)
Definition top_customer_row (curr prev : string) (c : customer) : option top_customer :=
  let cur_v := get0 (ltm c) curr in
  if Qgtb cur_v 0 then
    Some {| top_kund := kund c;
            top_current := cur_v;
            top_previous := get0 (ltm c) prev;
            top_change := (cur_v - get0 (ltm c) prev)%Q |}
  else None.

(** [get_top20_cust] *)
Definition get_top20_cust (data : master_data) (curr prev : string) : list top_customer :=
  take 20 (sorted_desc_Q top_current (omap (top_customer_row curr prev) (customers data))).

(** ** The dashboard (v3) *)

Record top_article : Type := {
  top_artikelnr : string;
  top_artikelnamn : cell;
  top_value : Q
}.

Definition top_article_row (ltm_key : string) (a : master_article) : option top_article :=
  let v := get0 (art_ltm a) ltm_key in
  if Qgtb v 0 then
    Some {| top_artikelnr := art_artikelnr a;
            top_artikelnamn := art_artikelnamn a;
            top_value := v |}
  else None.

(** [get_top20_art] *)
Definition get_top20_art (data : master_data) (ltm_key : string) : list top_article :=
  take 20 (sorted_desc_Q top_value (omap (top_article_row ltm_key) (articles data))).

(** [sorted(d.keys())] *)
Definition sorted_keys (d : gmap string Q) : list string :=
  py_sorted String.ltb (List.map fst (map_to_list d)).

(** [l[-n:]] *)
Definition last_n {A : Type} (n : nat) (l : list A) : list A := drop (length l - n) l.

(** The month of ['%Y-%m']: [1[0-2]|0[1-9]|[1-9]], up to the end of the
    text. *)
Definition is_month (l : list ascii) : bool :=
  match l with
  | [d] => Char.is_digit d && negb (Ascii.eqb d "0")
  | [d1; d2] =>
      (Ascii.eqb d1 "1" && (Ascii.eqb d2 "0" || Ascii.eqb d2 "1" || Ascii.eqb d2 "2"))
      || (Ascii.eqb d1 "0" && Char.is_digit d2 && negb (Ascii.eqb d2 "0"))
  | _ => false
  end.

(** Does [datetime.strptime(m, '%Y-%m')] return?  It wants four digits,
    a dash and a month, and refuses the year 0000. *)
Definition is_year_month (m : string) : bool :=
  match list_ascii_of_string m with
  | y1 :: y2 :: y3 :: y4 :: dash :: month =>
      Char.is_digit y1 && Char.is_digit y2 && Char.is_digit y3 && Char.is_digit y4
      && negb (Ascii.eqb y1 "0" && Ascii.eqb y2 "0" && Ascii.eqb y3 "0" && Ascii.eqb y4 "0")
      && Ascii.eqb dash "-" && is_month month
  | _ => false
  end.

(** [(name or "")[:40]] raises on a name that is a number other than
    zero or a date. *)
Definition is_sliceable (name : cell) : bool :=
  match name with
  | CNum q => Qeq_bool q 0
  | CDate _ => false
  | CNone | CText _ => true
  end.

(** [generate_html]: the page is returned when nothing raises on the
    way.  The fields of the template are evaluated from left to right. *)
Definition generate_html (data : master_data) (curr_ltm prev_ltm : string) : result bridge :=
  let figures := bridge_figures data curr_ltm prev_ltm in
  let cohorts := analyze_cohorts data curr_ltm prev_ltm in
  let top20_cust := get_top20_cust data curr_ltm prev_ltm in
  let top20_art := get_top20_art data curr_ltm in
  let months := last_n 24 (sorted_keys (monthly_totals data)) in
  (* m_labels: strptime on every month *)
  if negb (forallb is_year_month months) then Raise ValueError
  else
    (* the rows of the churned customers: each is built as a set that
       holds a dict *)
    match cohort_churned cohorts with
    | _ :: _ => Raise TypeError
    | [] =>
        (* top_cust_rows: c["current"] / total_ltm *)
        let* _ := match top20_cust with
                  | _ :: _ => if Qeq_bool (total_ltm figures) 0
                              then Raise ZeroDivisionError else Ok tt
                  | [] => Ok tt
                  end in
        (* the share of the top articles: sum(...) / total_ltm *)
        let* _ := if Qeq_bool (total_ltm figures) 0
                  then Raise ZeroDivisionError else Ok tt in
        (* top_art_rows: (a["artikelnamn"] or "")[:40] *)
        if forallb (fun a => is_sliceable (top_artikelnamn a)) (take 10 top20_art)
        then Ok figures
        else Raise TypeError
    end.

(** ** Definitions used to state the further properties *)

(** The four currency codes. *)
Definition known_currency (cur : string) : Prop :=
  cur = "SEK" ∨ cur = "EUR" ∨ cur = "USD" ∨ cur = "GBP".

(** The sum of the entries of a totals dictionary whose key equals [k]. *)
Definition total_for (k : cell) (d : list (cell * Q)) : Q :=
  py_sum (List.map snd (List.filter (fun e => cell_eqb (fst e) k) d)).

(** No two entries of a totals dictionary have equal keys. *)
Definition distinct_keys (d : list (cell * Q)) : Prop :=
  ForallOrdPairs (fun a b => cell_eqb (fst a) (fst b) = false) d.

(** The amounts of the orders of one customer. *)
Definition amounts_of (k : cell) (orders : list order) : list Q :=
  List.map belopp_sek (List.filter (fun o => cell_eqb (kundnamn o) k) orders).

(** What the loop of v3 keeps of an order of v2. *)
Definition to_v3 (o : order) : order_v3 :=
  {| v3_ordernr := ordernr o;
     v3_orderdatum := orderdatum o;
     v3_kundnamn := kundnamn o;
     v3_belopp_sek := belopp_sek o |}.

(** The percentage in an entry of the top-5 report. *)
Definition share_of (e : cell * Q * Q) : Q := snd e.

(** The amount of an article and of a customer of the sales report, as a
    rational. *)
Definition article_amount (a : article) : Q := amount_key (summa a).
Definition sale_amount (c : customer_sale) : Q := amount_key (sale_summa c).

(** Every amount is a finite number. *)
Definition finite_amounts (vs : list parsed_number) : Prop :=
  forallb is_finite vs = true.

Definition articles_total (articles : list article) : Q :=
  py_sum (List.map article_amount articles).
Definition customers_total (customers : list customer_sale) : Q :=
  py_sum (List.map sale_amount customers).

(** The customers with revenue in a period. *)
Definition with_revenue (curr : string) (cs : list customer) : list customer :=
  List.filter (fun c => Qgtb (get0 (ltm c) curr) 0) cs.

(** ** More sample data *)

Module Fixture.

Definition sales_sheet : worksheet :=
  {| title := "Article";
     max_row := 4;
     cell_value := fun row col =>
       match row, col with
       | 2, 1 => CText " A-100 " | 2, 2 => CText "Bolt" | 2, 3 => CText "1 250,00"
       | 2, 6 => CText "n/a"
       | 3, 1 => CText "B-200" | 3, 3 => CText "abc"
       | 4, 1 => CText "C-300" | 4, 3 => CText "0,00"
       | _, _ => CNone
       end%nat |}.

Definition master_sheet : worksheet :=
  {| title := article_sales_sheet;
     max_row := 3;
     cell_value := fun row col =>
       match row, col with
       | 2, 1 => CText "a-100" | 3, 1 => CText "Z-900"
       | _, _ => CNone
       end%nat |}.

Definition an_article (nr : string) (amount : Q) : article :=
  {| artikelnr := nr; artikelnamn := CNone; summa := Number (Finite amount);
     antal_ut := Number (Finite 0); tb := Absent; tg := CNone |}.

Definition a_sale (name : string) (amount : Q) : customer_sale :=
  {| sale_kundnr := CNone; sale_kund := name; sale_summa := Number (Finite amount) |}.

Definition a_numbered_order (nr : Z) (amount : Q) : order :=
  {| ordernr := CNum (inject_Z nr); orderdatum := None; kundnamn := CText "Acme";
     status := CNone; fakt_status := CText EmptyString; belopp := amount;
     valuta := "SEK"; belopp_sek := amount |}.

End Fixture.

(** * Properties *)

Local Close Scope string_scope.

(** ** The pattern [,\d{2}$] and the separator rule *)

Section SeparatorRule.

Local Abbreviation chars := list_ascii_of_string.

Lemma at_end_spec s :
  Regex.at_end s = true ↔ chars s = [] ∨ chars s = [Char.line_feed].
Proof.
  destruct s as [|c [|c' s]]; simpl.
  - split; [by left | done].
  - rewrite Ascii.eqb_eq. split.
    + intros ->. by right.
    + intros [?|[= ->]]; [done | reflexivity].
  - split; [done | by intros [?|?]].
Qed.

Lemma search_suffix s :
  Regex.search_comma_2digits_end s = true ↔ comma_2digits_suffix (chars s).
Proof.
  induction s as [|c s IH]; simpl.
  - split; [done |]. intros (p & d1 & d2 & tl & H & _). by destruct p.
  - rewrite orb_true_iff, IH. split.
    + intros [H | (p & d1 & d2 & tl & -> & ?)].
      * apply andb_true_iff in H as [Hc H]. apply Ascii.eqb_eq in Hc as ->.
        destruct s as [|d1 [|d2 tl]]; try done.
        apply andb_true_iff in H as [H Hend]. apply andb_true_iff in H as [H1 H2].
        exists [], d1, d2, (chars tl). simpl. split_and!; try done.
        by apply at_end_spec.
      * exists (c :: p), d1, d2, tl. by simpl.
    + intros (p & d1 & d2 & tl & H & H1 & H2 & Hend).
      destruct p as [|c' p]; simpl in H.
      * left. injection H as -> H. rewrite Ascii.eqb_refl. simpl.
        destruct s as [|e1 [|e2 tl']]; simpl in H; try done.
        injection H as -> -> H. rewrite H1, H2. simpl.
        apply at_end_spec. by rewrite H.
      * right. injection H as -> H. by exists p, d1, d2, tl.
Qed.

Lemma digit_not_line_feed d : Char.is_digit d = true → Ascii.eqb d Char.line_feed = false.
Proof.
  intros H. destruct (Ascii.eqb_spec d Char.line_feed) as [->|]; [|done].
  by vm_compute in H.
Qed.

Lemma ends_with_suffix s :
  ends_with_comma_two_digits s = true ↔ comma_2digits_suffix (chars s).
Proof.
  unfold ends_with_comma_two_digits, drop_final_line_feed. split.
  - intros H.
    destruct (rev (chars s)) as [|c r] eqn:Hrev; [done |].
    destruct (Ascii.eqb_spec c Char.line_feed) as [->|Hc].
    + destruct r as [|d2 [|d1 [|c0 rest]]]; try done.
      apply andb_true_iff in H as [H H2]. apply andb_true_iff in H as [H0 H1].
      apply Ascii.eqb_eq in H0 as ->.
      exists (rev rest), d1, d2, [Char.line_feed]. split_and!; auto.
      rewrite <- (rev_involutive (chars s)), Hrev. simpl.
      by rewrite <- !app_assoc.
    + destruct r as [|d1 [|c0 rest]]; try done.
      apply andb_true_iff in H as [H H2]. apply andb_true_iff in H as [H0 H1].
      apply Ascii.eqb_eq in H0 as ->.
      exists (rev rest), d1, c, []. split_and!; auto.
      rewrite <- (rev_involutive (chars s)), Hrev. simpl.
      by rewrite <- !app_assoc.
  - intros (p & d1 & d2 & tl & -> & H1 & H2 & [-> | ->]).
    + rewrite rev_app_distr. simpl.
      rewrite (digit_not_line_feed _ H2). by rewrite H1, H2.
    + rewrite rev_app_distr. simpl.
      by rewrite H1, H2.
Qed.

(** The search of the code and the wording of the specification agree. *)
Lemma search_is_ends_with s :
  Regex.search_comma_2digits_end s = ends_with_comma_two_digits s.
Proof.
  apply eq_true_iff_eq. by rewrite search_suffix, ends_with_suffix.
Qed.

Lemma chars_append a b : chars (a +:+ b) = chars a ++ chars b.
Proof. induction a as [|c a IH]; simpl; [done | by rewrite IH]. Qed.

Lemma chars_inj a b : chars a = chars b → a = b.
Proof.
  intros H. by rewrite <- (string_of_list_ascii_of_string a),
    <- (string_of_list_ascii_of_string b), H.
Qed.

Lemma last_chars s l c : chars s = l ++ [c] → Str.last s = Some c.
Proof.
  revert l. induction s as [|x s IH]; intros l H; simpl in H.
  - by destruct l.
  - destruct l as [|y l]; simpl in H.
    + injection H as -> H. by destruct s.
    + injection H as -> H. simpl. rewrite (IH l H). destruct s; [by destruct l | done].
Qed.

(** On a text that does not end in a line feed the pattern holds
    exactly when the text ends with a comma and two digits. *)
Lemma ends_with_literal s :
  Str.last s ≠ Some Char.line_feed →
  ends_with_comma_two_digits s = true ↔
  ∃ p d1 d2, s = p +:+ String "," (String d1 (String d2 EmptyString))
             ∧ Char.is_digit d1 = true ∧ Char.is_digit d2 = true.
Proof.
  intros Hlast. rewrite ends_with_suffix. split.
  - intros (p & d1 & d2 & tl & H & H1 & H2 & [-> | ->]).
    + exists (string_of_list_ascii p), d1, d2. split; [|done].
      apply chars_inj. by rewrite chars_append, list_ascii_of_string_of_list_ascii.
    + destruct Hlast. apply (last_chars s (p ++ [","%char; d1; d2])).
      by rewrite <- app_assoc.
  - intros (p & d1 & d2 & -> & H1 & H2).
    exists (chars p), d1, d2, []. rewrite chars_append. split_and!; auto.
Qed.

Lemma last_rstrip s c : Str.last (Str.rstrip s) = Some c → Char.is_space c = false.
Proof.
  induction s as [|x s IH]; simpl; [done |].
  destruct (Str.rstrip s) as [|y r] eqn:E.
  - destruct (Char.is_space x) eqn:Hx; simpl; [done | by intros [= <-]].
  - intros H. apply IH. exact H.
Qed.

Lemma last_remove x s c :
  Str.last s = Some c → Ascii.eqb c x = false → Str.last (Str.remove x s) = Some c.
Proof.
  intros H Hc. induction s as [|y s IH]; simpl in *; [done |].
  destruct s as [|z s].
  - injection H as ->. simpl. by rewrite Hc.
  - specialize (IH H). destruct (Ascii.eqb y x); [done |].
    change (Str.last (String y (Str.remove x (String z s))) = Some c).
    set (r := Str.remove x (String z s)) in *. clearbody r.
    destruct r; [done | exact IH].
Qed.

Lemma last_none s : Str.last s = None → s = EmptyString.
Proof.
  induction s as [|x s IH]; simpl; [done |].
  destruct s; [done |]. intros H. by specialize (IH H).
Qed.

(** A trimmed text that lost its spaces does not end in white space, in
    particular not in a line feed. *)
Lemma despace_strip_last raw : Str.last (despace (Str.strip raw)) ≠ Some Char.line_feed.
Proof.
  unfold despace, Str.strip. set (t := Str.rstrip _).
  destruct (Str.last t) as [c|] eqn:Hl.
  - pose proof (last_rstrip _ _ Hl) as Hc.
    destruct (Ascii.eqb c Char.nbsp) eqn:E1; [apply Ascii.eqb_eq in E1; by subst c |].
    destruct (Ascii.eqb c " ") eqn:E2; [apply Ascii.eqb_eq in E2; by subst c |].
    rewrite (last_remove _ _ c (last_remove _ _ c Hl E1) E2).
    intros [= ->]. by vm_compute in Hc.
  - by rewrite (last_none _ Hl).
Qed.

End SeparatorRule.

(** ** Facts about strings *)

Lemma span_all p s : Str.forallb p s = true → Str.span p s = (s, EmptyString).
Proof.
  induction s as [|c s IH]; simpl; [done |].
  intros [Hc Hs]%andb_true_iff. by rewrite Hc, (IH Hs).
Qed.

Lemma span_prefix_forall p s a b : Str.span p s = (a, b) → Str.forallb p a = true.
Proof.
  revert a b. induction s as [|c s IH]; simpl; intros a b.
  - by intros [= <- <-].
  - destruct (p c) eqn:Hc.
    + destruct (Str.span p s) as [a' b'] eqn:Hs. intros [= <- <-]. simpl.
      rewrite Hc. simpl. by eapply IH.
    + by intros [= <- <-].
Qed.

Lemma forallb_last p s c : Str.forallb p s = true → Str.last s = Some c → p c = true.
Proof.
  induction s as [|x s IH]; simpl; [done |].
  intros [Hx Hs]%andb_true_iff. destruct s; [by intros [= <-] | by apply IH].
Qed.

Lemma forallb_remove p c s : Str.forallb p s = true → Str.forallb p (Str.remove c s) = true.
Proof.
  induction s as [|x s IH]; simpl; [done |].
  intros [Hx Hs]%andb_true_iff. destruct (Ascii.eqb x c); simpl; [auto |].
  rewrite Hx. simpl. auto.
Qed.

Lemma forallb_impl (p q : ascii → bool) s :
  (∀ c, p c = true → q c = true) → Str.forallb p s = true → Str.forallb q s = true.
Proof.
  intros Hpq. induction s as [|x s IH]; simpl; [done |].
  intros [Hx Hs]%andb_true_iff. rewrite (Hpq _ Hx). simpl. auto.
Qed.

Lemma forallb_map p f s :
  Str.forallb p (Str.map f s) = Str.forallb (fun c => p (f c)) s.
Proof. induction s as [|x s IH]; simpl; [done | by rewrite IH]. Qed.

Lemma forallb_remove_gone p c s :
  Str.forallb p s = true →
  Str.forallb (fun x => p x && negb (Ascii.eqb x c)) (Str.remove c s) = true.
Proof.
  induction s as [|x s IH]; simpl; [done |].
  intros [Hx Hs]%andb_true_iff. destruct (Ascii.eqb x c) eqn:E; simpl; [auto |].
  rewrite Hx, E. simpl. auto.
Qed.

Lemma is_sentinel_cases s :
  is_sentinel s = true → s = EmptyString ∨ s = "n/a"%string ∨ s = "None"%string ∨ s = "-"%string.
Proof.
  unfold is_sentinel. rewrite !orb_true_iff, !String.eqb_eq. tauto.
Qed.

Lemma sentinel_no_match s : is_sentinel s = true → Regex.match_amount s = None.
Proof. intros [-> | [-> | [-> | ->]]]%is_sentinel_cases; reflexivity. Qed.

Lemma sentinel_no_percent s : is_sentinel s = true → Str.endswith "%" s = false.
Proof. intros [-> | [-> | [-> | ->]]]%is_sentinel_cases; reflexivity. Qed.

(** ** The cleaners *)

Section CleanerProperties.

Variable str_of_number : Q → string.
Variable str_of_datetime : Z → string.

Local Abbreviation amount_of := (clean_amount_with_currency str_of_number str_of_datetime).
Local Abbreviation number_of := (clean_number str_of_number str_of_datetime).
Local Abbreviation text_of := (py_str str_of_number str_of_datetime).

(** The amount parser is: match the pattern, apply the separator rule
    to the despaced number part, hand the result to [float]. *)
Lemma clean_amount_rule raw_value :
  raw_value ≠ CNone →
  amount_of raw_value =
    match Regex.match_amount (Str.strip (text_of raw_value)) with
    | Some (g1, g2) =>
        option_map (fun x => (x, currency_of g2))
                   (Float.py_float (separator_rule (despace g1)))
    | None => None
    end.
Proof.
  intros Hn. unfold clean_amount_with_currency.
  destruct raw_value; try done; simpl;
    (destruct (Regex.match_amount _) as [[g1 g2]|]; [|done]);
    rewrite search_is_ends_with; fold (despace g1); fold (separator_rule (despace g1));
    by destruct (Float.py_float _).
Qed.

(** The plain-number parser applies the same rule to the whole text. *)
Lemma clean_number_rule raw_value :
  raw_value ≠ CNone →
  number_of raw_value =
    let raw := Str.strip (text_of raw_value) in
    if Str.endswith "%" raw then Literal raw
    else if is_sentinel raw then Absent
    else match Float.py_float (separator_rule (despace raw)) with
         | Some x => Number x
         | None => Literal raw
         end.
Proof.
  intros Hn. unfold clean_number.
  destruct raw_value; try done; simpl;
    (destruct (Str.endswith _ _); [done |]);
    (destruct (is_sentinel _); [done |]);
    rewrite search_is_ends_with; reflexivity.
Qed.

Lemma v3_clean_amount_same raw :
  V3.clean_amount str_of_number str_of_datetime raw = amount_of raw.
Proof. reflexivity. Qed.

Lemma v3_clean_num_rule raw_value :
  raw_value ≠ CNone →
  V3.clean_num str_of_number str_of_datetime raw_value =
    let raw := Str.strip (text_of raw_value) in
    if is_sentinel raw then V3.CleanNone
    else match Float.py_float (separator_rule (despace raw)) with
         | Some x => V3.CleanFloat x
         | None => V3.CleanRaw raw_value
         end.
Proof.
  intros Hn. unfold V3.clean_num.
  destruct raw_value; try done; simpl;
    (destruct (is_sentinel _); [done |]);
    rewrite search_is_ends_with; reflexivity.
Qed.

(** A text made of pattern characters only is matched whole, with no
    currency, and is neither a percentage nor a sentinel. *)
Lemma match_amount_whole s :
  Str.forallb Regex.amount_char s = true → s ≠ EmptyString →
  Regex.match_amount s = Some (s, None)
  ∧ Str.endswith "%" s = false ∧ is_sentinel s = false.
Proof.
  intros Hall Hne. split_and!.
  - unfold Regex.match_amount. rewrite (span_all _ _ Hall). by destruct s.
  - unfold Str.endswith. destruct (Str.last s) as [c|] eqn:Hl; [|done].
    pose proof (forallb_last _ _ _ Hall Hl) as Hc.
    destruct (Ascii.eqb_spec c "%") as [->|]; [by vm_compute in Hc | done].
  - destruct (is_sentinel s) eqn:Hs; [|done].
    apply is_sentinel_cases in Hs as [-> | [-> | [-> | ->]]]; by vm_compute in Hall.
Qed.

(** C1. Both numeric parsers resolve the separators by the same rule:
    when the cleaned text ends with a comma and exactly two digits the
    dots are dropped and the comma is the decimal point, otherwise the
    commas are dropped and a dot stays the decimal point.  The amount
    parser applies it to the despaced number part of its match, the
    plain-number parser to the despaced text.  The test is the pattern
    [,\d{2}$]: on a text that does not end in a line feed, as the
    plain-number parser's never does, it says literally that the text
    ends with a comma and two digits.  On a text that consists of number
    characters only both parsers therefore read the same number, and
    "3 800,50" is 3800.50, "5,211.00" is 5211.00 for both. *)
Theorem separator_rule_applied_identically :
  (∀ raw : string,
      amount_of (CText raw) =
        match Regex.match_amount (Str.strip raw) with
        | Some (g1, g2) =>
            option_map (fun x => (x, currency_of g2))
                       (Float.py_float (separator_rule (despace g1)))
        | None => None
        end)
  ∧ (∀ raw : string,
      number_of (CText raw) =
        let r := Str.strip raw in
        if Str.endswith "%" r then Literal r
        else if is_sentinel r then Absent
        else match Float.py_float (separator_rule (despace r)) with
             | Some x => Number x
             | None => Literal r
             end)
  ∧ (∀ s : string,
      Str.last s ≠ Some Char.line_feed →
      ends_with_comma_two_digits s = true ↔
      ∃ p d1 d2, s = p +:+ String "," (String d1 (String d2 EmptyString))
                 ∧ Char.is_digit d1 = true ∧ Char.is_digit d2 = true)
  ∧ (∀ raw : string, Str.last (despace (Str.strip raw)) ≠ Some Char.line_feed)
  ∧ (∀ (raw : string) (x : pyfloat),
      Str.forallb Regex.amount_char (Str.strip raw) = true →
      Str.strip raw ≠ EmptyString →
      amount_of (CText raw) = Some (x, "SEK"%string) ↔ number_of (CText raw) = Number x)
  ∧ amount_of (CText "3 800,50") = Some (Finite 3800.50, "SEK"%string)
  ∧ number_of (CText "3 800,50") = Number (Finite 3800.50)
  ∧ amount_of (CText "5,211.00") = Some (Finite 5211.00, "SEK"%string)
  ∧ number_of (CText "5,211.00") = Number (Finite 5211.00)
  ∧ amount_of (CText "3.800,50 EUR") = Some (Finite 3800.50, "EUR"%string).
Proof.
  split_and!; try reflexivity.
  - intros raw. by apply clean_amount_rule.
  - intros raw. by apply clean_number_rule.
  - apply ends_with_literal.
  - apply despace_strip_last.
  - intros raw x Hall Hne.
    rewrite clean_amount_rule, clean_number_rule by done. simpl.
    destruct (match_amount_whole _ Hall Hne) as (-> & -> & ->). simpl.
    destruct (Float.py_float _) as [y|]; simpl; [|done].
    split; [by intros [= ->] | by intros [= ->]].
Qed.

End CleanerProperties.

(** ** Rounding *)

Section Rounding.

Local Open Scope Q_scope.

Lemma Qltb_lt x y : Qltb x y = true ↔ x < y.
Proof.
  unfold Qltb. rewrite negb_true_iff, <- not_true_iff_false, Qle_bool_iff.
  split; [apply Qnot_le_lt | apply Qlt_not_le].
Qed.

Lemma Qgtb_gt x y : Qgtb x y = true ↔ y < x.
Proof. apply Qltb_lt. Qed.

Lemma Qltb_ge x y : Qltb x y = false ↔ y <= x.
Proof.
  unfold Qltb. rewrite negb_false_iff. apply Qle_bool_iff.
Qed.

Lemma Qgtb_le x y : Qgtb x y = false ↔ x <= y.
Proof. apply Qltb_ge. Qed.

Lemma Qeq_bool_false x y : Qeq_bool x y = false ↔ ¬ x == y.
Proof. by rewrite <- not_true_iff_false, Qeq_bool_iff. Qed.

Lemma round_half_even_bounds q :
  inject_Z (Qfloor q) <= inject_Z (round_half_even q) <= inject_Z (Qfloor q) + 1
  ∧ Qabs (inject_Z (round_half_even q) - q) <= 1 # 2.
Proof.
  pose proof (Qfloor_le q) as Hlo. pose proof (Qlt_floor q) as Hhi.
  rewrite inject_Z_plus in Hhi. change (inject_Z 1) with 1 in Hhi.
  unfold round_half_even.
  destruct (Qltb _ _) eqn:H1; [apply Qltb_lt in H1 | apply Qltb_ge in H1].
  - split; [lra |]. apply Qabs_case; intros; lra.
  - destruct (Qltb (1 # 2) _) eqn:H2; [apply Qltb_lt in H2 | apply Qltb_ge in H2].
    + rewrite inject_Z_plus. change (inject_Z 1) with 1.
      split; [lra |]. apply Qabs_case; intros; lra.
    + destruct (Z.even _).
      * split; [lra |]. apply Qabs_case; intros; lra.
      * rewrite inject_Z_plus. change (inject_Z 1) with 1.
        split; [lra |]. apply Qabs_case; intros; lra.
Qed.

Lemma round_half_even_nonneg q : 0 <= q → (0 <= round_half_even q)%Z.
Proof.
  intros Hq. destruct (round_half_even_bounds q) as [[H _] _].
  rewrite <- Zle_Qle in H. etransitivity; [|exact H].
  change 0%Z with (Qfloor 0). by apply Qfloor_resp_le.
Qed.

Lemma pow2_pos e : 0 < Binary64.pow2 e.
Proof. by apply Qpower_0_lt. Qed.

Lemma pow2_plus a b : Binary64.pow2 (a + b) == Binary64.pow2 a * Binary64.pow2 b.
Proof. by apply Qpower_plus. Qed.

Lemma pow2_of_Z n : (0 <= n)%Z → Binary64.pow2 n == inject_Z (2 ^ n).
Proof. intros Hn. unfold Binary64.pow2. by rewrite Zpower_Qpower. Qed.

(** [ilog2 q] is not above the binary exponent of [q]. *)
Lemma ilog2_lower q : ¬ q == 0 → Binary64.pow2 (Binary64.ilog2 q) <= Qabs q.
Proof.
  intros Hq. unfold Binary64.ilog2.
  set (n := Z.abs (Qnum q)). set (d := Zpos (Qden q)).
  destruct (Qle_bool _ _) eqn:E; [by apply Qle_bool_iff |]. clear E.
  assert (0 < n)%Z as Hn.
  { unfold n. destruct q as [[|k|k] dq]; simpl; [|lia|lia].
    exfalso. apply Hq. reflexivity. }
  assert (Qabs q == inject_Z n / inject_Z d) as ->.
  { destruct q as [k dq]. unfold n, d. simpl. apply Qmake_Qdiv. }
  assert (0 < inject_Z d) as Hd by (unfold d; reflexivity).
  apply Qle_shift_div_l; [exact Hd |].
  pose proof (Z.log2_spec n Hn) as [Hlo _].
  pose proof (Z.log2_spec d eq_refl) as [_ Hhi].
  pose proof (Z.log2_nonneg n) as Hn0. pose proof (Z.log2_nonneg d) as Hd0.
  apply Qle_trans with (Binary64.pow2 (Z.log2 n - Z.log2 d - 1)
                        * Binary64.pow2 (Z.succ (Z.log2 d))).
  - apply Qmult_le_l; [apply pow2_pos |].
    rewrite pow2_of_Z by lia. rewrite <- Zle_Qle. lia.
  - rewrite <- pow2_plus.
    replace (Z.log2 n - Z.log2 d - 1 + Z.succ (Z.log2 d))%Z with (Z.log2 n) by lia.
    rewrite pow2_of_Z by lia. by rewrite <- Zle_Qle.
Qed.

(** The rounded value is at most half a unit in the last place away. *)
Lemma round_error q v :
  Binary64.round q = Finite v →
  Qabs (v - q) <= (1 # 2) * Binary64.pow2 (Binary64.ulp_exponent q).
Proof.
  assert (0 <= (1 # 2) * Binary64.pow2 (Binary64.ulp_exponent q)) as H0.
  { pose proof (pow2_pos (Binary64.ulp_exponent q)). lra. }
  assert (Qabs (q - q) <= (1 # 2) * Binary64.pow2 (Binary64.ulp_exponent q)) as Hsame.
  { assert (q - q == 0) as -> by ring. exact H0. }
  unfold Binary64.round. destruct (Qeq_bool q 0); [by intros [= <-] |].
  set (P := Binary64.pow2 (Binary64.ulp_exponent q)) in *.
  destruct (Qle_bool _ _); [done |].
  destruct (Qeq_bool _ q); intros [= <-]; [exact Hsame |].
  pose proof (pow2_pos (Binary64.ulp_exponent q)) as HP. fold P in HP.
  destruct (round_half_even_bounds (q / P)) as [_ Hr].
  set (m := inject_Z (round_half_even (q / P))) in *.
  assert (q == q / P * P) as Hq by (field; lra).
  set (t := q / P) in *. clearbody t m.
  apply Qabs_Qle_condition in Hr as [Hlo Hhi]. apply Qabs_Qle_condition.
  assert (m * P - q == (m - t) * P) as -> by (rewrite Hq at 1; ring).
  split.
  - assert (- ((1 # 2) * P) == (- (1 # 2)) * P) as -> by ring.
    by apply Qmult_le_compat_r; [|lra].
  - by apply Qmult_le_compat_r; [|lra].
Qed.

(** Relative to [q] the error is at most [2^-53], but for the floats
    next to zero, whose last place is [2^-1074]. *)
Lemma round_relative_error q v :
  Binary64.round q = Finite v →
  Qabs (v - q) <= Binary64.pow2 (-53) * Qabs q + Binary64.pow2 (-1075).
Proof.
  intros Hv.
  destruct (Qeq_dec q 0) as [Hz | Hnz].
  { unfold Binary64.round in Hv.
    rewrite (proj2 (Qeq_bool_iff q 0) Hz) in Hv. injection Hv as <-.
    assert (q - q == 0) as -> by ring. rewrite Hz. by vm_compute. }
  apply Qle_trans with (1 := round_error q v Hv).
  pose proof (ilog2_lower q Hnz) as Hl. pose proof (Qabs_nonneg q) as Ha.
  unfold Binary64.ulp_exponent.
  destruct (Z.max_spec (Binary64.ilog2 q - 52) (-1074)) as [[_ ->] | [_ ->]].
  - assert ((1 # 2) * Binary64.pow2 (-1074) == Binary64.pow2 (-1075)) as ->
      by (by vm_compute).
    assert (0 <= Binary64.pow2 (-53) * Qabs q)
      by (apply Qmult_le_0_compat; [by vm_compute | exact Ha]).
    lra.
  - replace (Binary64.ilog2 q - 52)%Z with (Binary64.ilog2 q + -52)%Z by lia.
    rewrite pow2_plus.
    assert ((1 # 2) * (Binary64.pow2 (Binary64.ilog2 q) * Binary64.pow2 (-52))
            == Binary64.pow2 (-53) * Binary64.pow2 (Binary64.ilog2 q)) as ->.
    { assert (Binary64.pow2 (-53) == (1 # 2) * Binary64.pow2 (-52)) as ->
        by (by vm_compute). ring. }
    assert (Binary64.pow2 (-53) * Binary64.pow2 (Binary64.ilog2 q)
            <= Binary64.pow2 (-53) * Qabs q).
    { apply Qmult_le_l; [by vm_compute | exact Hl]. }
    assert (0 <= Binary64.pow2 (-1075)) by (by vm_compute). lra.
Qed.

(** Rounding keeps a number that is not negative so. *)
Lemma round_ge0 q : 0 <= q → py_ge0 (Binary64.round q).
Proof.
  intros Hq. unfold Binary64.round. destruct (Qeq_bool q 0); [exact Hq |].
  assert (Qltb q 0 = false) as Hs by (by apply Qltb_ge).
  destruct (Qle_bool _ _); [exact Hs |].
  destruct (Qeq_bool _ q); [exact Hq |]. simpl.
  pose proof (pow2_pos (Binary64.ulp_exponent q)) as HP.
  apply Qmult_le_0_compat; [|lra].
  change 0 with (inject_Z 0). rewrite <- Zle_Qle. apply round_half_even_nonneg.
  apply Qle_shift_div_l; [exact HP | lra].
Qed.

Lemma round_not_nan q : Binary64.round q ≠ NaN.
Proof.
  unfold Binary64.round. destruct (Qeq_bool q 0); [done |].
  destruct (Qle_bool _ _); [done |]. by destruct (Qeq_bool _ q).
Qed.

(** The product of a number that is not negative and a rate that is not
    negative is not negative, or [nan]: an infinity times zero. *)
Lemma mul_ge0 x r :
  py_ge0 x → 0 <= r →
  (Binary64.mul x (Finite r) = NaN ↔ x = Infinite false ∧ r == 0)
  ∧ (Binary64.mul x (Finite r) ≠ NaN → py_ge0 (Binary64.mul x (Finite r))).
Proof.
  intros Hx Hr. destruct x as [a | [] |]; simpl in Hx; try done.
  - simpl. split.
    + split; [intros H; by apply round_not_nan in H | by intros [? _]].
    + intros _. apply round_ge0. by apply Qmult_le_0_compat.
  - simpl. destruct (Qeq_bool r 0) eqn:E.
    + apply Qeq_bool_iff in E. split; [by split | done].
    + apply Qeq_bool_false in E. split; [split; [done | by intros [_ ?]] |].
      intros _. simpl. by apply Qltb_ge.
Qed.

(** [round(x, 2)] of a finite float: the integer number of hundredths
    at most half a hundredth away from it, and of that decimal the
    nearest float. *)
Lemma py_round2_pinned p :
  ∃ k : Z, k = round_half_even (p * 100)
           ∧ py_round2 (Finite p) = Binary64.round (inject_Z k / 100)
           ∧ Qabs (inject_Z k / 100 - p) <= 1 # 200.
Proof.
  exists (round_half_even (p * 100)). split; [done |]. split; [done |].
  destruct (round_half_even_bounds (p * 100)) as [_ H].
  set (n := inject_Z (round_half_even (p * 100))) in *.
  assert (Hd : n / 100 * 100 == n) by (apply Qdiv_mult_l; discriminate).
  revert H. set (d := n / 100) in *. clearbody d.
  apply Qabs_case; intros ? H; apply Qabs_case; intros; lra.
Qed.

Lemma py_round2_ge0 x : py_ge0 x → py_ge0 (py_round2 x).
Proof.
  destruct x as [p | [] |]; simpl; try done.
  intros Hp. apply round_ge0. apply Qle_shift_div_l; [reflexivity |].
  assert (0 * 100 == inject_Z 0) as -> by reflexivity.
  rewrite <- Zle_Qle. apply round_half_even_nonneg. lra.
Qed.

Lemma py_round2_nan x : py_round2 x = NaN ↔ x = NaN.
Proof.
  destruct x as [p | n |]; simpl; [|done|done].
  split; [intros H; by apply round_not_nan in H | done].
Qed.

End Rounding.

(** ** [float] on texts of digits, dots and white space *)

Section PlainFloat.

Lemma amount_char_plain c :
  Regex.amount_char c = true → Ascii.eqb c "," = false → plain_char c = true.
Proof.
  unfold Regex.amount_char, plain_char. intros H Hc.
  rewrite Hc, orb_false_r, !orb_true_iff in H. rewrite !orb_true_iff.
  destruct H as [[[H | H] | H] | H]; auto.
  apply Ascii.eqb_eq in H. subst c. by right.
Qed.

Lemma plain_to_ascii_space c : plain_char c = true → plain_char (Float.to_ascii_space c) = true.
Proof. unfold Float.to_ascii_space. by destruct (_ || _). Qed.

Lemma plain_not_special c :
  plain_char c = true →
  Ascii.eqb c "_" = false ∧ Ascii.eqb c "-" = false ∧ Ascii.eqb c "+" = false
  ∧ Ascii.eqb (Char.lower c) "i" = false ∧ Ascii.eqb (Char.lower c) "n" = false.
Proof.
  intros H. destruct c as [[] [] [] [] [] [] [] []]; try (by vm_compute in H);
    by vm_compute.
Qed.

Lemma drop_underscores_plain prev s :
  Ascii.eqb prev "_" = false → Str.forallb plain_char s = true →
  Float.drop_underscores prev s = Some s.
Proof.
  revert prev. induction s as [|c s IH]; simpl; intros prev Hp.
  - by rewrite Hp.
  - intros [Hc Hs]%andb_true_iff.
    destruct (plain_not_special _ Hc) as (Hu & _).
    rewrite Hu, Hp. simpl. by rewrite (IH c Hu Hs).
Qed.

Lemma forallb_c_lstrip p s : Str.forallb p s = true → Str.forallb p (Float.c_lstrip s) = true.
Proof.
  induction s as [|c s IH]; simpl; [done |].
  intros H. destruct (Char.is_c_space c); [|done].
  apply andb_true_iff in H as [_ H]. auto.
Qed.

Lemma forallb_c_rstrip p s : Str.forallb p s = true → Str.forallb p (Float.c_rstrip s) = true.
Proof.
  induction s as [|c s IH]; simpl; [done |].
  intros [Hc Hs]%andb_true_iff. specialize (IH Hs).
  destruct (Float.c_rstrip s) as [|c' r'].
  - destruct (Char.is_c_space c); simpl; [done | by rewrite Hc].
  - change (p c && Str.forallb p (String c' r') = true). by rewrite Hc.
Qed.

Lemma take_sign_plain s :
  Str.forallb plain_char s = true → Float.take_sign s = (false, s).
Proof.
  destruct s as [|c s]; [done |]. simpl. intros [Hc _]%andb_true_iff.
  destruct (plain_not_special _ Hc) as (_ & Hm & Hp & _).
  destruct c as [[] [] [] [] [] [] [] []]; try reflexivity; by vm_compute in Hm, Hp.
Qed.

Lemma decimal_nonneg m e : (0 <= Float.decimal false m e)%Q.
Proof.
  unfold Float.decimal. destruct (0 <=? e)%Z eqn:He.
  - apply Z.leb_le in He. change 0%Q with (inject_Z 0). rewrite <- Zle_Qle.
    apply Z.mul_nonneg_nonneg; [lia | by apply Z.pow_nonneg].
  - unfold Qle. simpl. lia.
Qed.

Lemma parse_decimal_unsigned s q :
  Float.parse_decimal s = Some q → (Float.take_sign s).1 = false → (0 <= q)%Q.
Proof.
  unfold Float.parse_decimal. destruct (Float.take_sign s) as [neg r0]. simpl.
  destruct (Str.span Char.is_digit r0) as [ip r1].
  destruct (match r1 with String "." r => _ | _ => _ end) as [fp r2].
  destruct (_ && _); [done |]. destruct (Float.exponent r2); [|done].
  intros [= <-] ->. apply decimal_nonneg.
Qed.

Lemma parse_inf_or_nan_plain s :
  Str.forallb plain_char s = true → Float.parse_inf_or_nan s = None.
Proof.
  intros H. unfold Float.parse_inf_or_nan. rewrite (take_sign_plain _ H).
  destruct s as [|c s]; [done |]. simpl in H. apply andb_true_iff in H as [Hc _].
  destruct (plain_not_special _ Hc) as (_ & _ & _ & Hi & Hn).
  simpl. by rewrite Hi, Hn.
Qed.

(** Such a text denotes a number that is not negative, [inf] when it
    is too large for a float, or nothing. *)
Lemma py_float_plain s x :
  Str.forallb plain_char s = true → Float.py_float s = Some x → py_ge0 x.
Proof.
  intros Hs. unfold Float.py_float.
  assert (Ht : Str.forallb plain_char (Str.map Float.to_ascii_space s) = true).
  { rewrite forallb_map. eapply forallb_impl; [|exact Hs]. apply plain_to_ascii_space. }
  rewrite (drop_underscores_plain "000" _ eq_refl Ht).
  assert (Hu : Str.forallb plain_char (Float.c_strip (Str.map Float.to_ascii_space s)) = true).
  { by apply forallb_c_rstrip, forallb_c_lstrip. }
  destruct (Float.parse_decimal _) as [q|] eqn:Hq.
  - intros [= <-]. apply round_ge0.
    eapply parse_decimal_unsigned; [exact Hq |]. by rewrite (take_sign_plain _ Hu).
  - by rewrite (parse_inf_or_nan_plain _ Hu).
Qed.

(** What the separator rule leaves of a despaced match of the amount
    pattern is such a text. *)
Lemma separator_rule_plain g :
  Str.forallb Regex.amount_char g = true →
  Str.forallb plain_char (separator_rule (despace g)) = true.
Proof.
  intros Hg.
  assert (Hd : Str.forallb Regex.amount_char (despace g) = true)
    by by apply forallb_remove, forallb_remove.
  unfold separator_rule. destruct (ends_with_comma_two_digits _).
  - unfold Str.replace. rewrite forallb_map.
    eapply forallb_impl; [|apply forallb_remove, Hd].
    intros c Hc. simpl. destruct (Ascii.eqb c ",") eqn:E; [done |].
    by apply amount_char_plain.
  - eapply forallb_impl; [|apply forallb_remove_gone, Hd].
    intros c [Hc E]%andb_true_iff. apply amount_char_plain; [done |].
    by apply negb_true_iff in E.
Qed.

End PlainFloat.

(** ** When the parsers return nothing *)

Lemma cell_none_dec (v : cell) : {v = CNone} + {v ≠ CNone}.
Proof. destruct v; (by left) || (by right). Qed.

Section NullResults.

Variable str_of_number : Q → string.
Variable str_of_datetime : Z → string.

Local Abbreviation amount_of := (clean_amount_with_currency str_of_number str_of_datetime).
Local Abbreviation number_of := (clean_number str_of_number str_of_datetime).
Local Abbreviation text_of := (py_str str_of_number str_of_datetime).

Lemma strip_minus s : ∃ r, Str.strip (String "-" s) = String "-" r.
Proof.
  unfold Str.strip. change (Str.lstrip (String "-" s)) with (String "-" s).
  simpl. destruct (Str.rstrip s); eauto.
Qed.

(** An amount the parser returns is not negative; it is [inf] when the
    text is too large for a float. *)
Lemma clean_amount_ge0 raw_value x cur :
  amount_of raw_value = Some (x, cur) → py_ge0 x.
Proof.
  destruct (cell_none_dec raw_value) as [->|Hn]; [done |].
  rewrite clean_amount_rule by done.
  destruct (Regex.match_amount _) as [[g1 g2]|] eqn:Hm; [|done].
  destruct (Float.py_float _) as [y|] eqn:Hf; [|done]. intros [= <- <-].
  refine (py_float_plain _ _ (separator_rule_plain g1 _) Hf).
  unfold Regex.match_amount in Hm.
  destruct (Str.span Regex.amount_char _) as [a b] eqn:Hsp.
  destruct (Str.is_empty a); [done |].
  destruct (Str.span Char.is_space b). injection Hm as -> _.
  by eapply span_prefix_forall.
Qed.

(** C4, as the code has it. The amount parsers return the pair of nulls
    when the input is absent, is the empty text or one of the sentinels "n/a", "None",
    "-" (after trimming), or its cleaned number part does not parse.
    The plain-number parsers return null when the input is absent or a
    sentinel; when the cleaned text does not parse they hand the input
    back instead (v2 the trimmed text, v3 the raw cell). *)
Theorem parsers_null_or_passthrough (raw_value : cell) :
  let raw := Str.strip (text_of raw_value) in
  ((raw_value = CNone ∨ is_sentinel raw = true
    ∨ amount_cleaned raw ≫= Float.py_float = None) →
   amount_of raw_value = None
   ∧ V3.clean_amount str_of_number str_of_datetime raw_value = None)
  ∧ ((raw_value = CNone ∨ is_sentinel raw = true) →
     number_of raw_value = Absent
     ∧ V3.clean_num str_of_number str_of_datetime raw_value = V3.CleanNone)
  ∧ (raw_value ≠ CNone → is_sentinel raw = false →
     Float.py_float (number_cleaned raw) = None →
     number_of raw_value = Literal raw
     ∧ V3.clean_num str_of_number str_of_datetime raw_value = V3.CleanRaw raw_value).
Proof.
  intros raw. split_and!.
  - intros H.
    assert (amount_of raw_value = None) as Hnone; [|split; exact Hnone].
    destruct (cell_none_dec raw_value) as [->|Hn]; [done |].
    rewrite clean_amount_rule by done. fold raw.
    destruct H as [? | [Hs | Hf]]; [done | by rewrite (sentinel_no_match _ Hs) |].
    unfold amount_cleaned in Hf.
    destruct (Regex.match_amount raw) as [[g1 g2]|]; [|done].
    simpl in Hf. by rewrite Hf.
  - intros H. destruct (cell_none_dec raw_value) as [->|Hn]; [done |].
    destruct H as [? | Hs]; [done |].
    rewrite clean_number_rule, v3_clean_num_rule by done. fold raw. cbv zeta.
    by rewrite (sentinel_no_percent _ Hs), Hs.
  - intros Hn Hs Hf.
    rewrite clean_number_rule, v3_clean_num_rule by done. fold raw. cbv zeta.
    unfold number_cleaned in Hf. rewrite Hs, Hf.
    by destruct (Str.endswith _ raw).
Qed.

End NullResults.

(** C4, as stated, fails for the plain-number parsers: "abc" does not
    parse as a number, and they return it, not null. *)
Lemma clean_number_unparseable_is_returned :
  Float.py_float (number_cleaned "abc") = None
  ∧ clean_number Sample.str_of_number Sample.str_of_datetime (CText "abc") = Literal "abc"
  ∧ clean_number Sample.str_of_number Sample.str_of_datetime (CText "abc") ≠ Absent
  ∧ V3.clean_num Sample.str_of_number Sample.str_of_datetime (CText "abc")
    = V3.CleanRaw (CText "abc").
Proof. by split_and!. Qed.

(** The null cases at work: "12.3.4" does not parse, " n/a " is a
    sentinel once trimmed. *)
Lemma parsers_null_or_passthrough_witness :
  (CText "12.3.4" ≠ CNone ∧ is_sentinel "12.3.4" = false
   ∧ Float.py_float (number_cleaned "12.3.4") = None
   ∧ amount_cleaned "12.3.4" ≫= Float.py_float = None)
  ∧ clean_amount_with_currency Sample.str_of_number Sample.str_of_datetime (CText "12.3.4") = None
  ∧ clean_number Sample.str_of_number Sample.str_of_datetime (CText "12.3.4") = Literal "12.3.4"
  ∧ clean_number Sample.str_of_number Sample.str_of_datetime (CText " n/a ") = Absent.
Proof.
  pose proof (parsers_null_or_passthrough Sample.str_of_number Sample.str_of_datetime
                (CText "12.3.4")) as (Ha & _ & Hp).
  pose proof (parsers_null_or_passthrough Sample.str_of_number Sample.str_of_datetime
                (CText " n/a ")) as (_ & Hs & _).
  split; [by split_and! |]. split; [|split].
  - apply Ha. right; right. reflexivity.
  - by apply Hp.
  - apply Hs. right. reflexivity.
Defined.

(** The rule at work on " 1.234,50 ", a text of number characters. *)
Lemma separator_rule_applied_identically_witness :
  (Str.forallb Regex.amount_char (Str.strip " 1.234,50 ") = true
   ∧ Str.strip " 1.234,50 " ≠ EmptyString)
  ∧ (clean_amount_with_currency Sample.str_of_number Sample.str_of_datetime (CText " 1.234,50 ")
     = Some (Finite 1234.50, "SEK"%string)
     ↔ clean_number Sample.str_of_number Sample.str_of_datetime (CText " 1.234,50 ")
       = Number (Finite 1234.50)).
Proof.
  split; [by split |].
  apply (separator_rule_applied_identically Sample.str_of_number Sample.str_of_datetime);
    [reflexivity | discriminate].
Defined.

(** ** The order book *)

Lemma fx_get_absent (fx : gmap string Q) cur : fx !! cur = None → fx_get fx cur = 1%Q.
Proof. unfold fx_get. by intros ->. Qed.

Lemma app_fx_rates_sek e u g : fx_get (app_fx_rates e u g) "SEK" = 1%Q.
Proof. unfold fx_get, app_fx_rates. by rewrite lookup_insert_eq. Qed.

Lemma app_fx_rates_nonneg e u g cur r :
  (0 <= e)%Q → (0 <= u)%Q → (0 <= g)%Q →
  app_fx_rates e u g !! cur = Some r → (0 <= r)%Q.
Proof.
  intros He Hu Hg. unfold app_fx_rates.
  rewrite !lookup_insert. repeat case_decide; rewrite ?lookup_empty; intros [= <-]; auto.
  discriminate.
Qed.

Lemma fx_get_nonneg (fx : gmap string Q) cur :
  (∀ c r, fx !! c = Some r → (0 <= r)%Q) → (0 <= fx_get fx cur)%Q.
Proof.
  intros H. unfold fx_get. destruct (fx !! cur) as [r|] eqn:E; simpl; [eauto | discriminate].
Qed.

Lemma forallb_elem {A : Type} (f : A → bool) l :
  forallb f l = true ↔ ∀ x, x ∈ l → f x = true.
Proof.
  rewrite forallb_forall.
  split; intros H x Hx; apply H; by apply list_elem_of_In.
Qed.

Lemma elem_of_List_map {A B : Type} (f : A → B) l y :
  y ∈ List.map f l ↔ ∃ x, y = f x ∧ x ∈ l.
Proof.
  rewrite list_elem_of_In, in_map_iff. split.
  - intros (x & <- & Hx). exists x. split; [done | by apply list_elem_of_In].
  - intros (x & -> & Hx). exists x. split; [done | by apply list_elem_of_In].
Qed.

Lemma collect_orders_some {A : Type} (rows : list (row_outcome A)) orders :
  collect_orders rows = Some orders →
  orders = omap kept_order rows ∧ ∀ r, r ∈ rows → is_non_finite r = false.
Proof.
  unfold collect_orders. destruct (existsb _ _) eqn:E; [done |].
  intros [= <-]. split; [done |]. intros r Hr.
  destruct (is_non_finite r) eqn:Er; [|done].
  assert (existsb is_non_finite rows = true) as H; [|by rewrite H in E].
  apply existsb_exists. exists r. split; [by apply list_elem_of_In | done].
Qed.

Section OrderBookProperties.

Variable str_of_number : Q → string.
Variable str_of_datetime : Z → string.

Local Abbreviation amount_of := (clean_amount_with_currency str_of_number str_of_datetime).
Local Abbreviation row_of := (parse_order_row str_of_number str_of_datetime).
Local Abbreviation book_of := (parse_order_book str_of_number str_of_datetime).

Lemma elem_of_rows_from_2 row n : row ∈ rows_from_2 n ↔ (2 ≤ row ≤ n)%nat.
Proof. unfold rows_from_2. rewrite elem_of_seq. lia. Qed.

Lemma elem_of_parse_order_book ws fx orders o :
  book_of ws fx = Some orders →
  o ∈ orders ↔ ∃ row, (2 ≤ row ≤ max_row ws)%nat ∧ row_of ws fx row = Kept o.
Proof.
  unfold parse_order_book. intros [-> _]%collect_orders_some.
  rewrite list_elem_of_omap. split.
  - intros (r & (row & -> & Hrow)%elem_of_List_map & Hk).
    exists row. split; [by apply elem_of_rows_from_2 |].
    destruct (row_of ws fx row); simpl in Hk; try done. by injection Hk as ->.
  - intros (row & Hrow & Hk). exists (Kept o). split; [|done].
    apply elem_of_List_map. exists row. split; [done | by apply elem_of_rows_from_2].
Qed.

(** A row is kept exactly when its amount cell parses; it carries the
    parsed amount, its currency and the conversion. *)
Lemma parse_order_row_amounts ws fx row :
  row_amounts (row_of ws fx row) =
    match amount_of (cell_value ws row 6) with
    | None => None
    | Some (amt, cur) => Some (amt, cur, to_sek amt (fx_get fx cur))
    end.
Proof.
  unfold parse_order_row. destruct (amount_of _) as [[amt cur]|]; [|done].
  destruct amt as [a| |]; [|done|done].
  by destruct (to_sek (Finite a) (fx_get fx cur)) as [amount_sek| |] eqn:E.
Qed.

Lemma parse_order_row_kept ws fx row o :
  row_of ws fx row = Kept o →
  amount_of (cell_value ws row 6) = Some (Finite (belopp o), valuta o)
  ∧ to_sek (Finite (belopp o)) (fx_get fx (valuta o)) = Finite (belopp_sek o).
Proof.
  intros Ho. pose proof (parse_order_row_amounts ws fx row) as H.
  rewrite Ho in H. simpl in H.
  destruct (amount_of _) as [[amt cur]|]; [|done]. by injection H as <- <- <-.
Qed.

(** C6. Every row that passes the gate (its amount cell parses) is kept,
    with the parsed amount, its currency and
    [belopp_sek = round(belopp * rate, 2)], where the rate is the table's
    entry for the currency and 1.0 for a code the table lacks; the
    application's table gives SEK the rate 1.0.  The product is the
    float product, at most [2^-53] of its size away from the exact one;
    [round(p, 2)] is the float nearest to the decimal [k/100] that is at
    most half a hundredth away from [p].  So "1000.15 USD" at 10.50 is
    10501.57: the float product lies just below 10501.575. *)
Theorem order_amount_in_base_currency (ws : worksheet) (fx_rates : gmap string Q) :
  (∀ row amt cur,
      (2 ≤ row ≤ max_row ws)%nat →
      amount_of (cell_value ws row 6) = Some (amt, cur) →
      row_amounts (row_of ws fx_rates row)
      = Some (amt, cur,
              py_round2 (Binary64.mul amt (Finite (fx_get fx_rates cur)))))
  ∧ (∀ row, amount_of (cell_value ws row 6) = None → row_of ws fx_rates row = Skipped)
  ∧ (∀ orders o, book_of ws fx_rates = Some orders → o ∈ orders →
        Finite (belopp_sek o)
        = py_round2 (Binary64.mul (Finite (belopp o))
                                  (Finite (fx_get fx_rates (valuta o))))
        ∧ (∀ rate, fx_rates !! valuta o = Some rate →
                   Finite (belopp_sek o)
                   = py_round2 (Binary64.mul (Finite (belopp o)) (Finite rate)))
        ∧ (fx_rates !! valuta o = None →
           Finite (belopp_sek o)
           = py_round2 (Binary64.mul (Finite (belopp o)) (Finite 1))))
  ∧ (∀ eur usd gbp, fx_get (app_fx_rates eur usd gbp) "SEK" = 1%Q)
  ∧ (∀ a r p : Q,
        Binary64.mul (Finite a) (Finite r) = Finite p →
        (Qabs (p - a * r) <= Binary64.pow2 (-53) * Qabs (a * r) + Binary64.pow2 (-1075))%Q)
  ∧ (∀ p : Q, ∃ k : Z,
        py_round2 (Finite p) = Binary64.round (inject_Z k / 100)
        ∧ (Qabs (inject_Z k / 100 - p) <= 1 # 200)%Q
        ∧ ∀ s, py_round2 (Finite p) = Finite s →
               (Qabs (s - inject_Z k / 100)
                <= Binary64.pow2 (-53) * Qabs (inject_Z k / 100) + Binary64.pow2 (-1075))%Q)
  ∧ to_sek (Binary64.round 1000.15) 10.50 = Binary64.round 10501.57
  ∧ Binary64.round 10501.57 ≠ Binary64.round 10501.58.
Proof.
  split_and!.
  - intros row amt cur Hrow Ha. by rewrite parse_order_row_amounts, Ha.
  - intros row Ha. unfold parse_order_row. by rewrite Ha.
  - intros orders o Hbook (row & _ & Ho)%(elem_of_parse_order_book _ _ _ _ Hbook).
    apply parse_order_row_kept in Ho as [_ Hsek]. unfold to_sek in Hsek.
    split_and!.
    + by rewrite Hsek.
    + intros rate Hr. rewrite <- Hsek. unfold fx_get. by rewrite Hr.
    + intros Hr. rewrite <- Hsek. by rewrite (fx_get_absent _ _ Hr).
  - apply app_fx_rates_sek.
  - intros a r p Hp. by apply round_relative_error.
  - intros p. destruct (py_round2_pinned p) as (k & _ & Hk & Hclose).
    exists k. split; [exact Hk |]. split; [exact Hclose |].
    intros s Hs. rewrite Hk in Hs. by apply round_relative_error.
  - by vm_compute.
  - by vm_compute.
Qed.

(** C10, as the code has it. The amount pattern allows no sign: a cell
    text that begins with a minus sign fails to parse and its row is
    skipped.  The amount of a row that is kept is not negative; it is
    [inf] when the text is too large for a float.  When no exchange rate
    is negative the amount in SEK is not negative either, except that it
    is [nan] exactly when the amount is [inf] and the rate is zero.  So
    every order of a book has [belopp >= 0], and [belopp_sek >= 0]
    whenever no rate is negative. *)
Theorem orders_are_non_negative (ws : worksheet) (fx_rates : gmap string Q) :
  (∀ row s, cell_value ws row 6 = CText (String "-" s) →
            amount_of (cell_value ws row 6) = None
            ∧ V3.clean_amount str_of_number str_of_datetime (cell_value ws row 6) = None
            ∧ row_of ws fx_rates row = Skipped)
  ∧ (∀ row amt cur sek,
        row_amounts (row_of ws fx_rates row) = Some (amt, cur, sek) →
        py_ge0 amt
        ∧ ((∀ c rate, fx_rates !! c = Some rate → (0 <= rate)%Q) →
           (sek = NaN ↔ amt = Infinite false ∧ (fx_get fx_rates cur == 0)%Q)
           ∧ (sek ≠ NaN → py_ge0 sek)))
  ∧ (∀ orders o, book_of ws fx_rates = Some orders → o ∈ orders →
        (0 <= belopp o)%Q
        ∧ ((∀ c rate, fx_rates !! c = Some rate → (0 <= rate)%Q) →
           (0 <= belopp_sek o)%Q)).
Proof.
  split_and!.
  - intros row s Hc.
    assert (amount_of (cell_value ws row 6) = None) as Hnone.
    { rewrite Hc, clean_amount_rule by done. simpl.
      destruct (strip_minus s) as [r ->]. reflexivity. }
    split_and!; [done | exact Hnone |]. unfold parse_order_row. by rewrite Hnone.
  - intros row amt cur sek Hrow. rewrite parse_order_row_amounts in Hrow.
    destruct (amount_of _) as [[amt' cur']|] eqn:Ha; [|done].
    injection Hrow as -> -> <-.
    pose proof (clean_amount_ge0 _ _ _ _ _ Ha) as Hamt. split; [exact Hamt |].
    intros Hfx. pose proof (fx_get_nonneg fx_rates cur Hfx) as Hr.
    destruct (mul_ge0 amt (fx_get fx_rates cur) Hamt Hr) as [Hnan Hge].
    unfold to_sek. rewrite py_round2_nan. split; [exact Hnan |].
    intros Hn. by apply py_round2_ge0, Hge.
  - intros orders o Hbook (row & _ & Ho)%(elem_of_parse_order_book _ _ _ _ Hbook).
    apply parse_order_row_kept in Ho as [Ha Hsek].
    pose proof (clean_amount_ge0 _ _ _ _ _ Ha) as Hamt. split; [exact Hamt |].
    intros Hfx. pose proof (fx_get_nonneg fx_rates (valuta o) Hfx) as Hr.
    destruct (mul_ge0 (Finite (belopp o)) (fx_get fx_rates (valuta o)) Hamt Hr)
      as [_ Hge].
    change (py_ge0 (Finite (belopp_sek o))). rewrite <- Hsek.
    apply py_round2_ge0, Hge. apply round_not_nan.
Qed.

End OrderBookProperties.

(** The conversion at work: "1000.15 USD" at the default rate. *)
Lemma order_amount_in_base_currency_witness :
  ((2 ≤ 2 ≤ max_row Sample.usd_sheet)%nat
   ∧ clean_amount_with_currency Sample.str_of_number Sample.str_of_datetime
       (cell_value Sample.usd_sheet 2 6)
     = Some (Binary64.round 1000.15, "USD"%string))
  ∧ row_amounts (parse_order_row Sample.str_of_number Sample.str_of_datetime
                   Sample.usd_sheet DEFAULT_FX_RATES 2)
    = Some (Binary64.round 1000.15, "USD"%string, Binary64.round 10501.57).
Proof.
  assert ((2 ≤ 2 ≤ max_row Sample.usd_sheet)%nat) as Hrow by (simpl; lia).
  assert (clean_amount_with_currency Sample.str_of_number Sample.str_of_datetime
            (cell_value Sample.usd_sheet 2 6)
          = Some (Binary64.round 1000.15, "USD"%string)) as Hamt
    by (vm_compute; reflexivity).
  split; [by split |].
  destruct (order_amount_in_base_currency Sample.str_of_number Sample.str_of_datetime
              Sample.usd_sheet DEFAULT_FX_RATES) as (Hgate & _).
  rewrite (Hgate 2%nat _ _ Hrow Hamt). vm_compute. reflexivity.
Defined.

(** C10, as stated, fails: an amount of 1 followed by 309 zeros is read
    as [inf], and at a rate of zero [round(inf * 0.0, 2)] is [nan],
    which is not [>= 0], although no rate is negative. *)
Lemma overflowing_amount_at_rate_zero :
  let fx_rates := app_fx_rates 0 10.50 13.30 in
  (∀ c rate, fx_rates !! c = Some rate → (0 <= rate)%Q)
  ∧ row_amounts (parse_order_row Sample.str_of_number Sample.str_of_datetime
                   Sample.huge_sheet fx_rates 2)
    = Some (Infinite false, "EUR"%string, NaN)
  ∧ ¬ py_ge0 NaN.
Proof.
  intros fx_rates. split; [|split].
  - intros c rate. apply app_fx_rates_nonneg; discriminate.
  - vm_compute. reflexivity.
  - intros [].
Qed.

(** The sample order book: row 2 is kept, row 3 ("-120,00 SEK") is
    skipped. *)
Lemma orders_are_non_negative_witness :
  (∀ cur rate, DEFAULT_FX_RATES !! cur = Some rate → (0 <= rate)%Q)
  ∧ (∃ orders, parse_order_book Sample.str_of_number Sample.str_of_datetime
                 Sample.order_sheet DEFAULT_FX_RATES = Some orders
               ∧ length orders = 1%nat
               ∧ Forall (fun o => (0 <= belopp o)%Q ∧ (0 <= belopp_sek o)%Q) orders)
  ∧ parse_order_row Sample.str_of_number Sample.str_of_datetime
      Sample.order_sheet DEFAULT_FX_RATES 3 = Skipped.
Proof.
  assert (H : ∀ cur rate, DEFAULT_FX_RATES !! cur = Some rate → (0 <= rate)%Q).
  { intros cur rate. apply app_fx_rates_nonneg; by vm_compute. }
  destruct (orders_are_non_negative Sample.str_of_number Sample.str_of_datetime
              Sample.order_sheet DEFAULT_FX_RATES) as (Hminus & _ & Hb).
  split; [exact H |]. split.
  - destruct (parse_order_book Sample.str_of_number Sample.str_of_datetime
                Sample.order_sheet DEFAULT_FX_RATES) as [orders|] eqn:E;
      [|by vm_compute in E].
    exists orders. split; [done |]. split.
    + vm_compute in E. by injection E as <-.
    + apply Forall_forall. intros o Ho.
      destruct (Hb orders o eq_refl Ho) as [H1 H2]. split; [exact H1 | by apply H2].
  - by apply (Hminus 3%nat "120,00 SEK"%string).
Defined.

(** ** The sheet resolver *)

Section SheetResolver.

Local Abbreviation add_lower := (fun (m : gmap string string) name => <[Str.lower name := name]> m).

Lemma lower_fold_lookup (names : list string) (m : gmap string string) k a :
  foldl add_lower m names !! k = Some a →
  (a ∈ names ∧ Str.lower a = k) ∨ m !! k = Some a.
Proof.
  revert m. induction names as [|n names IH]; simpl; intros m H; [by right |].
  apply IH in H as [[Ha Hk] | H].
  - left. split; [by right | done].
  - destruct (decide (Str.lower n = k)) as [<-|Hne].
    + rewrite lookup_insert_eq in H. injection H as <-. left. split; [by left | done].
    + rewrite lookup_insert_ne in H by done. by right.
Qed.

Lemma lower_fold_hit (names : list string) (m : gmap string string) k :
  (∃ n, n ∈ names ∧ Str.lower n = k) ∨ is_Some (m !! k) →
  is_Some (foldl add_lower m names !! k).
Proof.
  revert m. induction names as [|n names IH]; simpl; intros m H.
  - destruct H as [(n & Hn & _) | H]; [by apply elem_of_nil in Hn | done].
  - apply IH. destruct H as [(n' & Hn & Hk) | H].
    + apply elem_of_cons in Hn as [-> | Hn]; [|left; eauto].
      right. rewrite Hk, lookup_insert_eq. eauto.
    + right. rewrite lookup_insert. case_decide; eauto.
Qed.

(** The dictionary of lower-cased names knows a key exactly when some
    name lower-cases to it, and answers with such a name. *)
Lemma lower_index_some names k a :
  lower_index names !! k = Some a → a ∈ names ∧ Str.lower a = k.
Proof.
  intros [H | H]%lower_fold_lookup; [done | by rewrite lookup_empty in H].
Qed.

Lemma lower_index_none names k :
  lower_index names !! k = None ↔ ∀ n, n ∈ names → Str.lower n ≠ k.
Proof.
  split.
  - intros H n Hn Hk.
    destruct (lower_fold_hit names ∅ k) as [a Ha]; [left; eauto |].
    unfold lower_index in H. congruence.
  - intros H. destruct (lower_index names !! k) as [a|] eqn:E; [|done].
    apply lower_index_some in E as [Ha Hk]. by destruct (H a Ha).
Qed.

Lemma no_match_lookup wb c :
  ¬ matches_sheet wb c ↔ lower_index (sheetnames wb) !! Str.lower c = None.
Proof.
  rewrite lower_index_none. unfold matches_sheet. split.
  - intros H n Hn Hk. apply H. eauto.
  - intros H (n & Hn & Hk). by apply (H n).
Qed.

Lemma getitem_present wb a :
  a ∈ sheetnames wb → ∃ ws, getitem wb a = Ok ws ∧ ws ∈ wb ∧ title ws = a.
Proof.
  intros Ha. unfold getitem.
  destruct (List.find _ wb) as [ws|] eqn:E.
  - apply find_some in E as [Hin Ht]. apply String.eqb_eq in Ht.
    exists ws. split_and!; [done | by apply list_elem_of_In | done].
  - apply list_elem_of_In, in_map_iff in Ha as (ws & <- & Hin).
    apply (find_none _ _ E) in Hin. by rewrite String.eqb_refl in Hin.
Qed.

Lemma find_sheet_unmatched_prefix wb pre rest :
  (∀ p, p ∈ pre → ¬ matches_sheet wb p) →
  find_sheet wb (pre ++ rest) = find_sheet wb rest.
Proof.
  unfold find_sheet. induction pre as [|p pre IH]; intros H; [done |].
  simpl. rewrite (proj1 (no_match_lookup wb p)) by (apply H; by left).
  apply IH. intros q Hq. apply H. by right.
Qed.

(** C7. [find_sheet] returns the sheet named by the first candidate, in
    the listed order, that matches a sheet name of the workbook without
    regard to case; when no candidate matches it returns the only sheet
    of a one-sheet workbook, and null otherwise.  v3 does the same. *)
Theorem find_sheet_resolves (wb : list worksheet) (names : list string) :
  (∀ pre c post,
      names = pre ++ c :: post →
      (∀ p, p ∈ pre → ¬ matches_sheet wb p) →
      matches_sheet wb c →
      ∃ ws, find_sheet wb names = Ok (Some ws)
            ∧ ws ∈ wb ∧ Str.lower (title ws) = Str.lower c)
  ∧ ((∀ c, c ∈ names → ¬ matches_sheet wb c) →
     ∀ ws, wb = [ws] → find_sheet wb names = Ok (Some ws))
  ∧ ((∀ c, c ∈ names → ¬ matches_sheet wb c) →
     length wb ≠ 1%nat → find_sheet wb names = Ok None)
  ∧ V3Sheets.find_sheet wb names = find_sheet wb names.
Proof.
  split_and!; [| | |reflexivity].
  - intros pre c post -> Hpre Hc.
    rewrite find_sheet_unmatched_prefix by done.
    unfold find_sheet. simpl.
    destruct (lower_index (sheetnames wb) !! Str.lower c) as [a|] eqn:E.
    + apply lower_index_some in E as [Ha Hl].
      destruct (getitem_present wb a Ha) as (ws & -> & Hin & Ht).
      exists ws. simpl. split_and!; [done | done | by rewrite Ht].
    + by apply no_match_lookup in E.
  - intros Hno ws ->.
    rewrite <- (app_nil_r names), find_sheet_unmatched_prefix by done.
    unfold find_sheet, getitem. simpl. by rewrite String.eqb_refl.
  - intros Hno Hlen.
    rewrite <- (app_nil_r names), find_sheet_unmatched_prefix by done.
    unfold find_sheet. simpl. by destruct wb as [|? [|? ?]].
Qed.

End SheetResolver.

(** The resolver at work: the second candidate matches in another case;
    a single unknown sheet is taken; two unknown sheets give nothing. *)
Lemma find_sheet_resolves_witness :
  let wb := [Sample.blank_sheet "Order book"; Sample.blank_sheet "Summary"] in
  let names := ["Orderbook"; "ORDER BOOK"]%string in
  (names = ["Orderbook"%string] ++ "ORDER BOOK"%string :: []
   ∧ (∀ p, p ∈ ["Orderbook"%string] → ¬ matches_sheet wb p)
   ∧ matches_sheet wb "ORDER BOOK")
  ∧ (∃ ws, find_sheet wb names = Ok (Some ws)
           ∧ ws ∈ wb ∧ Str.lower (title ws) = Str.lower "ORDER BOOK")
  ∧ find_sheet [Sample.blank_sheet "Blad1"] names = Ok (Some (Sample.blank_sheet "Blad1"))
  ∧ find_sheet wb ["Sheet1"%string] = Ok None.
Proof.
  intros wb names.
  assert (Hpre : ∀ p, p ∈ ["Orderbook"%string] → ¬ matches_sheet wb p).
  { intros p ->%list_elem_of_singleton. by apply no_match_lookup. }
  assert (Hc : matches_sheet wb "ORDER BOOK").
  { exists "Order book"%string. split; [by left | reflexivity]. }
  split; [by split_and! |]. split; [|split].
  - by apply (proj1 (find_sheet_resolves wb names) ["Orderbook"%string] "ORDER BOOK"%string []).
  - destruct (find_sheet_resolves [Sample.blank_sheet "Blad1"] names) as (_ & Hone & _).
    apply Hone; [|reflexivity].
    intros c Hc'. apply no_match_lookup.
    by apply elem_of_cons in Hc' as [-> | ->%list_elem_of_singleton].
  - destruct (find_sheet_resolves wb ["Sheet1"%string]) as (_ & _ & Hnone & _).
    apply Hnone; [|simpl; lia].
    intros c ->%list_elem_of_singleton. by apply no_match_lookup.
Defined.

(** ** Sorting *)

Section SortingProperties.

Context {A : Type}.

Lemma insert_sorted_perm (before : A → A → bool) x l :
  insert_sorted before x l ≡ₚ x :: l.
Proof.
  induction l as [|y l IH]; simpl; [done |].
  destruct (before y x); [|done]. rewrite IH. apply Permutation_swap.
Qed.

(** Sorting rearranges, it neither drops nor duplicates. *)
Lemma py_sorted_perm (before : A → A → bool) l : py_sorted before l ≡ₚ l.
Proof.
  induction l as [|x l IH]; simpl; [done |].
  rewrite insert_sorted_perm. by rewrite IH.
Qed.

Lemma elem_of_py_sorted (before : A → A → bool) l x : x ∈ py_sorted before l ↔ x ∈ l.
Proof. by rewrite py_sorted_perm. Qed.

Variable key : A → Z.

Local Abbreviation descending := (StronglySorted (fun a b => (key b ≤ key a)%Z)).

Lemma insert_sorted_desc x l :
  descending l → descending (insert_sorted (fun y x => (key x <? key y)%Z) x l).
Proof.
  induction 1 as [|y l Hl IH Hy]; simpl.
  - by repeat constructor.
  - destruct (key x <? key y)%Z eqn:E.
    + apply Z.ltb_lt in E. constructor; [done |].
      rewrite insert_sorted_perm. constructor; [lia | done].
    + apply Z.ltb_ge in E. constructor; [by constructor |].
      constructor; [done |]. eapply Forall_impl; [exact Hy |]. simpl. lia.
Qed.

(** [sorted(..., reverse=True)] puts the larger keys first. *)
Lemma sorted_desc_Z_sorted l : descending (sorted_desc_Z key l).
Proof.
  unfold sorted_desc_Z, py_sorted. induction l as [|x l IH]; simpl; [constructor |].
  by apply insert_sorted_desc.
Qed.

End SortingProperties.

(** ** Sums *)

Section Sums.

Local Open Scope Q_scope.

Lemma foldl_Qplus a l : foldl Qplus a l == a + py_sum l.
Proof.
  unfold py_sum. revert a. induction l as [|x l IH]; intros a; simpl; [lra |].
  rewrite (IH (a + x)), (IH (0 + x)). lra.
Qed.

Lemma py_sum_cons x l : py_sum (x :: l) == x + py_sum l.
Proof. unfold py_sum at 1. simpl. rewrite foldl_Qplus. lra. Qed.

Lemma py_sum_perm l l' : l ≡ₚ l' → py_sum l == py_sum l'.
Proof.
  induction 1 as [|x l l' _ IH|x y l|l l' l'' _ IH1 _ IH2].
  - reflexivity.
  - by rewrite !py_sum_cons, IH.
  - rewrite !py_sum_cons. lra.
  - by rewrite IH1.
Qed.

Lemma py_sum_zero l : Forall (fun x => x == 0) l → py_sum l == 0.
Proof.
  induction 1 as [|x l Hx _ IH]; [reflexivity |]. rewrite py_sum_cons, Hx, IH. lra.
Qed.

Lemma py_sum_nonpos l : Forall (fun x => x <= 0) l → py_sum l <= 0.
Proof.
  induction 1 as [|x l Hx _ IH]; [by compute |]. rewrite py_sum_cons. lra.
Qed.

Lemma py_sum_sorted {A : Type} (before : A → A → bool) (f : A → Q) l :
  py_sum (List.map f (py_sorted before l)) == py_sum (List.map f l).
Proof. apply py_sum_perm, Permutation_map, py_sorted_perm. Qed.

End Sums.

(** ** Aging *)

Section Aging.

Lemma aging_alert_of_some today o a :
  aging_alert_of today o = Some a ↔
  ∃ d, orderdatum o = Some d
       ∧ (90 < timedelta_days today d)%Z
       ∧ a = {| alert_ordernr := ordernr o;
                alert_kundnamn := kundnamn o;
                alert_orderdatum := d;
                days_old := timedelta_days today d;
                months_old := (timedelta_days today d / 30)%Z;
                alert_belopp_sek := belopp_sek o |}.
Proof.
  unfold aging_alert_of. destruct (orderdatum o) as [d|].
  - destruct (90 <? _)%Z eqn:E.
    + apply Z.ltb_lt in E. split; [intros [= <-]; eauto |].
      by intros (d' & [= <-] & _ & ->).
    + apply Z.ltb_ge in E. split; [done |]. intros (d' & [= <-] & ? & _). lia.
  - split; [done | by intros (d' & ? & _)].
Qed.

Lemma whole_days d n : timedelta_days (d + n * microseconds_per_day)%Z d = n.
Proof.
  unfold timedelta_days. replace (d + n * microseconds_per_day - d)%Z
    with (n * microseconds_per_day)%Z by lia.
  by apply Z.div_mul.
Qed.

(** C8. The aging analysis returns exactly the alerts of the orders
    that have a date and whose age in whole days exceeds 90, each once,
    the oldest first; an order without a date yields nothing; at
    exactly 91 days an order is reported, at exactly 90 it is not. *)
Theorem aging_is_strictly_over_90_days (now : Z) (orders : list order) (today : option Z) :
  let t := default now today in
  let alerts := analyze_order_aging now orders today in
  (∀ a, a ∈ alerts ↔
        ∃ o d, o ∈ orders ∧ orderdatum o = Some d
               ∧ (90 < timedelta_days t d)%Z
               ∧ a = {| alert_ordernr := ordernr o;
                        alert_kundnamn := kundnamn o;
                        alert_orderdatum := d;
                        days_old := timedelta_days t d;
                        months_old := (timedelta_days t d / 30)%Z;
                        alert_belopp_sek := belopp_sek o |})
  ∧ alerts ≡ₚ omap (aging_alert_of t) orders
  ∧ StronglySorted (fun a b => (days_old b ≤ days_old a)%Z) alerts
  ∧ (∀ o, orderdatum o = None → analyze_order_aging now [o] today = [])
  ∧ (∀ o d, orderdatum o = Some d →
            (∃ a, analyze_order_aging now [o] (Some (d + 91 * microseconds_per_day)%Z) = [a]
                  ∧ days_old a = 91%Z)
            ∧ analyze_order_aging now [o] (Some (d + 90 * microseconds_per_day)%Z) = []).
Proof.
  intros t alerts. unfold alerts, analyze_order_aging. fold t. split_and!.
  - intros a. unfold sorted_desc_Z. rewrite elem_of_py_sorted, list_elem_of_omap.
    setoid_rewrite aging_alert_of_some. split.
    + intros (o & Ho & d & Hd & Hlt & ->). by exists o, d.
    + intros (o & d & Ho & Hd & Hlt & ->). exists o. split; [done |]. by exists d.
  - apply py_sorted_perm.
  - apply sorted_desc_Z_sorted.
  - intros o Ho. simpl. unfold aging_alert_of. by rewrite Ho.
  - intros o d Ho. simpl. unfold aging_alert_of. rewrite Ho, !whole_days. simpl.
    split; [eexists; split; reflexivity | reflexivity].
Qed.

End Aging.

(** The boundary at work: 91 days, 90 days, and an order with no date. *)
Lemma aging_is_strictly_over_90_days_witness :
  let o := Sample.an_order "Acme" (Some 0%Z) 100 in
  orderdatum o = Some 0%Z
  ∧ (∃ a, analyze_order_aging 0 [o] (Some (0 + 91 * microseconds_per_day)%Z) = [a]
          ∧ days_old a = 91%Z)
  ∧ analyze_order_aging 0 [o] (Some (0 + 90 * microseconds_per_day)%Z) = []
  ∧ analyze_order_aging 0 [Sample.an_order "Bolt" None 5] (Some (400 * Sample.day)%Z) = [].
Proof.
  intros o. split; [reflexivity |].
  destruct (aging_is_strictly_over_90_days 0 [o] None) as (_ & _ & _ & Hnone & Hedge).
  destruct (Hedge o 0%Z eq_refl) as [H91 H90].
  split; [exact H91 |]. split; [exact H90 |].
  apply (proj1 (proj2 (proj2 (proj2
           (aging_is_strictly_over_90_days 0 [] (Some (400 * Sample.day)%Z)))))).
  reflexivity.
Defined.

(** ** Customer concentration *)

Section Concentration.

Lemma py_div_ok x y : Qeq_bool y 0 = false → py_div x y = Ok (x / y)%Q.
Proof. unfold py_div. by intros ->. Qed.

Lemma mapM_ok {A B : Type} (f : A → result B) l :
  (∀ x, ∃ y, f x = Ok y) → ∃ ys, mapM f l = Ok ys.
Proof.
  intros Hf. induction l as [|x l [ys IH]]; simpl; [eauto |].
  destruct (Hf x) as [y ->]. simpl. rewrite IH. simpl. eauto.
Qed.

Lemma dict_add_sum k v d :
  (py_sum (List.map snd (dict_add k v d)) == py_sum (List.map snd d) + v)%Q.
Proof.
  induction d as [|[k' w] d IH]; simpl.
  - rewrite py_sum_cons. unfold py_sum. simpl. lra.
  - destruct (cell_eqb k' k); simpl; rewrite !py_sum_cons; [lra |]. rewrite IH. simpl. lra.
Qed.

(** The per-customer totals add up to the sum over the orders. *)
Lemma customer_totals_sum orders :
  (py_sum (List.map snd (customer_totals orders)) == py_sum (List.map belopp_sek orders))%Q.
Proof.
  unfold customer_totals.
  assert (H : ∀ d, (py_sum (List.map snd
                      (foldl (fun d o => dict_add (kundnamn o) (belopp_sek o) d) d orders))
                    == py_sum (List.map snd d) + py_sum (List.map belopp_sek orders))%Q).
  { induction orders as [|o orders IH]; intros d; simpl.
    - unfold py_sum at 3. simpl. lra.
    - rewrite IH, dict_add_sum, py_sum_cons. lra. }
  rewrite H. change (py_sum (List.map snd [])) with 0%Q. lra.
Qed.

(** No input makes the concentration analysis raise. *)
Lemma concentration_never_raises orders : ∃ r, analyze_customer_concentration orders = Ok r.
Proof.
  unfold analyze_customer_concentration.
  destruct (Qeq_bool _ 0) eqn:E; [eauto |].
  match goal with
  | |- context [mapM ?f ?l] => destruct (mapM_ok f l) as [ys ->]
  end.
  { intros [name amt]. rewrite (py_div_ok _ _ E). simpl. eauto. }
  simpl. rewrite (py_div_ok _ _ E). simpl.
  destruct (sorted_desc_Q snd (customer_totals orders)) as [|first ?]; simpl; [eauto |].
  rewrite (py_div_ok _ _ E). simpl. eauto.
Qed.

(** C9. When the per-customer totals sum to zero the concentration
    analysis does not divide: it returns an empty top-5 report and the
    percentages 0, so every percentage it reports is zero and no error
    is raised. *)
Theorem concentration_of_zero_total (orders : list order) :
  (py_sum (List.map snd (customer_totals orders)) == 0)%Q →
  analyze_customer_concentration orders = Ok ([], 0%Q, 0%Q)
  ∧ ∃ top_5 top_3_pct top_1_pct,
      analyze_customer_concentration orders = Ok (top_5, top_3_pct, top_1_pct)
      ∧ Forall (fun '(_, _, pct) => (pct == 0)%Q) top_5
      ∧ (top_3_pct == 0)%Q ∧ (top_1_pct == 0)%Q.
Proof.
  intros H. apply Qeq_bool_iff in H.
  assert (E : analyze_customer_concentration orders = Ok ([], 0%Q, 0%Q)).
  { unfold analyze_customer_concentration. by rewrite H. }
  split; [exact E |]. exists [], 0%Q, 0%Q. by split_and!.
Qed.

End Concentration.

(** Two customers whose totals cancel. *)
Lemma concentration_of_zero_total_witness :
  let orders := [Sample.an_order "Acme" None 250; Sample.an_order "Bolt" None (-250)] in
  (py_sum (List.map snd (customer_totals orders)) == 0)%Q
  ∧ analyze_customer_concentration orders = Ok ([], 0%Q, 0%Q).
Proof.
  intros orders. split; [reflexivity |].
  apply (concentration_of_zero_total orders). reflexivity.
Defined.

(** ** Cohorts *)

Section Cohorts.

Variables curr prev : string.

Local Abbreviation step := (cohort_step curr prev).
Local Abbreviation members := (fun b => in_bucket b curr prev).

(** One turn of the loop appends the customer to the list of its
    bucket and to no other. *)
Lemma cohort_step_bucket acc c :
  step acc c =
    match bucket_of curr prev c with
    | Churned =>
        {| cohort_churned := cohort_churned acc ++ [churn_row_of curr prev c];
           cohort_declining := cohort_declining acc;
           cohort_growing := cohort_growing acc;
           cohort_new := cohort_new acc |}
    | Declining =>
        {| cohort_churned := cohort_churned acc;
           cohort_declining := cohort_declining acc ++ [move_row_of curr prev c];
           cohort_growing := cohort_growing acc;
           cohort_new := cohort_new acc |}
    | Growing =>
        {| cohort_churned := cohort_churned acc;
           cohort_declining := cohort_declining acc;
           cohort_growing := cohort_growing acc ++ [move_row_of curr prev c];
           cohort_new := cohort_new acc |}
    | New =>
        {| cohort_churned := cohort_churned acc;
           cohort_declining := cohort_declining acc;
           cohort_growing := cohort_growing acc;
           cohort_new := cohort_new acc ++ [new_row_of curr c] |}
    | Flat => acc
    end.
Proof.
  unfold cohort_step, bucket_of.
  destruct (churned c || _); [reflexivity |].
  destruct (Qeq_bool _ 0 && _); [reflexivity |].
  destruct (Qltb _ 0); [reflexivity |].
  by destruct (Qgtb _ 0).
Qed.

Lemma in_bucket_cons b c cs :
  members b (c :: cs) =
    if bool_decide (bucket_of curr prev c = b) then c :: members b cs else members b cs.
Proof. reflexivity. Qed.

(** The four lists after the loop: what was there, then the customers
    of the bucket in their order of appearance. *)
Lemma cohort_fold cs acc :
  foldl step acc cs =
    {| cohort_churned :=
         cohort_churned acc ++ List.map (churn_row_of curr prev) (members Churned cs);
       cohort_declining :=
         cohort_declining acc ++ List.map (move_row_of curr prev) (members Declining cs);
       cohort_growing :=
         cohort_growing acc ++ List.map (move_row_of curr prev) (members Growing cs);
       cohort_new :=
         cohort_new acc ++ List.map (new_row_of curr) (members New cs) |}.
Proof.
  revert acc. induction cs as [|c cs IH]; intros acc.
  - simpl. rewrite !app_nil_r. by destruct acc.
  - simpl foldl. rewrite IH, cohort_step_bucket, !in_bucket_cons.
    destruct (bucket_of curr prev c); simpl; by rewrite <- ?app_assoc.
Qed.

(** Every customer sits in exactly one of the five buckets. *)
Lemma buckets_partition cs :
  cs ≡ₚ members Churned cs ++ members Declining cs ++ members Growing cs
        ++ members New cs ++ members Flat cs.
Proof.
  induction cs as [|c cs IH]; [done |].
  rewrite !in_bucket_cons.
  destruct (bucket_of curr prev c); simpl; rewrite IH at 1.
  - done.
  - by rewrite <- Permutation_middle.
  - by rewrite <- (Permutation_middle (members Declining cs)), <- Permutation_middle.
  - by rewrite <- (Permutation_middle (members Growing cs)),
      <- (Permutation_middle (members Declining cs)), <- Permutation_middle.
  - by rewrite <- (Permutation_middle (members New cs)),
      <- (Permutation_middle (members Growing cs)),
      <- (Permutation_middle (members Declining cs)), <- Permutation_middle.
Qed.

Lemma analyze_cohorts_names data b :
  b ≠ Flat →
  bucket_names (analyze_cohorts data curr prev) b
  ≡ₚ List.map kund (members b (customers data)).
Proof.
  intros Hb. unfold analyze_cohorts. rewrite cohort_fold. simpl.
  destruct b; simpl; try done;
    unfold sorted_desc_Q, sorted_asc_Q; rewrite py_sorted_perm, map_map; done.
Qed.

(** C2. The four lists [analyze_cohorts] returns hold, each, exactly
    the customers of its bucket; with the flat customers, which it
    leaves out, they contain every customer of the dataset once: as
    lists of customer names they are a rearrangement of the input, and
    when the names are distinct the five buckets are pairwise disjoint
    sets whose union is the input. *)
Theorem cohorts_partition_customers (data : master_data) :
  let r := analyze_cohorts data curr prev in
  let all_buckets :=
    bucket_names r Churned ++ bucket_names r Declining ++ bucket_names r Growing
    ++ bucket_names r New ++ List.map kund (members Flat (customers data)) in
  (∀ b, b ≠ Flat → bucket_names r b ≡ₚ List.map kund (members b (customers data)))
  ∧ (∀ c, c ∈ customers data → ∃ b, ∀ b', c ∈ members b' (customers data) ↔ b' = b)
  ∧ List.map kund (customers data) ≡ₚ all_buckets
  ∧ (NoDup (List.map kund (customers data)) → NoDup all_buckets).
Proof.
  intros r all_buckets.
  assert (Hperm : List.map kund (customers data) ≡ₚ all_buckets).
  { unfold all_buckets, r. rewrite !analyze_cohorts_names by done.
    rewrite <- !map_app. apply Permutation_map, buckets_partition. }
  split_and!.
  - intros b Hb. by apply analyze_cohorts_names.
  - intros c Hc. exists (bucket_of curr prev c). intros b'.
    unfold in_bucket. rewrite list_elem_of_In, filter_In, <- list_elem_of_In.
    rewrite bool_decide_eq_true. split; [by intros [_ <-] | by intros ->].
  - exact Hperm.
  - intros Hnd. by rewrite <- Hperm.
Qed.

End Cohorts.

(** ** The revenue bridge *)

Section Bridge.

Local Open Scope Q_scope.

Lemma elem_of_all_ltm_labels cs l :
  l ∈ all_ltm_labels cs ↔ ∃ c, c ∈ cs ∧ l ∈ dom (ltm c).
Proof.
  unfold all_ltm_labels.
  assert (H : ∀ acc : gset string,
             l ∈ foldl (fun acc c => acc ∪ dom (ltm c)) acc cs
             ↔ l ∈ acc ∨ ∃ c, c ∈ cs ∧ l ∈ dom (ltm c)).
  { induction cs as [|c cs IH]; intros acc; simpl.
    - split; [by left |]. intros [? | (c & Hc & _)]; [done | by apply elem_of_nil in Hc].
    - rewrite IH, elem_of_union. split.
      + intros [[? | ?] | (c' & ? & ?)]; [by left | right; exists c | right; exists c'];
          split; try done; by constructor.
      + intros [? | (c' & [-> | ?]%elem_of_cons & ?)]; [by left; left | by left; right |].
        right. by exists c'. }
  rewrite H. split; [intros [Hl | ?]; [by apply elem_of_empty in Hl | done] | by right].
Qed.

(** The trend table gives, for every label, the sum over the customers
    (zero for a label no customer has). *)
Lemma get0_ltm_trend_of cs l :
  get0 (ltm_trend_of cs) l == py_sum (List.map (fun c => get0 (ltm c) l) cs).
Proof.
  unfold get0 at 1, ltm_trend_of.
  destruct (set_to_map _ _ !! l) as [x|] eqn:E.
  - apply lookup_set_to_map in E as (l' & _ & [= -> <-]); [reflexivity |].
    by intros ?? _ _ [= ->].
  - simpl. symmetry. apply py_sum_zero, Forall_forall.
    intros x (c & <- & Hc)%list_elem_of_In%in_map_iff. apply list_elem_of_In in Hc.
    unfold get0. destruct (ltm c !! l) as [v|] eqn:Hv; [|reflexivity].
    exfalso. apply (proj1 (eq_None_not_Some _) E).
    exists (py_sum (List.map (fun c => get0 (ltm c) l) cs)).
    apply lookup_set_to_map; [by intros ?? _ _ [= ->] |].
    exists l. split; [|done]. apply elem_of_all_ltm_labels.
    exists c. split; [done |]. apply elem_of_dom. eauto.
Qed.

Variables curr prev : string.

Local Abbreviation cur_v := (fun c : customer => get0 (ltm c) curr).
Local Abbreviation pre_v := (fun c : customer => get0 (ltm c) prev).
Local Abbreviation chg := (fun c : customer => get0 (ltm c) curr - get0 (ltm c) prev).
Local Abbreviation members := (fun b => in_bucket b curr prev).

Lemma bucket_of_facts c :
  match bucket_of curr prev c with
  | Churned => churned c = true ∨ cur_v c == 0
  | New => pre_v c == 0
  | Declining => chg c < 0
  | Growing => 0 < chg c
  | Flat => chg c == 0
  end.
Proof.
  unfold bucket_of.
  destruct (churned c); simpl; [by left |].
  destruct (Qgtb (pre_v c) 0 && Qeq_bool (cur_v c) 0) eqn:E1.
  { apply andb_true_iff in E1 as [_ E1]. right. by apply Qeq_bool_iff. }
  destruct (Qeq_bool (pre_v c) 0 && Qgtb (cur_v c) 0) eqn:E2.
  { apply andb_true_iff in E2 as [E2 _]. by apply Qeq_bool_iff. }
  destruct (Qltb (chg c) 0) eqn:E3; [by apply Qltb_lt |].
  destruct (Qgtb (chg c) 0) eqn:E4; [by apply Qgtb_gt |].
  apply Qltb_ge in E3. apply Qgtb_le in E4. lra.
Qed.

Lemma declining_sum_nonpos cs :
  py_sum (List.map chg (members Declining cs)) <= 0.
Proof.
  apply py_sum_nonpos, Forall_forall.
  intros x (c & <- & Hc)%list_elem_of_In%in_map_iff.
  apply filter_In in Hc as [_ Hb]. apply bool_decide_eq_true in Hb.
  pose proof (bucket_of_facts c) as H. rewrite Hb in H. lra.
Qed.

(** Customer by customer: what the bridge takes from and adds to the
    prior figure makes the current one, provided a customer marked as
    churned has no current revenue. *)
Lemma bridge_sums cs :
  (∀ c, c ∈ cs → churned c = true → cur_v c == 0) →
  py_sum (List.map pre_v cs)
  - py_sum (List.map pre_v (members Churned cs))
  + py_sum (List.map chg (members Declining cs))
  + py_sum (List.map chg (members Growing cs))
  + py_sum (List.map cur_v (members New cs))
  == py_sum (List.map cur_v cs).
Proof.
  induction cs as [|c cs IH]; intros Hm; [reflexivity |].
  assert (IH' := IH (fun c' H => Hm c' (list_elem_of_further _ _ _ H))). clear IH.
  assert (Hc := Hm c (list_elem_of_here _ _)). clear Hm.
  pose proof (bucket_of_facts c) as Hf.
  rewrite !in_bucket_cons.
  destruct (bucket_of curr prev c); simpl; rewrite ?py_sum_cons.
  - assert (get0 (ltm c) curr == 0) by (destruct Hf; auto). lra.
  - lra.
  - lra.
  - lra.
  - lra.
Qed.

(** In exact arithmetic the figures of the bridge reconcile: for a
    dataset whose trend table is the one [parse_master] derives from its
    customers, and in which a customer carrying the churn marker has no
    revenue in the current period, prior total, less churn loss and
    decline loss, plus growth gain and new-customer gain, is the current
    total. *)
Lemma bridge_figures_reconcile (data : master_data) :
  ltm_trend data = ltm_trend_of (customers data) →
  (∀ c, c ∈ customers data → churned c = true → get0 (ltm c) curr == 0) →
  let b := bridge_figures data curr prev in
  bridge_result b == total_ltm b.
Proof.
  intros Htrend Hmarked b.
  unfold bridge_result, b, bridge_figures, analyze_cohorts. simpl.
  rewrite cohort_fold. simpl. rewrite Htrend, !get0_ltm_trend_of.
  unfold sorted_desc_Q, sorted_asc_Q. rewrite !py_sum_sorted, !map_map. simpl.
  rewrite (Qabs_neg _ (declining_sum_nonpos (customers data))).
  rewrite <- (bridge_sums (customers data) Hmarked). lra.
Qed.

(** A customer of the churned bucket has a row in the churned list. *)
Lemma churned_row_exists (data : master_data) c :
  c ∈ customers data → bucket_of curr prev c = Churned →
  ∃ x l, cohort_churned (analyze_cohorts data curr prev) = x :: l.
Proof.
  intros Hc Hb.
  assert (churn_row_of curr prev c ∈ cohort_churned (analyze_cohorts data curr prev)) as H.
  { unfold analyze_cohorts. rewrite cohort_fold. simpl.
    apply elem_of_py_sorted, list_elem_of_In, in_map, filter_In.
    split; [by apply list_elem_of_In | by apply bool_decide_eq_true]. }
  destruct (cohort_churned _) as [|x l]; [by apply elem_of_nil in H | eauto].
Qed.

Lemma no_churned_row (data : master_data) :
  cohort_churned (analyze_cohorts data curr prev) = [] →
  ∀ c, c ∈ customers data → bucket_of curr prev c ≠ Churned.
Proof.
  intros Hnil c Hc Hb.
  destruct (churned_row_exists data c Hc Hb) as (x & l & H). by rewrite H in Hnil.
Qed.

(** What [generate_html] returns are the figures, and it returns them
    only for data without a churned customer and with a current total
    other than zero. *)
Lemma generate_html_returned (data : master_data) b :
  generate_html data curr prev = Ok b →
  b = bridge_figures data curr prev
  ∧ cohort_churned (analyze_cohorts data curr prev) = []
  ∧ ¬ total_ltm b == 0.
Proof.
  unfold generate_html. cbv zeta.
  destruct (forallb is_year_month _); [|done]. cbn [negb].
  destruct (cohort_churned _) as [|x l]; [|done].
  destruct (get_top20_cust data curr prev) as [|t ts];
    destruct (Qeq_bool (total_ltm (bridge_figures data curr prev)) 0) eqn:E;
    cbn [bind]; try done;
    (destruct (forallb _ (take 10 _)); [|done]);
    intros [= <-]; (split_and!; [done | done | by apply Qeq_bool_false]).
Qed.


End Bridge.


(** The figures themselves do not reconcile when a customer carries the
    churn marker and still has revenue: it is churned whatever it sells,
    its whole prior revenue is taken as churn loss, and with 100 before
    and 50 now the bridge comes to 0 against a current total of 50.  The
    call raises here as well. *)
Lemma marked_customer_with_revenue :
  let data := Sample.marked_but_active in
  let b := bridge_figures data "LTM 2025" "LTM 2024" in
  Forall (fun c => bucket_of "LTM 2025" "LTM 2024" c = Churned) (customers data)
  ∧ ltm_trend data = ltm_trend_of (customers data)
  ∧ (churn_loss b == 100)%Q
  ∧ (bridge_result b == 0)%Q
  ∧ (total_ltm b == 50)%Q
  ∧ generate_html data "LTM 2025" "LTM 2024" = Raise TypeError.
Proof.
  intros data b. split; [by repeat constructor |]. split; [reflexivity |].
  split; [by vm_compute |]. split; [by vm_compute |]. split; by vm_compute.
Qed.

(** The buckets of the mixed sample. *)
Lemma cohorts_partition_customers_witness :
  let data := Sample.mixed in
  let r := analyze_cohorts data "LTM 2025" "LTM 2024" in
  NoDup (List.map kund (customers data))
  ∧ NoDup (bucket_names r Churned ++ bucket_names r Declining ++ bucket_names r Growing
           ++ bucket_names r New
           ++ List.map kund (in_bucket Flat "LTM 2025" "LTM 2024" (customers data)))
  ∧ bucket_names r Churned = ["A"; "F"]%string
  ∧ bucket_names r New = ["B"%string].
Proof.
  intros data r.
  assert (Hnd : NoDup (List.map kund (customers data))).
  { refine (bool_decide_unpack _ _). by vm_compute. }
  split; [exact Hnd |]. split; [|by split].
  by apply (cohorts_partition_customers "LTM 2025" "LTM 2024" data).
Defined.

(** ** Material movements (v2) *)

Section MaterialMovements.

Local Open Scope Q_scope.

Lemma elem_of_List_filter {A : Type} (f : A → bool) l x :
  x ∈ List.filter f l ↔ x ∈ l ∧ f x = true.
Proof. by rewrite !list_elem_of_In, filter_In. Qed.

(** The churned, declining and new lists of the material variant stay
    within the base classification (for customers whose change is the
    difference of their two figures, as [parse_sales_master] builds
    them); a customer of the growing list is growing in the base
    classification too, unless it had nothing before: then it is new. *)
Lemma material_buckets_within_base custs c :
  change c == ltm_now c - ltm_prev c →
  let r := analyze_sales_intelligence custs in
  (c ∈ intel_churned r → base_bucket (ltm_prev c) (ltm_now c) = Churned)
  ∧ (c ∈ intel_declining r → base_bucket (ltm_prev c) (ltm_now c) = Declining)
  ∧ (c ∈ new_customers r → base_bucket (ltm_prev c) (ltm_now c) = New)
  ∧ (c ∈ intel_growing r →
     base_bucket (ltm_prev c) (ltm_now c) = Growing
     ∨ (ltm_prev c == 0 ∧ base_bucket (ltm_prev c) (ltm_now c) = New)).
Proof.
  intros Hchg r. unfold r, analyze_sales_intelligence, base_bucket. simpl.
  unfold sorted_desc_Q, sorted_asc_Q. rewrite !elem_of_py_sorted, !elem_of_List_filter.
  split_and!.
  - intros [_ [H1 H2]%andb_true_iff].
    apply Qgtb_gt in H1. rewrite H2, andb_true_r.
    destruct (Qgtb (ltm_prev c) 0) eqn:E; [done |]. apply Qgtb_le in E. lra.
  - intros [_ [[H1 H2]%andb_true_iff H3]%andb_true_iff].
    apply Qgtb_gt in H1, H2. apply Qltb_lt in H3.
    destruct (Qeq_bool (ltm_now c) 0) eqn:E1; [apply Qeq_bool_iff in E1; lra |].
    rewrite andb_false_r.
    destruct (Qeq_bool (ltm_prev c) 0) eqn:E2; [apply Qeq_bool_iff in E2; lra |].
    simpl. destruct (Qltb (ltm_now c - ltm_prev c) 0) eqn:E3; [done |].
    apply Qltb_ge in E3. lra.
  - intros [_ [H1 H2]%andb_true_iff].
    apply Qeq_bool_iff in H1. apply Qgtb_gt in H2.
    destruct (Qgtb (ltm_prev c) 0) eqn:E; [apply Qgtb_gt in E; lra |]. simpl.
    assert (Qeq_bool (ltm_prev c) 0 = true) as -> by by apply Qeq_bool_iff.
    destruct (Qgtb (ltm_now c) 0) eqn:E2; [done |]. apply Qgtb_le in E2. lra.
  - intros [_ H%Qgtb_gt].
    destruct (Qgtb (ltm_prev c) 0 && Qeq_bool (ltm_now c) 0) eqn:E1.
    { apply andb_true_iff in E1 as [E1%Qgtb_gt E1'%Qeq_bool_iff]. lra. }
    destruct (Qeq_bool (ltm_prev c) 0 && Qgtb (ltm_now c) 0) eqn:E2.
    { apply andb_true_iff in E2 as [E2%Qeq_bool_iff _]. by right. }
    left. destruct (Qltb (ltm_now c - ltm_prev c) 0) eqn:E3; [apply Qltb_lt in E3; lra |].
    destruct (Qgtb (ltm_now c - ltm_prev c) 0) eqn:E4; [done |]. apply Qgtb_le in E4. lra.
Qed.

End MaterialMovements.

(** C5 at its failing input: a customer with nothing before and 30 000
    now is a new customer of the base classification, and the material
    variant lists it as new and as growing, and counts its revenue in
    both sums. *)
Lemma new_customer_is_also_growing :
  let c := sales_customer_of "A" 30000 0 in
  let r := analyze_sales_intelligence [c] in
  base_bucket (ltm_prev c) (ltm_now c) = New
  ∧ new_customers r = [c] ∧ intel_growing r = [c]
  ∧ (new_revenue r == 30000)%Q ∧ (growth_revenue r == 30000)%Q.
Proof. by vm_compute. Qed.

(** * Further properties *)

Lemma py_sum_nil : py_sum [] = 0%Q.
Proof. reflexivity. Qed.

Lemma py_sum_app l1 l2 : (py_sum (l1 ++ l2) == py_sum l1 + py_sum l2)%Q.
Proof.
  induction l1 as [|x l1 IH]; simpl; [rewrite py_sum_nil; lra |].
  rewrite !py_sum_cons, IH. lra.
Qed.

(** ** Currency codes *)

Section Currency.

Variable str_of_number : Q → string.
Variable str_of_datetime : Z → string.

Lemma app_fx_get_sek e u g : fx_get (app_fx_rates e u g) "SEK" = 1%Q.
Proof. unfold fx_get, app_fx_rates. by rewrite lookup_insert_eq. Qed.

Lemma app_fx_get_eur e u g : fx_get (app_fx_rates e u g) "EUR" = e.
Proof.
  unfold fx_get, app_fx_rates.
  rewrite lookup_insert_ne by discriminate. by rewrite lookup_insert_eq.
Qed.

Lemma app_fx_get_usd e u g : fx_get (app_fx_rates e u g) "USD" = u.
Proof.
  unfold fx_get, app_fx_rates.
  rewrite !lookup_insert_ne by discriminate. by rewrite lookup_insert_eq.
Qed.

Lemma app_fx_get_gbp e u g : fx_get (app_fx_rates e u g) "GBP" = g.
Proof.
  unfold fx_get, app_fx_rates.
  rewrite !lookup_insert_ne by discriminate. by rewrite lookup_insert_eq.
Qed.

Lemma is_currency_code_known s : Regex.is_currency_code s = true → known_currency s.
Proof.
  unfold Regex.is_currency_code, known_currency.
  rewrite !orb_true_iff, !String.eqb_eq. tauto.
Qed.

Lemma clean_amount_currency raw_value x cur :
  clean_amount_with_currency str_of_number str_of_datetime raw_value = Some (x, cur) →
  known_currency cur.
Proof.
  destruct (cell_none_dec raw_value) as [->|Hn]; [done |].
  rewrite clean_amount_rule by done.
  destruct (Regex.match_amount _) as [[g1 g2]|] eqn:Hm; [|done].
  destruct (Float.py_float _); [|done]. intros [= _ <-].
  unfold Regex.match_amount in Hm.
  destruct (Str.span Regex.amount_char _) as [a b].
  destruct (Str.is_empty a); [done |].
  destruct (Str.span Char.is_space b) as [? rest]. injection Hm as _ <-.
  unfold currency_of, Regex.currency_group.
  destruct (Regex.is_currency_code _) eqn:E; [by apply is_currency_code_known | by left].
Qed.

(** X1. For a cell text of Latin-1 characters, as the texts of this
    model are, the currency an amount is reported in is one of SEK, EUR,
    USD and GBP, in capitals; so with the rate table the application
    builds, every row that is kept is converted with a rate of that
    table (1.0, the EUR, USD or GBP rate) and the fallback for a missing
    code is not taken. *)
Theorem order_currency_is_known (ws : worksheet) (eur usd gbp : Q) :
  (∀ raw_value x cur,
      clean_amount_with_currency str_of_number str_of_datetime raw_value = Some (x, cur) →
      known_currency cur)
  ∧ ∀ row amt cur sek,
      row_amounts (parse_order_row str_of_number str_of_datetime ws
                     (app_fx_rates eur usd gbp) row) = Some (amt, cur, sek) →
      (cur = "SEK"%string ∧ sek = to_sek amt 1)
      ∨ (cur = "EUR"%string ∧ sek = to_sek amt eur)
      ∨ (cur = "USD"%string ∧ sek = to_sek amt usd)
      ∨ (cur = "GBP"%string ∧ sek = to_sek amt gbp).
Proof.
  split; [apply clean_amount_currency |].
  intros row amt cur sek Hrow. rewrite parse_order_row_amounts in Hrow.
  destruct (clean_amount_with_currency _ _ _) as [[amt' cur']|] eqn:Ha; [|done].
  injection Hrow as -> -> <-. apply clean_amount_currency in Ha.
  destruct Ha as [-> | [-> | [-> | ->]]].
  - left. by rewrite app_fx_get_sek.
  - right; left. by rewrite app_fx_get_eur.
  - do 2 right; left. by rewrite app_fx_get_usd.
  - do 3 right. by rewrite app_fx_get_gbp.
Qed.

End Currency.

(** ** The sheet resolver, in general *)

Lemma getitem_in wb a ws : getitem wb a = Ok ws → ws ∈ wb.
Proof.
  unfold getitem. destruct (List.find _ wb) as [w|] eqn:E; [|done].
  intros [= <-]. apply find_some in E as [Hin _]. by apply list_elem_of_In.
Qed.

(** X2. [find_sheet] never raises: the name it looks up is a name of the
    workbook.  A sheet it returns is a sheet of the workbook, and it
    returns null only when no candidate matches and the workbook does not
    have exactly one sheet. *)
Theorem find_sheet_never_raises (wb : list worksheet) (names : list string) :
  ∃ r, find_sheet wb names = Ok r
       ∧ (∀ ws, r = Some ws → ws ∈ wb)
       ∧ (r = None → (∀ c, c ∈ names → ¬ matches_sheet wb c) ∧ length wb ≠ 1%nat).
Proof.
  unfold find_sheet. induction names as [|c names IH].
  - simpl. destruct wb as [|w [|w' wb']]; simpl.
    + exists None. split_and!; [done | done |]. intros _. split; [|done].
      intros c Hc. by apply elem_of_nil in Hc.
    + unfold getitem. simpl. rewrite String.eqb_refl. simpl.
      exists (Some w). split_and!; [done | | done]. intros ws [= <-]. by left.
    + exists None. split_and!; [done | done |]. intros _. split; [|done].
      intros c Hc. by apply elem_of_nil in Hc.
  - simpl. destruct (lower_index (sheetnames wb) !! Str.lower c) as [a|] eqn:E.
    + apply lower_index_some in E as [Ha _].
      destruct (getitem_present wb a Ha) as (ws & Hg & Hin & _).
      rewrite Hg. simpl. exists (Some ws). split_and!; [done | | done].
      by intros ? [= <-].
    + destruct IH as (r & Hr & Hin & Hnone). exists r. split_and!; [done | done |].
      intros Hn. destruct (Hnone Hn) as [Hno Hlen]. split; [|done].
      intros c' [-> | Hc']%elem_of_cons; [by apply no_match_lookup | by apply Hno].
Qed.

(** ** Sorting by a rational key *)

Section SortingQ.

Context {A : Type} (key : A → Q).

Lemma sorted_desc_Q_sorted l :
  StronglySorted (fun a b => (key b <= key a)%Q) (sorted_desc_Q key l).
Proof.
  unfold sorted_desc_Q, py_sorted. induction l as [|x l IH]; simpl; [constructor |].
  revert IH. generalize (foldr (insert_sorted (fun y x0 => Qgtb (key y) (key x0))) [] l).
  intros s. induction 1 as [|y s Hs IH Hy]; simpl.
  - by repeat constructor.
  - destruct (Qgtb (key y) (key x)) eqn:E.
    + apply Qgtb_gt in E. constructor; [done |].
      rewrite insert_sorted_perm. constructor; [by apply Qlt_le_weak | done].
    + apply Qgtb_le in E. constructor; [by constructor |].
      constructor; [done |]. eapply Forall_impl; [exact Hy |]. simpl.
      intros z Hz. by apply Qle_trans with (key y).
Qed.

Lemma sorted_asc_Q_sorted l :
  StronglySorted (fun a b => (key a <= key b)%Q) (sorted_asc_Q key l).
Proof.
  unfold sorted_asc_Q, py_sorted. induction l as [|x l IH]; simpl; [constructor |].
  revert IH. generalize (foldr (insert_sorted (fun y x0 => Qltb (key y) (key x0))) [] l).
  intros s. induction 1 as [|y s Hs IH Hy]; simpl.
  - by repeat constructor.
  - destruct (Qltb (key y) (key x)) eqn:E.
    + apply Qltb_lt in E. constructor; [done |].
      rewrite insert_sorted_perm. constructor; [by apply Qlt_le_weak | done].
    + apply Qltb_ge in E. constructor; [by constructor |].
      constructor; [done |]. eapply Forall_impl; [exact Hy |]. simpl.
      intros z Hz. by apply Qle_trans with (key y).
Qed.

(** Of a list sorted with the larger keys first, the first [n] elements
    have keys at least as large as all the others. *)
Lemma take_of_sorted_dominates n (l : list A) x y :
  StronglySorted (fun a b => (key b <= key a)%Q) l →
  x ∈ take n l → y ∈ drop n l → (key y <= key x)%Q.
Proof.
  intros Hs. revert n. induction Hs as [|z l Hl IH Hz]; intros n Hx Hy.
  - rewrite take_nil in Hx. by apply elem_of_nil in Hx.
  - destruct n as [|n]; simpl in *; [by apply elem_of_nil in Hx |].
    apply elem_of_cons in Hx as [-> | Hx]; [|by apply (IH n)].
    rewrite Forall_forall in Hz. apply Hz. by apply (subseteq_drop n l).
Qed.

End SortingQ.

Lemma StronglySorted_take {A : Type} (R : A → A → Prop) n l :
  StronglySorted R l → StronglySorted R (take n l).
Proof.
  intros H. revert n. induction H as [|x l Hl IH Hx]; intros [|n]; simpl; try constructor.
  - apply IH.
  - by apply Forall_take.
Qed.

Lemma elem_of_filter_bool {A : Type} (f : A → bool) l x :
  x ∈ List.filter f l ↔ x ∈ l ∧ f x = true.
Proof. by rewrite !list_elem_of_In, filter_In. Qed.

Lemma filter_none {A : Type} (f : A → bool) l :
  (∀ x, x ∈ l → f x = false) → List.filter f l = [].
Proof.
  induction l as [|x l IH]; intros H; simpl; [done |].
  rewrite (H x) by by left. apply IH. intros y Hy. apply H. by right.
Qed.

Lemma filter_all {A : Type} (f : A → bool) l :
  (∀ x, x ∈ l → f x = true) → List.filter f l = l.
Proof.
  induction l as [|x l IH]; intros H; simpl; [done |].
  rewrite (H x) by by left. f_equal. apply IH. intros y Hy. apply H. by right.
Qed.

Lemma filter_split_perm {A : Type} (f : A → bool) l :
  l ≡ₚ List.filter (fun x => negb (f x)) l ++ List.filter f l.
Proof.
  induction l as [|x l IH]; simpl; [done |].
  destruct (f x); simpl; [by rewrite <- Permutation_middle, <- IH | by rewrite <- IH].
Qed.

(** ** Week over week *)

Section WeekOverWeek.

Lemma cell_eqb_refl a : cell_eqb a a = true.
Proof.
  destruct a; simpl; [done | by apply Qeq_bool_iff | apply String.eqb_refl | apply Z.eqb_refl].
Qed.

Lemma cell_eqb_sym a b : cell_eqb a b = cell_eqb b a.
Proof.
  destruct a, b; simpl; try done.
  - apply eq_true_iff_eq. rewrite !Qeq_bool_iff. split; intros H; by symmetry.
  - apply String.eqb_sym.
  - apply Z.eqb_sym.
Qed.

Lemma cell_eqb_trans a b c : cell_eqb a b = true → cell_eqb b c = true → cell_eqb a c = true.
Proof.
  destruct a, b, c; simpl; try done.
  - rewrite !Qeq_bool_iff. intros H1 H2. by rewrite H1.
  - rewrite !String.eqb_eq. congruence.
  - rewrite !Z.eqb_eq. congruence.
Qed.

Lemma id_in_spec x ids : id_in x ids = true ↔ ∃ y, y ∈ ids ∧ cell_eqb x y = true.
Proof.
  unfold id_in. rewrite existsb_exists. by setoid_rewrite list_elem_of_In.
Qed.

Lemma id_in_equal x y ids : cell_eqb x y = true → id_in x ids = id_in y ids.
Proof.
  intros H. apply eq_true_iff_eq. rewrite !id_in_spec.
  split; intros (z & Hz & E); exists z; (split; [done |]).
  - apply cell_eqb_trans with x; [by rewrite cell_eqb_sym | done].
  - by apply cell_eqb_trans with y.
Qed.

Lemma id_in_own (o : order) l : o ∈ l → id_in (ordernr o) (List.map ordernr l) = true.
Proof.
  intros Ho. apply id_in_spec. exists (ordernr o). split; [|apply cell_eqb_refl].
  apply list_elem_of_In, in_map, list_elem_of_In, Ho.
Qed.

Lemma id_in_difference x a b :
  id_in x (ids_difference a b) = id_in x a && negb (id_in x b).
Proof.
  apply eq_true_iff_eq. rewrite andb_true_iff, negb_true_iff, !id_in_spec.
  unfold ids_difference. setoid_rewrite elem_of_filter_bool. split.
  - intros (y & [Hy Hb] & E). split; [eauto |].
    rewrite (id_in_equal x y) by done. by apply negb_true_iff.
  - intros [(y & Hy & E) Hb]. exists y. split; [|done]. split; [done |].
    rewrite <- (id_in_equal x y) by done. by apply negb_true_iff.
Qed.

Lemma id_in_intersection x a b :
  id_in x (ids_intersection a b) = id_in x a && id_in x b.
Proof.
  apply eq_true_iff_eq. rewrite andb_true_iff, !id_in_spec.
  unfold ids_intersection. setoid_rewrite elem_of_filter_bool. split.
  - intros (y & [Hy Hb] & E). split; [eauto |].
    rewrite <- id_in_spec, (id_in_equal x y) by done. done.
  - intros [(y & Hy & E) Hb]. exists y. split; [|done]. split; [done |].
    rewrite <- (id_in_equal x y) by done. by apply id_in_spec.
Qed.

Lemma filter_agree {A : Type} (f g : A → bool) l :
  (∀ x, x ∈ l → f x = g x) → List.filter f l = List.filter g l.
Proof. intros H. apply filter_ext_in. intros x Hx. by apply H, list_elem_of_In. Qed.

(** The three lists, without the detour over the sets of numbers. *)
Lemma week_over_week_lists current previous :
  let r := analyze_week_over_week current previous in
  wow_orders (wow_new r)
    = List.filter (fun o => negb (id_in (ordernr o) (List.map ordernr previous))) current
  ∧ wow_orders (wow_unchanged r)
    = List.filter (fun o => id_in (ordernr o) (List.map ordernr previous)) current
  ∧ wow_orders (wow_closed r)
    = List.filter (fun o => negb (id_in (ordernr o) (List.map ordernr current))) previous.
Proof.
  simpl. split_and!; apply filter_agree; intros o Ho.
  - by rewrite id_in_difference, (id_in_own o current Ho).
  - by rewrite id_in_intersection, (id_in_own o current Ho).
  - by rewrite id_in_difference, (id_in_own o previous Ho).
Qed.

Lemma List_filter_sublist {A : Type} (f : A → bool) l : sublist (List.filter f l) l.
Proof.
  induction l as [|x l IH]; simpl; [constructor |].
  destruct (f x); by constructor.
Qed.

(** X3. Week over week, every order of the current book is either new
    (its number is in no order of the previous book) or unchanged, never
    both.  The two lists keep the orders in the order of the book: they
    are what is left of the book when the others are struck out.
    Together they are a rearrangement of the current book, and their
    counts add up to its length. *)
Theorem week_over_week_splits_current (current previous : list order) :
  let r := analyze_week_over_week current previous in
  (∀ o, o ∈ wow_orders (wow_new r) ↔
        o ∈ current ∧ ∀ p, p ∈ previous → cell_eqb (ordernr o) (ordernr p) = false)
  ∧ (∀ o, o ∈ wow_orders (wow_unchanged r) ↔
          o ∈ current ∧ ∃ p, p ∈ previous ∧ cell_eqb (ordernr o) (ordernr p) = true)
  ∧ (∀ o, o ∈ wow_orders (wow_new r) → o ∈ wow_orders (wow_unchanged r) → False)
  ∧ wow_orders (wow_new r)
    = List.filter (fun o => negb (id_in (ordernr o) (List.map ordernr previous))) current
  ∧ wow_orders (wow_unchanged r)
    = List.filter (fun o => id_in (ordernr o) (List.map ordernr previous)) current
  ∧ sublist (wow_orders (wow_new r)) current
  ∧ sublist (wow_orders (wow_unchanged r)) current
  ∧ current ≡ₚ wow_orders (wow_new r) ++ wow_orders (wow_unchanged r)
  ∧ (wow_count (wow_new r) + wow_count (wow_unchanged r))%nat = length current.
Proof.
  intros r. destruct (week_over_week_lists current previous) as (Hn & Hu & _).
  fold r in Hn, Hu.
  assert (Hperm : current ≡ₚ wow_orders (wow_new r) ++ wow_orders (wow_unchanged r)).
  { rewrite Hn, Hu. apply filter_split_perm. }
  split_and!.
  - intros o. rewrite Hn, elem_of_filter_bool, negb_true_iff.
    rewrite <- not_true_iff_false, id_in_spec. split.
    + intros [Ho Hno]. split; [done |]. intros p Hp.
      apply not_true_iff_false. intros E. apply Hno. exists (ordernr p). split; [|done].
      apply list_elem_of_In, in_map, list_elem_of_In, Hp.
    + intros [Ho Hno]. split; [done |].
      intros (y & (p & <- & Hp)%list_elem_of_In%in_map_iff & E).
      apply list_elem_of_In in Hp. by rewrite (Hno p Hp) in E.
  - intros o. rewrite Hu, elem_of_filter_bool, id_in_spec. split.
    + intros [Ho (y & (p & <- & Hp)%list_elem_of_In%in_map_iff & E)].
      split; [done |]. exists p. split; [by apply list_elem_of_In | done].
    + intros [Ho (p & Hp & E)]. split; [done |]. exists (ordernr p). split; [|done].
      apply list_elem_of_In, in_map, list_elem_of_In, Hp.
  - intros o. rewrite Hn, Hu, !elem_of_filter_bool, negb_true_iff.
    intros [_ H1] [_ H2]. by rewrite H1 in H2.
  - exact Hn.
  - exact Hu.
  - rewrite Hn. apply List_filter_sublist.
  - rewrite Hu. apply List_filter_sublist.
  - exact Hperm.
  - change (length (wow_orders (wow_new r)) + length (wow_orders (wow_unchanged r))
            = length current)%nat.
    by rewrite <- length_app, <- Hperm.
Qed.

(** X4. A closed order is an order of the previous book whose number is
    in no order of the current book.  Comparing a book with itself gives
    no new and no closed order, all orders unchanged and a net change of
    zero in count and amount. *)
Theorem week_over_week_closed_and_same_book (current previous : list order) :
  let r := analyze_week_over_week current previous in
  (∀ o, o ∈ wow_orders (wow_closed r) ↔
        o ∈ previous ∧ ∀ c, c ∈ current → cell_eqb (ordernr o) (ordernr c) = false)
  ∧ net_count r = (Z.of_nat (wow_count (wow_new r)) - Z.of_nat (wow_count (wow_closed r)))%Z
  ∧ (let same := analyze_week_over_week current current in
     wow_orders (wow_new same) = [] ∧ wow_orders (wow_closed same) = []
     ∧ wow_orders (wow_unchanged same) = current
     ∧ net_count same = 0%Z ∧ (net_amount same == 0)%Q).
Proof.
  intros r. destruct (week_over_week_lists current previous) as (_ & _ & Hc).
  fold r in Hc. split_and!.
  - intros o. rewrite Hc, elem_of_filter_bool, negb_true_iff.
    rewrite <- not_true_iff_false, id_in_spec. split.
    + intros [Ho Hno]. split; [done |]. intros p Hp.
      apply not_true_iff_false. intros E. apply Hno. exists (ordernr p). split; [|done].
      apply list_elem_of_In, in_map, list_elem_of_In, Hp.
    + intros [Ho Hno]. split; [done |].
      intros (y & (p & <- & Hp)%list_elem_of_In%in_map_iff & E).
      apply list_elem_of_In in Hp. by rewrite (Hno p Hp) in E.
  - reflexivity.
  - destruct (week_over_week_lists current current) as (Hn & Hu & Hcl).
    set (same := analyze_week_over_week current current) in *.
    assert (En : wow_orders (wow_new same) = []).
    { rewrite Hn. apply filter_none. intros o Ho.
      by rewrite (id_in_own o current Ho). }
    assert (Ecl : wow_orders (wow_closed same) = []).
    { rewrite Hcl. apply filter_none. intros o Ho.
      by rewrite (id_in_own o current Ho). }
    assert (Eu : wow_orders (wow_unchanged same) = current).
    { rewrite Hu. apply filter_all. intros o Ho. by apply id_in_own. }
    split_and!; try done.
    + change (Z.of_nat (length (wow_orders (wow_new same)))
              - Z.of_nat (length (wow_orders (wow_closed same))) = 0)%Z.
      by rewrite En, Ecl.
    + change (py_sum (List.map belopp_sek (wow_orders (wow_new same)))
              - py_sum (List.map belopp_sek (wow_orders (wow_closed same))) == 0)%Q.
      rewrite En, Ecl. by compute.
Qed.

End WeekOverWeek.

(** ** Large orders *)

(** X5. [analyze_large_orders] returns exactly the orders whose amount in
    SEK is strictly above the threshold, each once, the largest first; an
    order of exactly the threshold (by default 100 000) is not reported. *)
Theorem large_orders_are_strictly_above (orders : list order) (threshold : Q) :
  let large := analyze_large_orders orders threshold in
  (∀ o, o ∈ large ↔ o ∈ orders ∧ (threshold < belopp_sek o)%Q)
  ∧ large ≡ₚ List.filter (fun o => Qgtb (belopp_sek o) threshold) orders
  ∧ StronglySorted (fun a b => (belopp_sek b <= belopp_sek a)%Q) large
  ∧ (∀ o, (belopp_sek o == threshold)%Q → o ∉ large).
Proof.
  intros large. unfold large, analyze_large_orders.
  assert (Hin : ∀ o, o ∈ sorted_desc_Q belopp_sek
                         (List.filter (fun o => Qgtb (belopp_sek o) threshold) orders)
                     ↔ o ∈ orders ∧ (threshold < belopp_sek o)%Q).
  { intros o. unfold sorted_desc_Q.
    by rewrite elem_of_py_sorted, elem_of_filter_bool, Qgtb_gt. }
  split_and!.
  - exact Hin.
  - apply py_sorted_perm.
  - apply sorted_desc_Q_sorted.
  - intros o Ho [_ Hlt]%Hin. rewrite Ho in Hlt. by apply Qlt_irrefl in Hlt.
Qed.

(** ** Grouping by customer *)

Section Grouping.

Local Open Scope Q_scope.

Lemma total_for_cons k e d :
  total_for k (e :: d)
  == (if cell_eqb (fst e) k then snd e else 0) + total_for k d.
Proof.
  unfold total_for. simpl. destruct (cell_eqb (fst e) k); simpl.
  - by rewrite py_sum_cons.
  - lra.
Qed.

Lemma cell_eqb_equal a b k : cell_eqb a b = true → cell_eqb a k = cell_eqb b k.
Proof.
  intros H. apply eq_true_iff_eq. split; intros E.
  - apply cell_eqb_trans with a; [by rewrite cell_eqb_sym | done].
  - by apply cell_eqb_trans with b.
Qed.

Lemma total_for_dict_add k0 k v d :
  total_for k0 (dict_add k v d)
  == total_for k0 d + (if cell_eqb k k0 then v else 0).
Proof.
  induction d as [|[k' w] d IH]; simpl.
  - rewrite total_for_cons. simpl. unfold total_for. simpl. rewrite py_sum_nil.
    destruct (cell_eqb k k0); lra.
  - destruct (cell_eqb k' k) eqn:E.
    + rewrite !total_for_cons. simpl. rewrite <- (cell_eqb_equal _ _ k0 E).
      destruct (cell_eqb k' k0); lra.
    + rewrite !total_for_cons, IH. simpl. lra.
Qed.

Lemma amounts_of_cons k o orders :
  py_sum (amounts_of k (o :: orders))
  == (if cell_eqb (kundnamn o) k then belopp_sek o else 0) + py_sum (amounts_of k orders).
Proof.
  unfold amounts_of. simpl. destruct (cell_eqb (kundnamn o) k); simpl.
  - by rewrite py_sum_cons.
  - lra.
Qed.

Lemma total_for_fold k orders d :
  total_for k (foldl (fun d o => dict_add (kundnamn o) (belopp_sek o) d) d orders)
  == total_for k d + py_sum (amounts_of k orders).
Proof.
  revert d. induction orders as [|o orders IH]; intros d; simpl.
  - unfold amounts_of. simpl. rewrite py_sum_nil. lra.
  - rewrite IH, total_for_dict_add, amounts_of_cons. lra.
Qed.

Lemma dict_add_keys k v d :
  (∃ w, (k, w) ∈ dict_add k v d ∨ ∃ k', (k', w) ∈ dict_add k v d ∧ cell_eqb k' k = true)
  ∧ ∀ e, e ∈ dict_add k v d →
         (∃ w, (fst e, w) ∈ d) ∨ (fst e = k ∧ ∀ e', e' ∈ d → cell_eqb (fst e') k = false).
Proof.
  induction d as [|[k' w] d [IH1 IH2]]; simpl.
  - split; [exists (0 + v); left; by left |].
    intros e ->%list_elem_of_singleton. right. split; [done |].
    intros e' He'. by apply elem_of_nil in He'.
  - destruct (cell_eqb k' k) eqn:E.
    + split; [exists (w + v); right; exists k'; split; [by left | done] |].
      intros e [-> | He]%elem_of_cons; left; simpl.
      * exists w. by left.
      * exists (snd e). right. by destruct e.
    + split.
      * destruct IH1 as [w' [H | (k'' & H & E')]]; exists w'.
        -- left. by right.
        -- right. exists k''. split; [by right | done].
      * intros e [-> | He]%elem_of_cons.
        -- left. exists w. by left.
        -- destruct (IH2 e He) as [[w' Hw] | [Hk Hno]].
           ++ left. exists w'. by right.
           ++ right. split; [done |].
              intros e' [-> | He']%elem_of_cons; [done | by apply Hno].
Qed.

Lemma dict_add_distinct k v d : distinct_keys d → distinct_keys (dict_add k v d).
Proof.
  unfold distinct_keys. induction 1 as [|[k' w] d Hk Hd IH]; simpl.
  - repeat constructor.
  - destruct (cell_eqb k' k) eqn:E.
    + constructor; [|done]. exact Hk.
    + constructor; [|done]. apply Forall_forall. intros e He. simpl.
      destruct (proj2 (dict_add_keys k v d) e He) as [[w' Hw] | [-> _]]; [|done].
      rewrite Forall_forall in Hk. exact (Hk _ Hw).
Qed.

Lemma customer_totals_distinct orders : distinct_keys (customer_totals orders).
Proof.
  unfold customer_totals.
  assert (H : ∀ d, distinct_keys d →
                   distinct_keys (foldl (fun d o => dict_add (kundnamn o) (belopp_sek o) d)
                                        d orders)).
  { induction orders as [|o orders IH]; intros d Hd; simpl; [done |].
    by apply IH, dict_add_distinct. }
  apply H. constructor.
Qed.

Lemma total_for_entry d k v : distinct_keys d → (k, v) ∈ d → total_for k d == v.
Proof.
  unfold distinct_keys. induction 1 as [|e d He Hd IH]; intros Hin.
  - by apply elem_of_nil in Hin.
  - rewrite total_for_cons. apply elem_of_cons in Hin as [<- | Hin].
    + simpl. rewrite cell_eqb_refl.
      assert (total_for k d == 0) as ->; [|lra].
      unfold total_for.
      replace (List.filter (fun e => cell_eqb (fst e) k) d) with (@nil (cell * Q)); [done |].
      symmetry. apply filter_none. intros e He'.
      rewrite Forall_forall in He. specialize (He e He').
      simpl in He. by rewrite cell_eqb_sym.
    + rewrite (IH Hin). rewrite Forall_forall in He. specialize (He _ Hin). simpl in He.
      rewrite He. lra.
Qed.

Lemma fold_keys_from_orders orders d e :
  e ∈ foldl (fun d o => dict_add (kundnamn o) (belopp_sek o) d) d orders →
  (∃ w, (fst e, w) ∈ d) ∨ ∃ o, o ∈ orders ∧ kundnamn o = fst e.
Proof.
  revert d. induction orders as [|o orders IH]; intros d He; simpl in He.
  - left. exists (snd e). by destruct e.
  - apply IH in He as [[w Hw] | (o' & Ho' & Hk)].
    + destruct (proj2 (dict_add_keys (kundnamn o) (belopp_sek o) d) _ Hw) as [H | [H _]].
      * by left.
      * right. exists o. split; [by left | by symmetry].
    + right. exists o'. split; [by right | done].
Qed.

Lemma dict_add_has k v d :
  ∃ k' w, (k', w) ∈ dict_add k v d ∧ cell_eqb k' k = true.
Proof.
  induction d as [|[k' w] d (k1 & w1 & H1 & E1)]; simpl.
  - exists k, (0 + v)%Q. split; [by left | apply cell_eqb_refl].
  - destruct (cell_eqb k' k) eqn:E.
    + exists k', (w + v)%Q. split; [by left | done].
    + exists k1, w1. split; [by right | done].
Qed.

Lemma dict_add_preserves k v d k0 w :
  (k0, w) ∈ d → ∃ w', (k0, w') ∈ dict_add k v d.
Proof.
  induction d as [|[k' w1] d IH]; intros Hin; [by apply elem_of_nil in Hin |]. simpl.
  apply elem_of_cons in Hin as [[= -> ->] | Hin].
  - destruct (cell_eqb k' k); eexists; by left.
  - destruct (cell_eqb k' k).
    + exists w. by right.
    + destruct (IH Hin) as [w' Hw']. exists w'. by right.
Qed.

Lemma fold_preserves orders d k0 w :
  (k0, w) ∈ d →
  ∃ w', (k0, w') ∈ foldl (fun d o => dict_add (kundnamn o) (belopp_sek o) d) d orders.
Proof.
  revert d w. induction orders as [|o orders IH]; intros d w Hin; simpl; [eauto |].
  destruct (dict_add_preserves (kundnamn o) (belopp_sek o) d k0 w Hin) as [w' Hw'].
  by eapply IH.
Qed.

Lemma fold_has_key orders d o :
  o ∈ orders →
  ∃ k w, (k, w) ∈ foldl (fun d o => dict_add (kundnamn o) (belopp_sek o) d) d orders
         ∧ cell_eqb k (kundnamn o) = true.
Proof.
  revert d. induction orders as [|o' orders IH]; intros d Ho; [by apply elem_of_nil in Ho |].
  simpl. apply elem_of_cons in Ho as [-> | Ho]; [|by apply IH].
  destruct (dict_add_has (kundnamn o') (belopp_sek o') d) as (k & w & Hin & E).
  destruct (fold_preserves orders _ k w Hin) as [w' Hw']. by exists k, w'.
Qed.


End Grouping.

(** ** Concentration with a total that is not zero *)

Section Shares.

Local Open Scope Q_scope.

Lemma mapM_ok_map {A B : Type} (f : A → result B) (g : A → B) l :
  (∀ x, f x = Ok (g x)) → mapM f l = Ok (List.map g l).
Proof.
  intros H. induction l as [|x l IH]; simpl; [done |]. by rewrite H, IH.
Qed.


End Shares.


Lemma omap_length_le {A B : Type} (f : A → option B) (l : list A) :
  (length (omap f l) ≤ length l)%nat.
Proof.
  induction l as [|x l IH]; [done |].
  change (omap f (x :: l)) with (match f x with Some y => y :: omap f l | None => omap f l end).
  destruct (f x); simpl; lia.
Qed.

Lemma omap_cons {A B : Type} (f : A → option B) x (l : list A) :
  omap f (x :: l) = match f x with Some y => y :: omap f l | None => omap f l end.
Proof. reflexivity. Qed.

Lemma omap_option_map {A B C : Type} (f : A → option B) (g : A → option C) (h : B → C) l :
  (∀ x, g x = option_map h (f x)) → omap g l = List.map h (omap f l).
Proof.
  intros H. induction l as [|x l IH]; [done |].
  rewrite !omap_cons, H. destruct (f x); simpl; by rewrite IH.
Qed.

(** ** What an aging alert says *)

(** X8. Every aging alert is at least 91 days and, in the 30-day months
    the report counts in, at least 3 months old; its months are its days
    divided by 30, rounded down; it repeats the number, customer, date
    and SEK amount of an order of the list; and there are no more alerts
    than orders. *)
Theorem aging_alert_bounds (now : Z) (orders : list order) (today : option Z) :
  let alerts := analyze_order_aging now orders today in
  (∀ a, a ∈ alerts →
        (91 ≤ days_old a)%Z ∧ (3 ≤ months_old a)%Z
        ∧ (30 * months_old a ≤ days_old a < 30 * months_old a + 30)%Z
        ∧ (alert_orderdatum a + 91 * microseconds_per_day ≤ default now today)%Z
        ∧ ∃ o, o ∈ orders ∧ orderdatum o = Some (alert_orderdatum a)
               ∧ alert_ordernr a = ordernr o ∧ alert_kundnamn a = kundnamn o
               ∧ alert_belopp_sek a = belopp_sek o)
  ∧ (length alerts ≤ length orders)%nat.
Proof.
  intros alerts. unfold alerts, analyze_order_aging. split.
  - intros a. unfold sorted_desc_Z. rewrite elem_of_py_sorted, list_elem_of_omap.
    intros (o & Ho & (d & Hd & Hlt & ->)%aging_alert_of_some). simpl.
    assert (H91 : (91 ≤ timedelta_days (default now today) d)%Z) by lia.
    split_and!; try done.
    + apply Z.div_le_lower_bound; lia.
    + apply Z.mul_div_le. lia.
    + pose proof (Z.mod_pos_bound (timedelta_days (default now today) d) 30 eq_refl).
      pose proof (Z.div_mod (timedelta_days (default now today) d) 30). lia.
    + unfold timedelta_days, microseconds_per_day in *.
      pose proof (Z.mul_div_le (default now today - d) 86400000000 eq_refl). lia.
    + by exists o.
  - unfold sorted_desc_Z. rewrite (Permutation_length (py_sorted_perm _ _)).
    apply omap_length_le.
Qed.

(** ** The order book of v3 *)

Section OrderBookV3Properties.

Variable str_of_number : Q → string.
Variable str_of_datetime : Z → string.

(** A row that is converted to a finite amount had a finite amount. *)
Lemma to_sek_finite amt rate s : to_sek amt rate = Finite s → ∃ a, amt = Finite a.
Proof.
  destruct amt as [a | n |]; [by eauto | |done].
  unfold to_sek. simpl. by destruct (Qeq_bool rate 0).
Qed.

Lemma order_row_v3_of_v2 ws fx r :
  order_row_v3 str_of_number str_of_datetime ws fx r
  = match parse_order_row str_of_number str_of_datetime ws fx r with
    | Skipped => Skipped
    | Kept o => Kept (to_v3 o)
    | KeptNonFinite amt cur sek => KeptNonFinite amt cur sek
    end.
Proof.
  unfold order_row_v3, parse_order_row.
  change (V3.clean_amount str_of_number str_of_datetime (cell_value ws r 6))
    with (clean_amount_with_currency str_of_number str_of_datetime (cell_value ws r 6)).
  destruct (clean_amount_with_currency _ _ _) as [[amt cur]|]; [|done].
  destruct (to_sek amt (fx_get fx cur)) as [s | n |] eqn:E.
  - destruct (to_sek_finite _ _ _ E) as [a ->]. done.
  - by destruct amt.
  - by destruct amt.
Qed.

Lemma collect_orders_map {A B : Type} (f : A → B) (rows : list (row_outcome A))
    (rows' : list (row_outcome B)) :
  Forall2 (fun r r' => r' = match r with
                            | Skipped => Skipped
                            | Kept o => Kept (f o)
                            | KeptNonFinite amt cur sek => KeptNonFinite amt cur sek
                            end) rows rows' →
  collect_orders rows' = option_map (List.map f) (collect_orders rows).
Proof.
  unfold collect_orders. induction 1 as [|r r' rows rows' -> _ IH]; [done |].
  rewrite !omap_cons.
  destruct r as [|o|amt cur sek]; cbn [existsb is_non_finite orb kept_order];
    [exact IH | | done].
  destruct (existsb is_non_finite rows'), (existsb is_non_finite rows);
    cbn [option_map] in *; try done.
  injection IH as IH. by rewrite IH.
Qed.

(** X9. The order loop of v3 and [parse_order_book] of v2 read a sheet
    alike: v3 keeps the same rows in the same order, each with the same
    number, date, customer and amount in SEK, so both versions report
    the same number of orders and the same total. *)
Theorem v3_orders_agree_with_v2 (ws : worksheet) (fx : gmap string Q) :
  order_rows_v3 str_of_number str_of_datetime ws fx
  = option_map (List.map to_v3) (parse_order_book str_of_number str_of_datetime ws fx)
  ∧ ∀ v2 v3,
      parse_order_book str_of_number str_of_datetime ws fx = Some v2 →
      order_rows_v3 str_of_number str_of_datetime ws fx = Some v3 →
      v3 = List.map to_v3 v2
      ∧ length v3 = length v2
      ∧ py_sum (List.map v3_belopp_sek v3) = py_sum (List.map belopp_sek v2).
Proof.
  assert (H : order_rows_v3 str_of_number str_of_datetime ws fx
              = option_map (List.map to_v3)
                  (parse_order_book str_of_number str_of_datetime ws fx)).
  { unfold order_rows_v3, parse_order_book. apply collect_orders_map.
    induction (rows_from_2 (max_row ws)) as [|r rows IH]; simpl; constructor;
      [apply order_row_v3_of_v2 | exact IH]. }
  split; [exact H |]. intros v2 v3 H2 H3. rewrite H2 in H. simpl in H.
  rewrite H3 in H. injection H as ->.
  split_and!; [done | by rewrite length_map |].
  rewrite map_map. reflexivity.
Qed.

End OrderBookV3Properties.

(** ** Trimming *)

Lemma rstrip_idempotent s : Str.rstrip (Str.rstrip s) = Str.rstrip s.
Proof.
  induction s as [|c s IH]; [done |]. simpl.
  destruct (Str.rstrip s) as [|c' r'] eqn:E.
  - destruct (Char.is_space c) eqn:Hc; simpl; [done | by rewrite Hc].
  - change (Str.rstrip (String c (String c' r')) = String c (String c' r')).
    simpl in IH |- *. by rewrite IH.
Qed.

Lemma lstrip_head s :
  Str.lstrip s = EmptyString ∨ ∃ c r, Str.lstrip s = String c r ∧ Char.is_space c = false.
Proof.
  induction s as [|c s IH]; simpl; [by left |].
  destruct (Char.is_space c) eqn:Hc; [done |]. right. by exists c, s.
Qed.

Lemma rstrip_head c r : Char.is_space c = false → ∃ r', Str.rstrip (String c r) = String c r'.
Proof. intros Hc. simpl. destruct (Str.rstrip r); rewrite ?Hc; eauto. Qed.

(** [strip] leaves a trimmed text alone. *)
Lemma strip_idempotent s : Str.strip (Str.strip s) = Str.strip s.
Proof.
  unfold Str.strip. destruct (lstrip_head s) as [-> | (c & r & -> & Hc)]; [done |].
  destruct (rstrip_head c r Hc) as [r' E]. rewrite E. simpl Str.lstrip. rewrite Hc.
  by rewrite <- E, rstrip_idempotent.
Qed.

(** ** Sales rows *)

Section SalesRows.

Variable str_of_number : Q → string.
Variable str_of_datetime : Z → string.

Local Abbreviation number_of := (clean_number str_of_number str_of_datetime).
Local Abbreviation articles_of := (parse_sales_articles str_of_number str_of_datetime).
Local Abbreviation customers_of := (parse_sales_customers str_of_number str_of_datetime).

Lemma elem_of_parse_sales_articles ws a :
  a ∈ articles_of ws ↔
  ∃ row, (2 ≤ row ≤ max_row ws)%nat
         ∧ parse_article_row str_of_number str_of_datetime ws row = Some a.
Proof.
  unfold parse_sales_articles. rewrite list_elem_of_omap.
  by setoid_rewrite elem_of_rows_from_2.
Qed.

Lemma elem_of_parse_sales_customers ws c :
  c ∈ customers_of ws ↔
  ∃ row, (2 ≤ row ≤ max_row ws)%nat
         ∧ parse_customer_row str_of_number str_of_datetime ws row = Some c.
Proof.
  unfold parse_sales_customers. rewrite list_elem_of_omap.
  by setoid_rewrite elem_of_rows_from_2.
Qed.

Lemma or_zero_present v : or_zero v ≠ Absent.
Proof.
  destruct v as [|[q| |]|s]; simpl; try done.
  - by destruct (Qeq_bool q 0).
  - by destruct (Str.is_empty s).
Qed.

Lemma parse_article_row_some ws row a :
  parse_article_row str_of_number str_of_datetime ws row = Some a →
  cell_value ws row 1 ≠ CNone
  ∧ summa a = number_of (cell_value ws row 3)
  ∧ summa a ≠ Absent ∧ equals_zero (summa a) = false
  ∧ Str.strip (artikelnr a) = artikelnr a ∧ antal_ut a ≠ Absent.
Proof.
  unfold parse_article_row.
  destruct (is_none (cell_value ws row 1)) eqn:E1; [done |].
  destruct (number_of (cell_value ws row 3)) as [|amount|literal] eqn:E3;
    cbn [is_absent orb]; [done | |].
  - destruct (equals_zero (Number amount)) eqn:Ez; [done |].
    intros [= <-]; simpl. split_and!; try done.
    + by intros E; rewrite E in E1.
    + apply strip_idempotent.
    + apply or_zero_present.
  - intros [= <-]; simpl. split_and!; try done.
    + by intros E; rewrite E in E1.
    + apply strip_idempotent.
    + apply or_zero_present.
Qed.

Lemma parse_customer_row_some ws row c :
  parse_customer_row str_of_number str_of_datetime ws row = Some c →
  cell_value ws row 2 ≠ CNone
  ∧ sale_summa c = number_of (cell_value ws row 4)
  ∧ sale_summa c ≠ Absent ∧ equals_zero (sale_summa c) = false
  ∧ Str.strip (sale_kund c) = sale_kund c.
Proof.
  unfold parse_customer_row.
  destruct (is_none (cell_value ws row 2)) eqn:E1; [done |].
  destruct (number_of (cell_value ws row 4)) as [|amount|literal] eqn:E3;
    cbn [is_absent orb]; [done | |].
  - destruct (equals_zero (Number amount)) eqn:Ez; [done |].
    intros [= <-]; simpl. split_and!; try done.
    + by intros E; rewrite E in E1.
    + apply strip_idempotent.
  - intros [= <-]; simpl. split_and!; try done.
    + by intros E; rewrite E in E1.
    + apply strip_idempotent.
Qed.

Lemma text_amount_keeps_article ws row t :
  (2 ≤ row ≤ max_row ws)%nat → cell_value ws row 1 ≠ CNone →
  number_of (cell_value ws row 3) = Literal t →
  ∃ a, a ∈ articles_of ws ∧ summa a = Literal t.
Proof.
  intros Hrow Hk Hs.
  assert (∃ a, parse_article_row str_of_number str_of_datetime ws row = Some a
               ∧ summa a = Literal t) as (a & Ha & Hsum).
  { unfold parse_article_row. rewrite Hs. simpl.
    destruct (cell_value ws row 1); simpl; [done | eauto | eauto | eauto]. }
  exists a. split; [|done]. apply elem_of_parse_sales_articles. eauto.
Qed.

Lemma text_amount_keeps_customer ws row t :
  (2 ≤ row ≤ max_row ws)%nat → cell_value ws row 2 ≠ CNone →
  number_of (cell_value ws row 4) = Literal t →
  ∃ c, c ∈ customers_of ws ∧ sale_summa c = Literal t.
Proof.
  intros Hrow Hk Hs.
  assert (∃ c, parse_customer_row str_of_number str_of_datetime ws row = Some c
               ∧ sale_summa c = Literal t) as (c & Hc & Hsum).
  { unfold parse_customer_row. rewrite Hs. simpl.
    destruct (cell_value ws row 2); simpl; [done | eauto | eauto | eauto]. }
  exists c. split; [|done]. apply elem_of_parse_sales_customers. eauto.
Qed.

(** X10. The sales parsers keep a row only if its key cell (article
    number, customer name) is not empty and its amount is neither null
    nor the number zero; the key is stored trimmed.  The gate does not
    ask for a number: a row whose amount cell holds a text that does not
    parse is kept, with that text as its amount. *)
Theorem sales_rows_gate (ws : worksheet) :
  (∀ a, a ∈ articles_of ws →
        summa a ≠ Absent ∧ equals_zero (summa a) = false
        ∧ Str.strip (artikelnr a) = artikelnr a ∧ antal_ut a ≠ Absent
        ∧ ∃ row, (2 ≤ row ≤ max_row ws)%nat ∧ cell_value ws row 1 ≠ CNone
                 ∧ summa a = number_of (cell_value ws row 3))
  ∧ (∀ c, c ∈ customers_of ws →
          sale_summa c ≠ Absent ∧ equals_zero (sale_summa c) = false
          ∧ Str.strip (sale_kund c) = sale_kund c
          ∧ ∃ row, (2 ≤ row ≤ max_row ws)%nat ∧ cell_value ws row 2 ≠ CNone
                   ∧ sale_summa c = number_of (cell_value ws row 4))
  ∧ (∀ row t, (2 ≤ row ≤ max_row ws)%nat → cell_value ws row 1 ≠ CNone →
              number_of (cell_value ws row 3) = Literal t →
              ∃ a, a ∈ articles_of ws ∧ summa a = Literal t)
  ∧ (∀ row t, (2 ≤ row ≤ max_row ws)%nat → cell_value ws row 2 ≠ CNone →
              number_of (cell_value ws row 4) = Literal t →
              ∃ c, c ∈ customers_of ws ∧ sale_summa c = Literal t).
Proof.
  split_and!.
  - intros a (row & Hrow & Ha)%elem_of_parse_sales_articles.
    apply parse_article_row_some in Ha as (Hk & Hs & Hn & Hz & Ht & Hq).
    split_and!; try done. by exists row.
  - intros c (row & Hrow & Hc)%elem_of_parse_sales_customers.
    apply parse_customer_row_some in Hc as (Hk & Hs & Hn & Hz & Ht).
    split_and!; try done. by exists row.
  - apply text_amount_keeps_article.
  - apply text_amount_keeps_customer.
Qed.

End SalesRows.

(** The sample sheet: row 2 is an article, row 3 has the amount "abc"
    and is kept with it, row 4 has the amount zero and is skipped. *)
Lemma sales_rows_gate_witness :
  ((2 ≤ 3 ≤ max_row Fixture.sales_sheet)%nat
   ∧ cell_value Fixture.sales_sheet 3 1 ≠ CNone
   ∧ clean_number Sample.str_of_number Sample.str_of_datetime
       (cell_value Fixture.sales_sheet 3 3) = Literal "abc")
  ∧ (∃ a, a ∈ parse_sales_articles Sample.str_of_number Sample.str_of_datetime
                Fixture.sales_sheet
          ∧ summa a = Literal "abc")
  ∧ List.map artikelnr
      (parse_sales_articles Sample.str_of_number Sample.str_of_datetime Fixture.sales_sheet)
    = ["A-100"; "B-200"]%string.
Proof.
  assert ((2 ≤ 3 ≤ max_row Fixture.sales_sheet)%nat) as Hrow by (simpl; lia).
  assert (cell_value Fixture.sales_sheet 3 1 ≠ CNone) as Hkey by (simpl; discriminate).
  assert (clean_number Sample.str_of_number Sample.str_of_datetime
            (cell_value Fixture.sales_sheet 3 3) = Literal "abc") as Htext
    by (vm_compute; reflexivity).
  split; [done |]. split; [| vm_compute; reflexivity].
  destruct (sales_rows_gate Sample.str_of_number Sample.str_of_datetime Fixture.sales_sheet)
    as (_ & _ & Hkeep & _).
  exact (Hkeep 3%nat _ Hrow Hkey Htext).
Defined.

(** ** The sales report *)

Lemma is_finite_number v : is_finite v = true → is_number v = true.
Proof. by destruct v as [|[]|]. Qed.

Lemma sum_values_finite vs :
  forallb is_finite vs = true →
  sum_values vs = Returned (py_sum (List.map amount_key vs)).
Proof.
  intros H. unfold sum_values.
  assert (forallb is_number vs = true) as ->.
  { apply forallb_elem. intros x Hx. apply is_finite_number.
    by apply (proj1 (forallb_elem _ _) H). }
  by rewrite H.
Qed.

Lemma sum_values_text vs v :
  v ∈ vs → is_number v = false → sum_values vs = Raised TypeError.
Proof.
  intros Hv Hn. unfold sum_values.
  destruct (forallb is_number vs) eqn:E; [|done].
  by rewrite (proj1 (forallb_elem _ _) E v Hv) in Hn.
Qed.

Lemma sum_values_returned vs x :
  sum_values vs = Returned x →
  forallb is_finite vs = true ∧ x = py_sum (List.map amount_key vs).
Proof.
  unfold sum_values. destruct (forallb is_number vs); [|done].
  destruct (forallb is_finite vs); [|done]. simpl. by intros [= <-].
Qed.

Section TopOfSorted.

Context {A : Type} (key : A → Q).

Lemma top_dominates n l x y :
  x ∈ take n (sorted_desc_Q key l) → y ∈ l →
  y ∈ take n (sorted_desc_Q key l) ∨ (key y <= key x)%Q.
Proof.
  intros Hx Hy.
  assert (y ∈ sorted_desc_Q key l) as Hy' by (by apply elem_of_py_sorted).
  rewrite <- (take_drop n (sorted_desc_Q key l)) in Hy'.
  apply elem_of_app in Hy' as [?|Hd]; [by left | right].
  eapply take_of_sorted_dominates; [apply sorted_desc_Q_sorted | done | done].
Qed.

Lemma top_length n l : length (take n (sorted_desc_Q key l)) = (n `min` length l)%nat.
Proof.
  rewrite length_take. f_equal. apply Permutation_length, py_sorted_perm.
Qed.

Lemma top_within n l x : x ∈ take n (sorted_desc_Q key l) → x ∈ l.
Proof. intros Hx%subseteq_take. by apply elem_of_py_sorted in Hx. Qed.

Lemma finite_top (val : A → parsed_number) n l :
  forallb is_finite (List.map val l) = true →
  forallb is_finite (List.map val (take n (sorted_desc_Q key l))) = true.
Proof.
  rewrite !forallb_elem. intros H v (x & -> & Hx)%elem_of_List_map.
  apply H, elem_of_List_map. exists x. split; [done | by eapply top_within].
Qed.

End TopOfSorted.

Lemma amounts_of_articles articles :
  py_sum (List.map amount_key (List.map summa articles)) = articles_total articles.
Proof. unfold articles_total. by rewrite List.map_map. Qed.

Lemma amounts_of_customers customers :
  py_sum (List.map amount_key (List.map sale_summa customers)) = customers_total customers.
Proof. unfold customers_total. by rewrite List.map_map. Qed.

(** What [create_sales_output_v2] does when every amount is a finite
    number. *)
Lemma create_sales_output_finite articles customers master :
  finite_amounts (List.map summa articles) →
  finite_amounts (List.map sale_summa customers) →
  ((articles_total articles == 0)%Q →
   create_sales_output_v2 articles customers master = Raised ZeroDivisionError)
  ∧ ((customers_total customers == 0)%Q →
     create_sales_output_v2 articles customers master = Raised ZeroDivisionError)
  ∧ (¬ (articles_total articles == 0)%Q → ¬ (customers_total customers == 0)%Q →
     (∃ st, create_sales_output_v2 articles customers master = Returned st)
     ∨ create_sales_output_v2 articles customers master = Raised IllegalCharacterError).
Proof.
  intros Ha Hc. unfold create_sales_output_v2. cbv zeta.
  rewrite (sum_values_finite _ Ha), (sum_values_finite _ Hc).
  cbn [and_then].
  rewrite (sum_values_finite _ (finite_top _ summa 20 _ Ha)).
  rewrite (sum_values_finite _ (finite_top _ sale_summa 20 _ Hc)).
  cbn [and_then]. rewrite !amounts_of_articles, !amounts_of_customers.
  unfold divide.
  destruct (Qeq_bool (articles_total articles) 0) eqn:Ea; cbn [and_then].
  { apply Qeq_bool_iff in Ea. split_and!; [done | done |]. by intros []. }
  apply Qeq_bool_false in Ea.
  destruct (Qeq_bool (customers_total customers) 0) eqn:Ec; cbn [and_then].
  { apply Qeq_bool_iff in Ec. split_and!; [done | done |]. by intros _ []. }
  apply Qeq_bool_false in Ec. split_and!; [done | done |].
  intros _ _. destruct (negb _); eauto.
Qed.

(** What a returned record of statistics holds. *)
Lemma create_sales_output_returned articles customers master st :
  create_sales_output_v2 articles customers master = Returned st →
  finite_amounts (List.map summa articles)
  ∧ finite_amounts (List.map sale_summa customers)
  ∧ ¬ (articles_total articles == 0)%Q ∧ ¬ (customers_total customers == 0)%Q
  ∧ stat_total st = articles_total articles
  ∧ top20_articles st = take 20 (sorted_desc_Q article_amount articles)
  ∧ top20_customers st = take 20 (sorted_desc_Q sale_amount customers)
  ∧ top20_art_pct st =
      (if Qgtb (articles_total articles) 0
       then py_sum (List.map article_amount (take 20 (sorted_desc_Q article_amount articles)))
            / articles_total articles * 100
       else 0)%Q
  ∧ top20_cust_pct st =
      (if Qgtb (customers_total customers) 0
       then py_sum (List.map sale_amount (take 20 (sorted_desc_Q sale_amount customers)))
            / customers_total customers * 100
       else 0)%Q
  ∧ new_articles st =
      match master with
      | Some ids =>
          List.filter (fun a => negb (bool_decide (Str.lower (artikelnr a) ∈ ids))) articles
      | None => []
      end.
Proof.
  unfold create_sales_output_v2. cbv zeta.
  destruct (sum_values (List.map summa articles)) as [ta| |] eqn:E1;
    cbn [and_then]; try done.
  destruct (sum_values (List.map sale_summa customers)) as [tc| |] eqn:E2;
    cbn [and_then]; try done.
  apply sum_values_returned in E1 as [Ha ->], E2 as [Hc ->].
  rewrite (sum_values_finite _ (finite_top _ summa 20 _ Ha)).
  rewrite (sum_values_finite _ (finite_top _ sale_summa 20 _ Hc)).
  cbn [and_then]. rewrite !amounts_of_articles, !amounts_of_customers.
  unfold divide.
  destruct (Qeq_bool (articles_total articles) 0) eqn:Ea; cbn [and_then]; [done |].
  destruct (Qeq_bool (customers_total customers) 0) eqn:Ec; cbn [and_then]; [done |].
  destruct (negb _); [done |].
  rewrite Qeq_bool_false in Ea, Ec. intros [= <-]. cbn.
  rewrite ?List.map_map. by split_and!.
Qed.

(** X11. With no customer, or no article, the sales report stops: the
    two percentages of the Summary sheet are divided by the totals
    without the guard the returned statistics have, and a list that is
    empty, or holds zero amounts only, has the total zero, so the call
    raises [ZeroDivisionError].  The application passes an empty
    customer list when the workbook has no customer sheet. *)
Theorem sales_report_stops_without_amounts
    (articles : list article) (customers : list customer_sale)
    (master : option (gset string)) :
  finite_amounts (List.map summa articles) →
  finite_amounts (List.map sale_summa customers) →
  ((∀ a, a ∈ articles → (article_amount a == 0)%Q) →
   create_sales_output_v2 articles customers master = Raised ZeroDivisionError)
  ∧ ((∀ c, c ∈ customers → (sale_amount c == 0)%Q) →
     create_sales_output_v2 articles customers master = Raised ZeroDivisionError)
  ∧ (articles = [] →
     create_sales_output_v2 articles customers master = Raised ZeroDivisionError)
  ∧ (customers = [] →
     create_sales_output_v2 articles customers master = Raised ZeroDivisionError).
Proof.
  intros Ha Hc.
  destruct (create_sales_output_finite articles customers master Ha Hc)
    as (Hza & Hzc & _).
  assert ((∀ a, a ∈ articles → (article_amount a == 0)%Q) →
          (articles_total articles == 0)%Q) as Hsa.
  { intros H. apply py_sum_zero, Forall_forall.
    intros q (a & -> & Hin)%elem_of_List_map. by apply H. }
  assert ((∀ c, c ∈ customers → (sale_amount c == 0)%Q) →
          (customers_total customers == 0)%Q) as Hsc.
  { intros H. apply py_sum_zero, Forall_forall.
    intros q (c & -> & Hin)%elem_of_List_map. by apply H. }
  split_and!.
  - intros H. by apply Hza, Hsa.
  - intros H. by apply Hzc, Hsc.
  - intros ->. by apply Hza.
  - intros ->. by apply Hzc.
Qed.

Lemma sales_report_stops_without_amounts_witness :
  finite_amounts (List.map summa [Fixture.an_article "A-100" 1250])
  ∧ create_sales_output_v2 [Fixture.an_article "A-100" 1250] [] None
    = Raised ZeroDivisionError.
Proof.
  assert (finite_amounts (List.map summa [Fixture.an_article "A-100" 1250])) as Ha
    by reflexivity.
  split; [exact Ha |].
  destruct (sales_report_stops_without_amounts
              [Fixture.an_article "A-100" 1250] [] None Ha eq_refl) as (_ & _ & _ & Hempty).
  exact (Hempty eq_refl).
Defined.

(** X12. A row of the article sheet whose amount cell holds a text that
    does not parse as a number is kept by [parse_sales_articles] with the
    text as its amount, and the report built from these articles raises
    [TypeError] at its first sum, whatever the customers and the master
    list are. *)
Theorem text_amount_stops_sales_report
    (str_of_number : Q → string) (str_of_datetime : Z → string)
    (ws : worksheet) (row : nat) (t : string)
    (customers : list customer_sale) (master : option (gset string)) :
  (2 ≤ row ≤ max_row ws)%nat →
  cell_value ws row 1 ≠ CNone →
  clean_number str_of_number str_of_datetime (cell_value ws row 3) = Literal t →
  create_sales_output_v2 (parse_sales_articles str_of_number str_of_datetime ws)
    customers master = Raised TypeError.
Proof.
  intros Hrow Hkey Htext.
  destruct (text_amount_keeps_article _ _ ws row t Hrow Hkey Htext) as (a & Ha & Hsum).
  unfold create_sales_output_v2.
  rewrite (sum_values_text _ (Literal t)); [done | | done].
  apply elem_of_List_map. by exists a.
Qed.

Lemma text_amount_stops_sales_report_witness :
  create_sales_output_v2
    (parse_sales_articles Sample.str_of_number Sample.str_of_datetime Fixture.sales_sheet)
    [Fixture.a_sale "Acme" 100] None = Raised TypeError.
Proof.
  apply (text_amount_stops_sales_report _ _ Fixture.sales_sheet 3%nat "abc").
  - simpl. lia.
  - simpl. discriminate.
  - vm_compute. reflexivity.
Defined.

(** X13. The statistics the sales report returns: the total is the sum
    of the article amounts; the two top-20 lists hold 20 entries, or all
    of them when there are fewer, are taken from the input, are ordered
    by amount, largest first, and no article or customer left out has a
    larger amount than one that is listed. *)
Theorem sales_report_top20
    (articles : list article) (customers : list customer_sale)
    (master : option (gset string)) (st : sales_stats) :
  create_sales_output_v2 articles customers master = Returned st →
  (stat_total st == articles_total articles)%Q
  ∧ length (top20_articles st) = (20 `min` length articles)%nat
  ∧ length (top20_customers st) = (20 `min` length customers)%nat
  ∧ (∀ a, a ∈ top20_articles st → a ∈ articles)
  ∧ (∀ c, c ∈ top20_customers st → c ∈ customers)
  ∧ StronglySorted (fun a b => (article_amount b <= article_amount a)%Q)
      (top20_articles st)
  ∧ StronglySorted (fun c d => (sale_amount d <= sale_amount c)%Q)
      (top20_customers st)
  ∧ (∀ a b, a ∈ top20_articles st → b ∈ articles →
            b ∈ top20_articles st ∨ (article_amount b <= article_amount a)%Q)
  ∧ (∀ c d, c ∈ top20_customers st → d ∈ customers →
            d ∈ top20_customers st ∨ (sale_amount d <= sale_amount c)%Q).
Proof.
  intros (_ & _ & _ & _ & Htot & Hta & Htc & _)%create_sales_output_returned.
  rewrite Htot, Hta, Htc. split_and!.
  - reflexivity.
  - apply top_length.
  - apply top_length.
  - apply top_within.
  - apply top_within.
  - apply StronglySorted_take, sorted_desc_Q_sorted.
  - apply StronglySorted_take, sorted_desc_Q_sorted.
  - apply top_dominates.
  - apply top_dominates.
Qed.

Lemma sales_report_top20_witness :
  ∃ st, create_sales_output_v2
          [Fixture.an_article "A-100" 100; Fixture.an_article "B-200" 250]
          [Fixture.a_sale "Acme" 350] None = Returned st
        ∧ length (top20_articles st) = 2%nat
        ∧ length (top20_customers st) = 1%nat.
Proof.
  assert (∃ st, create_sales_output_v2
                  [Fixture.an_article "A-100" 100; Fixture.an_article "B-200" 250]
                  [Fixture.a_sale "Acme" 350] None = Returned st) as [st Hst].
  { eexists. vm_compute. reflexivity. }
  exists st. split; [exact Hst |].
  destruct (sales_report_top20 _ _ _ _ Hst) as (_ & Ha & Hc & _).
  split; [exact Ha | exact Hc].
Defined.

(** ** The master article list *)

Section MasterArticles.

Variable str_of_number : Q → string.
Variable str_of_datetime : Z → string.

Local Abbreviation article_id :=
  (fun v : cell => Str.lower (Str.strip (py_str str_of_number str_of_datetime v))).
Local Abbreviation master_of := (load_master_articles str_of_number str_of_datetime).

(** The rows of the master sheet that name an article. *)
Lemma elem_of_master_rows ws rows (acc : gset string) id :
  id ∈ foldl (fun articles row =>
                let art := cell_value ws row 1 in
                if truthy art then articles ∪ {[article_id art]} else articles)
             acc rows
  ↔ id ∈ acc ∨ ∃ row, row ∈ rows ∧ truthy (cell_value ws row 1) = true
                       ∧ id = article_id (cell_value ws row 1).
Proof.
  revert acc. induction rows as [|r rows IH]; intros acc; simpl.
  - split; [by left |]. intros [? | (row & Hrow & _)]; [done |].
    by apply elem_of_nil in Hrow.
  - rewrite IH. destruct (truthy (cell_value ws r 1)) eqn:Ht.
    + rewrite elem_of_union, elem_of_singleton. split.
      * intros [[? | ->] | (row & Hrow & Hrest)]; [by left | |].
        -- right. exists r. split_and!; [apply elem_of_cons; by left | done | done].
        -- right. exists row. split; [apply elem_of_cons; by right | done].
      * intros [? | (row & [-> | Hrow]%elem_of_cons & Htr & ->)].
        -- left. by left.
        -- left. by right.
        -- right. exists row. by split_and!.
    + split.
      * intros [? | (row & Hrow & Hrest)]; [by left |].
        right. exists row. split; [apply elem_of_cons; by right | done].
      * intros [? | (row & [-> | Hrow]%elem_of_cons & Htr & ->)]; [by left | |].
        -- by rewrite Htr in Ht.
        -- right. exists row. by split_and!.
Qed.

Lemma elem_of_master_article_ids ws id :
  id ∈ master_article_ids str_of_number str_of_datetime ws
  ↔ ∃ row, (2 ≤ row ≤ max_row ws)%nat ∧ truthy (cell_value ws row 1) = true
           ∧ id = article_id (cell_value ws row 1).
Proof.
  unfold master_article_ids. rewrite elem_of_master_rows.
  setoid_rewrite elem_of_rows_from_2. split; [|by right].
  intros [H|H]; [|done]. by apply elem_of_empty in H.
Qed.

Lemma sheet_listed name wb :
  existsb (String.eqb name) (sheetnames wb) = true ↔ name ∈ sheetnames wb.
Proof.
  rewrite existsb_exists, list_elem_of_In. split.
  - by intros (n & Hn & ->%String.eqb_eq).
  - intros Hn. exists name. split; [done | apply String.eqb_refl].
Qed.

Lemma load_master_articles_cases wb :
  ((article_sales_sheet ∉ sheetnames wb) ∧ master_of wb = Ok ∅)
  ∨ (∃ ws, getitem wb article_sales_sheet = Ok ws ∧ ws ∈ wb
           ∧ title ws = article_sales_sheet
           ∧ master_of wb = Ok (master_article_ids str_of_number str_of_datetime ws)).
Proof.
  unfold load_master_articles.
  destruct (existsb _ (sheetnames wb)) eqn:E.
  - right. apply sheet_listed in E.
    destruct (getitem_present wb _ E) as (ws & Hget & Hin & Ht).
    exists ws. rewrite Hget. by split_and!.
  - left. split; [|done]. intros Hin%sheet_listed. by rewrite Hin in E.
Qed.

(** X15. [load_master_articles] never raises.  It returns the empty set
    when the workbook has no sheet named 'Försäljning per artikel';
    otherwise the set holds exactly the first-column values of the rows
    2..max_row of that sheet that are truthy, each converted to text,
    trimmed and lower-cased. *)
Theorem master_articles_are_normalised_ids (wb : list worksheet) :
  ∃ ids, master_of wb = Ok ids
    ∧ (article_sales_sheet ∉ sheetnames wb → ids = ∅)
    ∧ (article_sales_sheet ∈ sheetnames wb →
       ∃ ws, getitem wb article_sales_sheet = Ok ws
         ∧ ∀ id, id ∈ ids ↔
                 ∃ row, (2 ≤ row ≤ max_row ws)%nat
                        ∧ truthy (cell_value ws row 1) = true
                        ∧ id = article_id (cell_value ws row 1)).
Proof.
  destruct (load_master_articles_cases wb) as [[Hno ->] | (ws & Hget & _ & Ht & ->)].
  - exists ∅. by split_and!.
  - eexists. split; [done |]. split.
    + intros Hno. exfalso. apply Hno. rewrite <- Ht.
      apply elem_of_List_map. exists ws. split; [done | by eapply getitem_in].
    + intros _. exists ws. split; [done |]. apply elem_of_master_article_ids.
Qed.

(** X16. With a master workbook, the report lists as new exactly the
    articles whose number, lower-cased, equals no identifier of the
    master sheet: the comparison ignores case, and surrounding white
    space on the master side.  When the master workbook lacks the sheet,
    every article is listed as new. *)
Theorem new_articles_are_missing_from_master
    (wb : list worksheet) (ids : gset string)
    (articles : list article) (customers : list customer_sale) (st : sales_stats) :
  master_of wb = Ok ids →
  create_sales_output_v2 articles customers (Some ids) = Returned st →
  (article_sales_sheet ∉ sheetnames wb → new_articles st = articles)
  ∧ (∀ ws, getitem wb article_sales_sheet = Ok ws →
       ∀ a, a ∈ new_articles st ↔
            a ∈ articles
            ∧ ¬ ∃ row, (2 ≤ row ≤ max_row ws)%nat
                       ∧ truthy (cell_value ws row 1) = true
                       ∧ article_id (cell_value ws row 1) = Str.lower (artikelnr a)).
Proof.
  intros Hload (_ & _ & _ & _ & _ & _ & _ & _ & _ & ->)%create_sales_output_returned.
  destruct (load_master_articles_cases wb) as [[Hno Hempty] | (ws & Hget & Hin & Ht & Hids)].
  - rewrite Hempty in Hload. injection Hload as <-. split.
    + intros _. apply filter_all. intros a _.
      apply negb_true_iff, bool_decide_eq_false. apply not_elem_of_empty.
    + intros ws Hget. exfalso. apply Hno.
      apply getitem_in in Hget as Hin. unfold getitem in Hget.
      destruct (List.find _ wb) as [w|] eqn:E; [|done]. injection Hget as ->.
      apply find_some in E as [_ Hname%String.eqb_eq]. rewrite <- Hname.
      apply elem_of_List_map. by exists ws.
  - rewrite Hids in Hload. injection Hload as <-. split.
    + intros Hno. exfalso. apply Hno. rewrite <- Ht.
      apply elem_of_List_map. by exists ws.
    + intros ws' Hget'. rewrite Hget in Hget'. injection Hget' as <-.
      intros a. rewrite elem_of_filter_bool, negb_true_iff, bool_decide_eq_false.
      rewrite elem_of_master_article_ids.
      split; intros [Ha Hn]; (split; [done |]); intros (row & Hrow & Htr & Heq);
        apply Hn; exists row; (split; [exact Hrow | split; [exact Htr | by symmetry]]).
Qed.

End MasterArticles.

Lemma new_articles_are_missing_from_master_witness :
  let ids := master_article_ids Sample.str_of_number Sample.str_of_datetime
               Fixture.master_sheet in
  load_master_articles Sample.str_of_number Sample.str_of_datetime [Fixture.master_sheet]
    = Ok ids
  ∧ ∃ st,
      create_sales_output_v2
        [Fixture.an_article "A-100" 100; Fixture.an_article "B-200" 250]
        [Fixture.a_sale "Acme" 350] (Some ids) = Returned st
      ∧ (Fixture.an_article "A-100" 100 ∈ new_articles st → False)
      ∧ Fixture.an_article "B-200" 250 ∈ new_articles st.
Proof.
  intros ids.
  assert (load_master_articles Sample.str_of_number Sample.str_of_datetime
            [Fixture.master_sheet] = Ok ids) as Hids by (vm_compute; reflexivity).
  split; [exact Hids |].
  assert (∃ st, create_sales_output_v2
                  [Fixture.an_article "A-100" 100; Fixture.an_article "B-200" 250]
                  [Fixture.a_sale "Acme" 350] (Some ids) = Returned st) as [st Hst].
  { eexists. vm_compute. reflexivity. }
  exists st. split; [exact Hst |].
  destruct (new_articles_are_missing_from_master _ _ _ _ _ _ _ Hids Hst) as [_ Hnew].
  specialize (Hnew Fixture.master_sheet eq_refl).
  split.
  - intros [_ Hn]%Hnew. apply Hn. exists 2%nat.
    split_and!; [simpl; lia | simpl; lia | reflexivity | vm_compute; reflexivity].
  - apply Hnew. split; [apply elem_of_cons; right; apply elem_of_cons; by left |].
    intros (row & Hrow & _ & Heq). simpl in Hrow.
    assert (row = 2 ∨ row = 3)%nat as [-> | ->] by lia; vm_compute in Heq; discriminate.
Defined.

(** ** Top 20 customers (v3) *)

Section Top20Customers.

Variables curr prev : string.

Lemma top_customer_row_some c x :
  top_customer_row curr prev c = Some x →
  (0 < get0 (ltm c) curr)%Q
  ∧ top_kund x = kund c
  ∧ top_current x = get0 (ltm c) curr
  ∧ top_previous x = get0 (ltm c) prev
  ∧ top_change x = (get0 (ltm c) curr - get0 (ltm c) prev)%Q.
Proof.
  unfold top_customer_row. destruct (Qgtb (get0 (ltm c) curr) 0) eqn:E; [|done].
  apply Qgtb_gt in E. by intros [= <-].
Qed.

Lemma top_customer_row_none c :
  top_customer_row curr prev c = None → (get0 (ltm c) curr <= 0)%Q.
Proof.
  unfold top_customer_row. destruct (Qgtb (get0 (ltm c) curr) 0) eqn:E; [done |].
  by apply Qgtb_le in E.
Qed.

Lemma top_customer_rows_length cs :
  length (omap (top_customer_row curr prev) cs) = length (with_revenue curr cs).
Proof.
  induction cs as [|c cs IH]; [done |].
  rewrite omap_cons. unfold with_revenue, top_customer_row in *. simpl.
  destruct (Qgtb (get0 (ltm c) curr) 0); simpl; by rewrite IH.
Qed.

(** X17. [get_top20_cust] lists the customers with revenue in the
    current period, 20 of them or all when there are fewer, largest
    first; every row carries the customer's two period revenues and
    their difference; and every customer of the dataset is either listed
    or has no more current revenue than each listed one. *)
Theorem top20_customers_are_largest (data : master_data) :
  let top := get_top20_cust data curr prev in
  length top = (20 `min` length (with_revenue curr (customers data)))%nat
  ∧ StronglySorted (fun a b => (top_current b <= top_current a)%Q) top
  ∧ (∀ x, x ∈ top →
       (0 < top_current x)%Q
       ∧ (top_change x == top_current x - top_previous x)%Q
       ∧ ∃ c, c ∈ customers data ∧ top_customer_row curr prev c = Some x
              ∧ top_kund x = kund c
              ∧ top_current x = get0 (ltm c) curr
              ∧ top_previous x = get0 (ltm c) prev)
  ∧ (∀ x c, x ∈ top → c ∈ customers data →
       (∃ y, y ∈ top ∧ top_customer_row curr prev c = Some y)
       ∨ (get0 (ltm c) curr <= top_current x)%Q).
Proof.
  intros top. unfold top, get_top20_cust.
  assert (∀ x, x ∈ take 20 (sorted_desc_Q top_current
                              (omap (top_customer_row curr prev) (customers data))) →
               ∃ c, c ∈ customers data ∧ top_customer_row curr prev c = Some x) as Hrow.
  { intros x Hx%top_within. by apply list_elem_of_omap in Hx. }
  split_and!.
  - by rewrite top_length, top_customer_rows_length.
  - apply StronglySorted_take, sorted_desc_Q_sorted.
  - intros x (c & Hc & Hx)%Hrow.
    pose proof (top_customer_row_some c x Hx) as (Hpos & Hk & Hcur & Hpre & Hchg).
    split_and!.
    + by rewrite Hcur.
    + by rewrite Hchg, Hcur, Hpre.
    + by exists c.
  - intros x c Hx Hc.
    destruct (top_customer_row curr prev c) as [y|] eqn:Ey.
    + assert (y ∈ omap (top_customer_row curr prev) (customers data)) as Hy.
      { apply list_elem_of_omap. by exists c. }
      destruct (top_dominates top_current 20 _ x y Hx Hy) as [Hin | Hle].
      * left. by exists y.
      * right. apply top_customer_row_some in Ey as (_ & _ & <- & _). exact Hle.
    + right. apply top_customer_row_none in Ey.
      destruct (Hrow x Hx) as (c' & _ & Hx').
      apply top_customer_row_some in Hx' as (Hpos & _ & Hcur & _).
      rewrite Hcur. lra.
Qed.

End Top20Customers.

(** ** The order of the cohort lists (v3) *)

Section CohortRanking.

Variables curr prev : string.

Local Open Scope Q_scope.

Local Abbreviation cur_v := (fun c : customer => get0 (ltm c) curr).
Local Abbreviation pre_v := (fun c : customer => get0 (ltm c) prev).

Lemma bucket_of_signs c :
  match bucket_of curr prev c with
  | Churned => churned c = true ∨ (0 < pre_v c ∧ cur_v c == 0)
  | New => churned c = false ∧ pre_v c == 0 ∧ 0 < cur_v c
  | Declining => churned c = false ∧ cur_v c < pre_v c
  | Growing => churned c = false ∧ pre_v c < cur_v c
  | Flat => churned c = false ∧ cur_v c == pre_v c
  end.
Proof.
  unfold bucket_of.
  destruct (churned c); simpl; [by left |].
  destruct (Qgtb (pre_v c) 0 && Qeq_bool (cur_v c) 0) eqn:E1.
  { apply andb_true_iff in E1 as [E0 E1]. right.
    split; [by apply Qgtb_gt | by apply Qeq_bool_iff]. }
  destruct (Qeq_bool (pre_v c) 0 && Qgtb (cur_v c) 0) eqn:E2.
  { apply andb_true_iff in E2 as [E2 E2']. split; [done |].
    split; [by apply Qeq_bool_iff | by apply Qgtb_gt]. }
  destruct (Qltb (cur_v c - pre_v c) 0) eqn:E3.
  { apply Qltb_lt in E3. split; [done | lra]. }
  destruct (Qgtb (cur_v c - pre_v c) 0) eqn:E4.
  { apply Qgtb_gt in E4. split; [done | lra]. }
  apply Qltb_ge in E3. apply Qgtb_le in E4. split; [done | lra].
Qed.

Lemma elem_of_in_bucket b cs c :
  c ∈ in_bucket b curr prev cs ↔ c ∈ cs ∧ bucket_of curr prev c = b.
Proof. unfold in_bucket. by rewrite elem_of_filter_bool, bool_decide_eq_true. Qed.

Lemma move_pct_sign c :
  (cur_v c < pre_v c → move_pct (move_row_of curr prev c) <= 0)
  ∧ (pre_v c < cur_v c → 0 <= move_pct (move_row_of curr prev c)).
Proof.
  unfold move_row_of. simpl.
  destruct (Qgtb (pre_v c) 0) eqn:E; [|split; intros; lra].
  apply Qgtb_gt in E. split; intros H.
  - assert ((cur_v c - pre_v c) / pre_v c <= 0) as Hq
      by (apply Qle_shift_div_r; [done | lra]).
    cbv beta in Hq. revert Hq.
    generalize ((get0 (ltm c) curr - get0 (ltm c) prev) / get0 (ltm c) prev).
    intros q ?. lra.
  - assert (0 <= (cur_v c - pre_v c) / pre_v c) as Hq
      by (apply Qle_shift_div_l; [done | lra]).
    cbv beta in Hq. revert Hq.
    generalize ((get0 (ltm c) curr - get0 (ltm c) prev) / get0 (ltm c) prev).
    intros q ?. lra.
Qed.

(** X18. The four lists of [analyze_cohorts] are ranked: churned
    customers by previous revenue, largest first; declining customers by
    change, largest loss first; growing customers by change, largest
    gain first; new customers by current revenue, largest first.  Every
    row's change is current minus previous; a declining row has a
    negative change and a percentage that is not positive, a growing row
    a positive change and a percentage that is not negative, and a new
    row positive current revenue. *)
Theorem cohort_lists_are_ranked (data : master_data) :
  let r := analyze_cohorts data curr prev in
  StronglySorted (fun a b => churn_previous b <= churn_previous a) (cohort_churned r)
  ∧ StronglySorted (fun a b => move_change a <= move_change b) (cohort_declining r)
  ∧ StronglySorted (fun a b => move_change b <= move_change a) (cohort_growing r)
  ∧ StronglySorted (fun a b => new_current b <= new_current a) (cohort_new r)
  ∧ (∀ x, x ∈ cohort_churned r →
          churn_change x == churn_current x - churn_previous x)
  ∧ (∀ x, x ∈ cohort_declining r →
          move_change x == move_current x - move_previous x
          ∧ move_change x < 0 ∧ move_pct x <= 0)
  ∧ (∀ x, x ∈ cohort_growing r →
          move_change x == move_current x - move_previous x
          ∧ 0 < move_change x ∧ 0 <= move_pct x)
  ∧ (∀ x, x ∈ cohort_new r → 0 < new_current x).
Proof.
  intros r. unfold r, analyze_cohorts. rewrite cohort_fold. cbn [cohort_churned
    cohort_declining cohort_growing cohort_new app].
  split_and!.
  - apply sorted_desc_Q_sorted.
  - apply sorted_asc_Q_sorted.
  - apply sorted_desc_Q_sorted.
  - apply sorted_desc_Q_sorted.
  - intros x (c & -> & _)%elem_of_py_sorted%elem_of_List_map. reflexivity.
  - intros x (c & -> & [_ Hb]%elem_of_in_bucket)%elem_of_py_sorted%elem_of_List_map.
    pose proof (bucket_of_signs c) as Hs. rewrite Hb in Hs. destruct Hs as [_ Hs].
    split_and!; [reflexivity | simpl; lra | by apply move_pct_sign].
  - intros x (c & -> & [_ Hb]%elem_of_in_bucket)%elem_of_py_sorted%elem_of_List_map.
    pose proof (bucket_of_signs c) as Hs. rewrite Hb in Hs. destruct Hs as [_ Hs].
    split_and!; [reflexivity | simpl; lra | by apply move_pct_sign].
  - intros x (c & -> & [_ Hb]%elem_of_in_bucket)%elem_of_py_sorted%elem_of_List_map.
    pose proof (bucket_of_signs c) as Hs. rewrite Hb in Hs.
    by destruct Hs as (_ & _ & Hs).
Qed.

End CohortRanking.

(** ** The top 20 of the sales intelligence report *)

Section Intelligence.

Local Open Scope Q_scope.

(** X19. In the sales intelligence report the active customers are
    those with revenue above zero, and the top-20 list holds the 20 of
    them with the largest revenue, or all of them when there are fewer,
    largest first: every customer is either listed or has no more
    revenue than each listed one. *)
Theorem intelligence_top20_are_largest (custs : list sales_customer) :
  let r := analyze_sales_intelligence custs in
  (∀ c, c ∈ intel_active r ↔ c ∈ custs ∧ 0 < ltm_now c)
  ∧ sublist (intel_active r) custs
  ∧ length (top20 r) = (20 `min` length (intel_active r))%nat
  ∧ StronglySorted (fun a b => ltm_now b <= ltm_now a) (top20 r)
  ∧ (∀ x, x ∈ top20 r → x ∈ custs ∧ 0 < ltm_now x)
  ∧ (∀ x c, x ∈ top20 r → c ∈ custs → c ∈ top20 r ∨ ltm_now c <= ltm_now x).
Proof.
  intros r. unfold r, analyze_sales_intelligence. cbv zeta.
  cbn [top20 intel_active].
  set (active := List.filter (fun c => Qgtb (ltm_now c) 0) custs).
  assert (∀ x, x ∈ active ↔ x ∈ custs ∧ 0 < ltm_now x) as Hactive.
  { intros x. unfold active. by rewrite elem_of_filter_bool, Qgtb_gt. }
  split_and!.
  - exact Hactive.
  - apply List_filter_sublist.
  - apply top_length.
  - apply StronglySorted_take, sorted_desc_Q_sorted.
  - intros x Hx%top_within. by apply Hactive.
  - intros x c Hx Hc.
    destruct (Qgtb (ltm_now c) 0) eqn:Ec.
    + apply (top_dominates ltm_now 20 active x c Hx).
      apply elem_of_filter_bool. by split.
    + right. apply Qgtb_le in Ec. apply top_within, Hactive in Hx as [_ Hx]. lra.
Qed.

End Intelligence.
